(** * Gas-fee sponsoring relayer: a shallow embedding of the relayer backend

    The development follows the TypeScript sources of the relayer backend:
    - [services/redis.ts]    (RedisService: nonce cursor, pending-tx cache),
    - [services/policy.ts]   (PolicyEngine: allowlist, quota, gas, token rules),
    - [services/database.ts] (DatabaseService: transactions table),
    - [services/relayer.ts]  (RelayerService: the relay pipeline).

    Asynchronous methods become computations in a state-and-exception monad
    over a [World] that holds the Redis keyspace, the transactions table, the
    wall clock and a trace of the calls made to external collaborators. *)

From Stdlib Require Import ZArith String Ascii List Lia.
From Stdlib Require Import Sorting.Sorted Sorting.Permutation.
From Stdlib Require Import DecimalString DecimalZ.
From stdpp Require Import base option gmap strings list.

Open Scope string_scope.
Open Scope Z_scope.

(** ** JavaScript strings and numbers *)

Module JS.

(** [String.prototype.toLowerCase] on ASCII text (addresses are hex). *)
Definition lower_ascii (c : ascii) : ascii :=
  let n := nat_of_ascii c in
  if (Nat.leb 65 n && Nat.leb n 90)%bool then ascii_of_nat (n + 32) else c.

Fixpoint toLowerCase (s : string) : string :=
  match s with
  | EmptyString => EmptyString
  | String c s' => String (lower_ascii c) (toLowerCase s')
  end.

(** [Number.prototype.toString] on an integer: canonical decimal. *)
Definition toString (z : Z) : string := NilEmpty.string_of_int (Z.to_int z).

(** A JavaScript number as far as the code looks at it: an integer or NaN. *)
Inductive number := Num (z : Z) | NaN.

(** Truthiness of a string: only the empty string is falsy. *)
Definition truthy (s : string) : bool :=
  match s with EmptyString => false | _ => true end.

(** Truthiness of an optional string field ([undefined] is falsy). *)
Definition truthy_opt (o : option string) : bool :=
  match o with Some s => truthy s | None => false end.

(** Template literals and [+] on strings. *)
Definition concat (l : list string) : string := fold_right String.append EmptyString l.

(** [Array.prototype.some]. *)
Definition some {A} (p : A -> bool) (l : list A) : bool := existsb p l.

End JS.

(** ** Results of asynchronous calls: a value or a thrown [Error] *)

Inductive result (A : Type) : Type :=
| Ok (a : A)
| Throw (msg : string).
Arguments Ok {A} a.
Arguments Throw {A} msg.

(** ** Redis keyspace *)

Inductive RedisValue :=
| RString (s : string)
| RZSet (members : list (Z * string)).

Record RedisEntry := mkEntry {
  rvalue : RedisValue;
  rttl : option Z        (* seconds to live, as set by EXPIRE / SETEX *)
}.

(** ** Transactions table *)

Inductive Status := pending | confirmed | failed.
Inductive TokenType := ERC20 | ERC721 | ERC1155.

Record TransactionRecord := mkTx {
  id : option Z;
  tx_hash : string;
  from_address : string;
  to_address : string;
  network : string;
  status : Status;
  gas_used : option string;
  gas_price : option string;
  block_number : option Z;
  created_at : option Z;
  updated_at : option Z;
  meta_tx_hash : option string;
  relayer_address : option string;
  token_address : option string;
  token_type : option TokenType;
  amount : option string;
  token_id : option string
}.

(** ** Requests and the unsigned chain transaction *)

Record MetaTransactionRequest := mkReq {
  req_from : string;
  req_to : string;
  req_value : string;
  req_gas : string;
  req_nonce : string;
  req_data : string;
  req_signature : string;
  req_network : string;
  req_tokenAddress : option string;
  req_tokenType : option TokenType;
  req_amount : option string;
  req_tokenId : option string
}.

Record TransactionRequest := mkTxReq {
  t_to : string;
  t_value : string;
  t_data : string;
  t_gasLimit : Z;
  t_gasPrice : Z;
  t_nonce : Z
}.

Record CallRequest := mkCall {
  c_to : string;
  c_from : string;
  c_value : string;
  c_data : string
}.

(** ** Trace of calls to external collaborators, oldest first *)

Inductive Event :=
| EvCall (net : string) (c : CallRequest)
| EvGetFeeData (net : string)
| EvEstimateGas (net : string) (c : CallRequest)
| EvGetTransactionCount (net : string) (address : string)
| EvRedis (command : string) (key : string)
| EvSignTransaction (net : string) (t : TransactionRequest)
| EvBroadcast (net : string) (signedTx : string)
| EvWait (net : string) (txHash : string)
| EvSendBundle (t : TransactionRequest)
| EvSaveTransaction (r : TransactionRecord)
| EvTrackPending (txHash : string)
| EvMetricTransaction (net : string) (outcome : string)
| EvMetricGasUsed (net : string) (gasUsed : string).

(** ** The world a request runs in

    The clock is what [Date.now()] reads; it does not advance during a run,
    so times to live are recorded with their keys but no key expires.

    [redis_up] is [false] when the client rejects every command with an
    error: the client is closed, or the server answers each command with an
    error, as it does while it loads its data set or to a client that has
    not authenticated. A connection that is lost while the client stays open is another
    state: the client of [redis.ts] keeps its offline queue, so a command
    issued then does not settle before the connection is back, and no run of
    the model describes such a call. *)

Record World := mkWorld {
  clock : Z;                                  (* Date.now(), milliseconds *)
  redis_up : bool;                            (* false: every command throws *)
  redis : gmap string RedisEntry;
  db_up : bool;                               (* false: every query throws *)
  transactions : list TransactionRecord;      (* rows, oldest first *)
  next_id : Z;                                (* SERIAL counter *)
  trace : list Event
}.

Definition set_redis (f : gmap string RedisEntry -> gmap string RedisEntry) (w : World) : World :=
  mkWorld (clock w) (redis_up w) (f (redis w)) (db_up w) (transactions w) (next_id w) (trace w).

Definition set_transactions (rows : list TransactionRecord) (n : Z) (w : World) : World :=
  mkWorld (clock w) (redis_up w) (redis w) (db_up w) rows n (trace w).

Definition add_event (e : Event) (w : World) : World :=
  mkWorld (clock w) (redis_up w) (redis w) (db_up w) (transactions w) (next_id w) (trace w ++ [e]).

(** ** The monad of asynchronous methods *)

Definition M (A : Type) : Type := World -> result A * World.

Definition ret {A} (a : A) : M A := fun w => (Ok a, w).
Definition throw {A} (msg : string) : M A := fun w => (Throw msg, w).
Definition bind {A B} (m : M A) (k : A -> M B) : M B :=
  fun w => match m w with
           | (Ok a, w') => k a w'
           | (Throw e, w') => (Throw e, w')
           end.
(** [try { m } catch (error) { h error.message }] *)
Definition try_catch {A} (m : M A) (h : string -> M A) : M A :=
  fun w => match m w with
           | (Ok a, w') => (Ok a, w')
           | (Throw e, w') => h e w'
           end.
Definition get_world : M World := fun w => (Ok w, w).
Definition modify (f : World -> World) : M unit := fun w => (Ok tt, f w).
Definition log_event (e : Event) : M unit := modify (add_event e).
Definition lift {A} (r : result A) : M A := fun w => (r, w).
Definition Date_now : M Z := fun w => (Ok (clock w), w).
(** A call to an external collaborator: it is recorded in the trace and its
    answer may depend on the calls made before it. *)
Definition ask {A} (e : Event) (answer : list Event -> result A) : M A :=
  fun w => (answer (trace w), add_event e w).

Declare Scope m_scope.
Delimit Scope m_scope with M.
Notation "'do' x <- m ; k" := (bind m (fun x => k))
  (at level 10, x name, m at level 100, k at level 200) : m_scope.
Notation "'run' m ; k" := (bind m (fun _ => k))
  (at level 10, m at level 100, k at level 200) : m_scope.
Open Scope m_scope.

(** ** The Redis client *)

Module Client.

Definition int64_max : Z := 9223372036854775807.
Definition int64_min : Z := -9223372036854775808.

(** Redis reads a string as an integer only in its canonical decimal form
    and inside the signed 64-bit range. *)
Definition int_of_value (s : string) : option Z :=
  match NilEmpty.int_of_string s with
  | Some d =>
      let z := Z.of_int d in
      if (String.eqb (JS.toString z) s && (int64_min <=? z) && (z <=? int64_max))%bool
      then Some z else None
  | None => None
  end.

(** Every command is recorded in the trace when it is issued and throws
    when the client rejects it. *)
Definition command (name key : string) : M unit :=
  run log_event (EvRedis name key) ;
  fun w => if redis_up w then (Ok tt, w) else (Throw "Redis connection error", w).

Definition wrongtype {A} : M A :=
  throw "WRONGTYPE Operation against a key holding the wrong kind of value".

(** GET *)
Definition get (key : string) : M (option string) :=
  run command "GET" key ;
  do w <- get_world ;
  match redis w !! key with
  | None => ret None
  | Some (mkEntry (RString s) _) => ret (Some s)
  | Some (mkEntry (RZSet _) _) => wrongtype
  end.

(** SET: stores the string and clears any time to live. *)
Definition set (key value : string) : M unit :=
  run command "SET" key ;
  modify (set_redis (insert key (mkEntry (RString value) None))).

(** SETEX *)
Definition setEx (key : string) (ttl : Z) (value : string) : M unit :=
  run command "SETEX" key ;
  modify (set_redis (insert key (mkEntry (RString value) (Some ttl)))).

(** EXPIRE: returns whether the key exists. *)
Definition expire (key : string) (ttl : Z) : M bool :=
  run command "EXPIRE" key ;
  do w <- get_world ;
  match redis w !! key with
  | None => ret false
  | Some e => run modify (set_redis (insert key (mkEntry (rvalue e) (Some ttl)))) ; ret true
  end.

(** INCR: a missing key counts as 0; the time to live is kept. *)
Definition incr (key : string) : M Z :=
  run command "INCR" key ;
  do w <- get_world ;
  match redis w !! key with
  | None =>
      run modify (set_redis (insert key (mkEntry (RString (JS.toString 1)) None))) ; ret 1
  | Some (mkEntry (RString s) ttl) =>
      match int_of_value s with
      | None => throw "ERR value is not an integer or out of range"
      | Some z =>
          if z <? int64_max
          then run modify (set_redis (insert key (mkEntry (RString (JS.toString (z + 1))) ttl))) ;
               ret (z + 1)
          else throw "ERR increment or decrement would overflow"
      end
  | Some (mkEntry (RZSet _) _) => wrongtype
  end.

(** ZREMRANGEBYSCORE key min max: drops the members whose score lies in
    [min, max]; an emptied sorted set is removed from the keyspace. *)
Definition zRemRangeByScore (key : string) (lo hi : Z) : M Z :=
  run command "ZREMRANGEBYSCORE" key ;
  do w <- get_world ;
  match redis w !! key with
  | None => ret 0
  | Some (mkEntry (RZSet ms) ttl) =>
      let keep := List.filter (fun m => negb ((lo <=? fst m) && (fst m <=? hi))%bool) ms in
      let removed := Z.of_nat (length ms) - Z.of_nat (length keep) in
      match keep with
      | [] => run modify (set_redis (delete key)) ; ret removed
      | _ => run modify (set_redis (insert key (mkEntry (RZSet keep) ttl))) ; ret removed
      end
  | Some (mkEntry (RString _) _) => wrongtype
  end.

(** ZCARD *)
Definition zCard (key : string) : M Z :=
  run command "ZCARD" key ;
  do w <- get_world ;
  match redis w !! key with
  | None => ret 0
  | Some (mkEntry (RZSet ms) _) => ret (Z.of_nat (length ms))
  | Some (mkEntry (RString _) _) => wrongtype
  end.

End Client.

(** ** Configuration ([config/config.ts]) *)

Record NetworkConfig := mkNet {
  chainId : Z;
  rpcUrl : string;
  forwarder : string;            (* contracts.forwarder *)
  withdrawManager : string       (* contracts.withdrawManager *)
}.

Record Config := mkConfig {
  redis_keyPrefix : string;
  networks : gmap string NetworkConfig;
  relayer_maxGasPrice : string;
  relayer_maxGasLimit : string;
  (** [Math.floor(config.relayer.gasMultiplier * 100)]: the floating-point
      product is taken as given; [None] when it is NaN or infinite, on which
      [BigInt] throws a RangeError. *)
  relayer_gasMultiplierPercent : option Z;
  relayer_maxValuePerTransaction : string;
  flashbots_enabled : bool
}.

(** ** External collaborators *)

(** An [ethers.Provider]: each answer may depend on the calls made so far. *)
Record Provider := mkProvider {
  p_call : list Event -> CallRequest -> result string;
  p_getFeeData : list Event -> result (option Z);          (* feeData.gasPrice *)
  p_estimateGas : list Event -> CallRequest -> result Z;
  p_getTransactionCount : list Event -> string -> result Z; (* block tag 'pending' *)
  p_broadcastTransaction : list Event -> string -> result string;  (* tx.hash *)
  p_wait : list Event -> string -> result (option Z)       (* receipt?.gasUsed *)
}.

(** A [SignerInterface]. *)
Record Signer := mkSigner {
  s_getAddress : result string;
  s_signTransaction : TransactionRequest -> result string
}.

(** EIP-712 domain and the typed value handed to [ethers.verifyTypedData]. *)
Record TypedDataDomain := mkDomain {
  d_name : string;
  d_version : string;
  d_chainId : Z;
  d_verifyingContract : string
}.

Record ForwardRequestValue := mkFwd {
  f_from : string;
  f_to : string;
  f_value : string;
  f_gas : string;
  f_nonce : string;
  f_data : string
}.

(** Library functions the backend calls but does not define. *)
Record Externals := mkExt {
  (** [BigInt(string)]; [None] when it throws a SyntaxError. *)
  BigInt : string -> option Z;
  (** [parseInt(string, 10)]. *)
  parseInt : string -> JS.number;
  (** [ethers.isAddress]. *)
  isAddress : string -> bool;
  (** [ethers.verifyTypedData(domain, types, value, signature)]: the
      recovered address; [None] when it throws (malformed signature or value). *)
  verifyTypedData :
    TypedDataDomain -> list (string * list (string * string)) ->
    ForwardRequestValue -> string -> option string;
  (** [JSON.stringify({ request, timestamp })]. *)
  stringify_pending : MetaTransactionRequest -> Z -> string;
  (** [FlashbotsService.sendBundle(transactions, signer)]: the [txHash] of
      its result, or the error it throws. *)
  sendBundle : list Event -> list TransactionRequest -> Signer -> result string
}.

(** ** DatabaseService ([services/database.ts]) *)

(** [Partial<TransactionRecord>] restricted to the columns a caller sets;
    the serial [id] and the two timestamps are left to the database. For a
    nullable column the inner [None] is SQL NULL. *)
Record TransactionUpdates := mkUpd {
  u_tx_hash : option string;
  u_from_address : option string;
  u_to_address : option string;
  u_network : option string;
  u_status : option Status;
  u_gas_used : option (option string);
  u_gas_price : option (option string);
  u_block_number : option (option Z);
  u_meta_tx_hash : option (option string);
  u_relayer_address : option (option string);
  u_token_address : option (option string);
  u_token_type : option (option TokenType);
  u_amount : option (option string);
  u_token_id : option (option string)
}.

Module DatabaseService.

Definition connect_client : M unit :=
  fun w => if db_up w then (Ok tt, w) else (Throw "Database connection error", w).

Definition has_hash (h : string) (rows : list TransactionRecord) : bool :=
  existsb (fun r => String.eqb (tx_hash r) h) rows.

(** INSERT INTO transactions (...) VALUES (...) RETURNING *.
    [tx_hash] is UNIQUE; [id] is SERIAL (consumed even by a failed
    insert); [created_at] and [updated_at] default to the current time. *)
Definition saveTransaction (t : TransactionRecord) : M TransactionRecord :=
  run log_event (EvSaveTransaction t) ;
  run connect_client ;
  do w <- get_world ;
  if has_hash (tx_hash t) (transactions w)
  then run modify (set_transactions (transactions w) (next_id w + 1)) ;
       throw "duplicate key value violates unique constraint"
  else
    let row := mkTx (Some (next_id w)) (tx_hash t) (from_address t) (to_address t)
                    (network t) (status t) (gas_used t) (gas_price t) (block_number t)
                    (Some (clock w)) (Some (clock w)) (meta_tx_hash t)
                    (relayer_address t) (token_address t) (token_type t)
                    (amount t) (token_id t) in
    run modify (set_transactions (transactions w ++ [row]) (next_id w + 1)) ;
    ret row.

(** [Object.keys(updates).length = 0]: the SET clause is empty and the
    query is a syntax error. *)
Definition no_keys (u : TransactionUpdates) : bool :=
  match u with
  | mkUpd None None None None None None None None None None None None None None => true
  | _ => false
  end.

Definition pick {A} (new : option A) (old : A) : A :=
  match new with Some a => a | None => old end.

(** The row after [SET key = value, ...]; the BEFORE UPDATE trigger
    stamps [updated_at]. *)
Definition apply_updates (now : Z) (u : TransactionUpdates) (r : TransactionRecord)
  : TransactionRecord :=
  mkTx (id r)
       (pick (u_tx_hash u) (tx_hash r))
       (pick (u_from_address u) (from_address r))
       (pick (u_to_address u) (to_address r))
       (pick (u_network u) (network r))
       (pick (u_status u) (status r))
       (pick (u_gas_used u) (gas_used r))
       (pick (u_gas_price u) (gas_price r))
       (pick (u_block_number u) (block_number r))
       (created_at r)
       (Some now)
       (pick (u_meta_tx_hash u) (meta_tx_hash r))
       (pick (u_relayer_address u) (relayer_address r))
       (pick (u_token_address u) (token_address r))
       (pick (u_token_type u) (token_type r))
       (pick (u_amount u) (amount r))
       (pick (u_token_id u) (token_id r)).

(** UPDATE transactions SET ... WHERE tx_hash = $1 *)
Fixpoint update_rows (now : Z) (txHash : string) (u : TransactionUpdates)
    (rows : list TransactionRecord) : list TransactionRecord * option TransactionRecord :=
  match rows with
  | [] => ([], None)
  | r :: rest =>
      if String.eqb (tx_hash r) txHash
      then let r' := apply_updates now u r in (r' :: rest, Some r')
      else let (rest', hit) := update_rows now txHash u rest in (r :: rest', hit)
  end.

(** A new [tx_hash] that another row already holds breaks UNIQUE. *)
Definition hash_collides (txHash : string) (u : TransactionUpdates)
    (rows : list TransactionRecord) : bool :=
  match u_tx_hash u with
  | Some h => (negb (String.eqb h txHash) && has_hash txHash rows && has_hash h rows)%bool
  | None => false
  end.

Definition updateTransaction (txHash : string) (updates : TransactionUpdates)
  : M (option TransactionRecord) :=
  run connect_client ;
  do w <- get_world ;
  if no_keys updates then throw "syntax error at or near WHERE"
  else if hash_collides txHash updates (transactions w)
  then throw "duplicate key value violates unique constraint"
  else
    let (rows', hit) := update_rows (clock w) txHash updates (transactions w) in
    run modify (set_transactions rows' (next_id w)) ;
    ret hit.

(** SELECT * FROM transactions WHERE tx_hash = $1 *)
Definition getTransaction (txHash : string) : M (option TransactionRecord) :=
  run connect_client ;
  do w <- get_world ;
  ret (List.find (fun r => String.eqb (tx_hash r) txHash) (transactions w)).

End DatabaseService.

(** ** RedisService ([services/redis.ts]) *)

Module RedisService.

Definition getKey (config : Config) (key : string) : string :=
  redis_keyPrefix config ++ key.

Definition nonceKey (config : Config) (address network : string) : string :=
  getKey config (JS.concat ["nonce:"; network; ":"; JS.toLowerCase address]).

(** The catch blocks of this service log and rethrow, so they are the
    identity on results. *)
Definition getNextNonce (config : Config) (address network : string) : M Z :=
  let key := nonceKey config address network in
  do nonce <- Client.incr key ;
  run Client.expire key 3600 ;
  ret (nonce - 1).

Definition setNonce (config : Config) (address network : string) (nonce : Z) : M unit :=
  let key := nonceKey config address network in
  run Client.set key (JS.toString nonce) ;
  run Client.expire key 3600 ;
  ret tt.

Definition getCurrentNonce (ext : Externals) (config : Config) (address network : string)
  : M (option JS.number) :=
  let key := nonceKey config address network in
  do nonce <- Client.get key ;
  ret (match nonce with
       | Some s => if JS.truthy s then Some (parseInt ext s) else None
       | None => None
       end).

Definition trackPendingTransaction (ext : Externals) (config : Config) (txHash : string)
    (request : MetaTransactionRequest) (timestamp : Z) : M unit :=
  let key := getKey config ("pending_tx:" ++ txHash) in
  run log_event (EvTrackPending txHash) ;
  Client.setEx key 3600 (stringify_pending ext request timestamp).

End RedisService.

(** ** PolicyEngine ([services/policy.ts]) *)

Module PolicyEngine.

Record PolicyResult := mkResult {
  allowed : bool;
  reason : option string
}.

Record AllowlistRule := mkAllow { addresses : list string }.

Record QuotaRule := mkQuota {
  maxTransactionsPerHour : Z;
  maxTransactionsPerDay : Z;
  maxValuePerTransaction : string;
  maxValuePerHour : string;
  maxValuePerDay : string
}.

Record GasLimitRule := mkGas {
  maxGasLimit : string;
  maxGasPrice : string
}.

Record TokenLimitRule := mkToken {
  allowedTokens : list string;
  maxAmountPerTransaction : gmap string string;
  maxAmountPerHour : gmap string string;
  maxAmountPerDay : gmap string string
}.

(** The rule maps, keyed by target, and the initialisation flag. *)
Record t := mkEngine {
  allowlistRules : gmap string AllowlistRule;
  quotaRules : gmap string QuotaRule;
  gasLimitRules : gmap string GasLimitRule;
  tokenLimitRules : gmap string TokenLimitRule;
  isInitialized : bool
}.

Definition allow : PolicyResult := mkResult true None.
Definition deny (why : string) : PolicyResult := mkResult false (Some why).

(** [BigInt(s)] inside an asynchronous method. *)
Definition bigint (ext : Externals) (s : string) : M Z :=
  match BigInt ext s with
  | Some z => ret z
  | None => throw "SyntaxError: Cannot convert to a BigInt"
  end.

Definition listed (addrs : list string) (who : string) : bool :=
  JS.some (fun addr => String.eqb (JS.toLowerCase addr) (JS.toLowerCase who)) addrs.

Definition checkAllowlist (pe : t) (request : MetaTransactionRequest) : M PolicyResult :=
  let global_ok :=
    match allowlistRules pe !! "*" with
    | Some globalRule => listed (addresses globalRule) (req_from request)
    | None => true
    end in
  if negb global_ok then ret (deny "Address not in global allowlist")
  else
    let network_ok :=
      match allowlistRules pe !! req_network request with
      | Some networkRule => listed (addresses networkRule) (req_from request)
      | None => true
      end in
    if negb network_ok
    then ret (deny (JS.concat ["Address not in "; req_network request; " allowlist"]))
    else ret allow.

Definition oneHour : Z := 60 * 60 * 1000.
Definition oneDay : Z := 24 * oneHour.

(** Reads the sorted set [tx_count:<network>:<address>] through the raw
    client (no key prefix); any Redis error is logged and counted as 0. *)
Definition getTransactionCount (address network : string) (timeWindowMs : Z) : M Z :=
  let key := JS.concat ["tx_count:"; network; ":"; address] in
  do now <- Date_now ;
  let windowStart := now - timeWindowMs in
  try_catch
    (run Client.zRemRangeByScore key 0 windowStart ;
     Client.zCard key)
    (fun _ => ret 0).

(** Placeholder in the source: always 0. *)
Definition getTransactionValue (address network : string) (timeWindowMs : Z) : M Z :=
  ret 0.

(** Placeholder in the source: always 0. *)
Definition getTokenTransactionAmount (address tokenAddress network : string)
    (timeWindowMs : Z) : M Z :=
  ret 0.

Definition checkAddressQuota (ext : Externals) (address : string)
    (request : MetaTransactionRequest) (rule : QuotaRule) : M PolicyResult :=
  do hourlyTxCount <- getTransactionCount address (req_network request) oneHour ;
  if hourlyTxCount >=? maxTransactionsPerHour rule
  then ret (deny "Hourly transaction limit exceeded")
  else
  do dailyTxCount <- getTransactionCount address (req_network request) oneDay ;
  if dailyTxCount >=? maxTransactionsPerDay rule
  then ret (deny "Daily transaction limit exceeded")
  else
  do txValue <- bigint ext (req_value request) ;
  do maxTxValue <- bigint ext (maxValuePerTransaction rule) ;
  if txValue >? maxTxValue
  then ret (deny "Transaction value exceeds limit")
  else
  do hourlyValue <- getTransactionValue address (req_network request) oneHour ;
  do maxHourlyValue <- bigint ext (maxValuePerHour rule) ;
  if hourlyValue + txValue >? maxHourlyValue
  then ret (deny "Hourly value limit would be exceeded")
  else
  do dailyValue <- getTransactionValue address (req_network request) oneDay ;
  do maxDailyValue <- bigint ext (maxValuePerDay rule) ;
  if dailyValue + txValue >? maxDailyValue
  then ret (deny "Daily value limit would be exceeded")
  else ret allow.

(** Runs [check] when a rule is present and passes its rejection on. *)
Definition with_rule {R} (rule : option R) (check : R -> M PolicyResult)
    (next : M PolicyResult) : M PolicyResult :=
  match rule with
  | Some r =>
      do res <- check r ;
      if negb (allowed res) then ret res else next
  | None => next
  end.

Definition checkQuotas (ext : Externals) (pe : t) (request : MetaTransactionRequest)
  : M PolicyResult :=
  let address := JS.toLowerCase (req_from request) in
  with_rule (quotaRules pe !! "*") (checkAddressQuota ext address request)
    (with_rule (quotaRules pe !! address) (checkAddressQuota ext address request)
       (ret allow)).

Definition checkGasLimit (ext : Externals) (request : MetaTransactionRequest)
    (why : string) (rule : GasLimitRule) : M PolicyResult :=
  do gasLimit <- bigint ext (req_gas request) ;
  do maxGasLimit <- bigint ext (maxGasLimit rule) ;
  if gasLimit >? maxGasLimit then ret (deny why) else ret allow.

Definition checkGasLimits (ext : Externals) (pe : t) (request : MetaTransactionRequest)
  : M PolicyResult :=
  with_rule (gasLimitRules pe !! "*")
    (checkGasLimit ext request "Gas limit exceeds maximum allowed")
    (with_rule (gasLimitRules pe !! req_network request)
       (checkGasLimit ext request
          (JS.concat ["Gas limit exceeds "; req_network request; " maximum"]))
       (ret allow)).

(** [limit && total > BigInt(limit)] for an optional per-token limit. *)
Definition over_limit (ext : Externals) (limit : option string) (total : Z) : M bool :=
  if JS.truthy_opt limit
  then do l <- bigint ext (default EmptyString limit) ; ret (total >? l)
  else ret false.

Definition checkTokenAmountLimits (ext : Externals) (address tokenAddress amount network : string)
    (rule : TokenLimitRule) : M PolicyResult :=
  do txAmount <- bigint ext amount ;
  do over_tx <- over_limit ext (maxAmountPerTransaction rule !! tokenAddress) txAmount ;
  if over_tx then ret (deny "Token amount exceeds per-transaction limit")
  else
  do hourlyAmount <- getTokenTransactionAmount address tokenAddress network oneHour ;
  do over_hour <- over_limit ext (maxAmountPerHour rule !! tokenAddress) (hourlyAmount + txAmount) ;
  if over_hour then ret (deny "Token hourly limit would be exceeded")
  else
  do dailyAmount <- getTokenTransactionAmount address tokenAddress network oneDay ;
  do over_day <- over_limit ext (maxAmountPerDay rule !! tokenAddress) (dailyAmount + txAmount) ;
  if over_day then ret (deny "Token daily limit would be exceeded")
  else ret allow.

Definition checkTokenLimits (ext : Externals) (pe : t) (request : MetaTransactionRequest)
  : M PolicyResult :=
  match req_tokenAddress request, req_amount request with
  | Some tokenAddress0, Some amount =>
      if negb (JS.truthy tokenAddress0 && JS.truthy amount) then ret allow
      else
        let tokenAddress := JS.toLowerCase tokenAddress0 in
        match tokenLimitRules pe !! "*" with
        | Some globalRule =>
            let isAllowed :=
              JS.some (fun addr => String.eqb (JS.toLowerCase addr) tokenAddress)
                      (allowedTokens globalRule) in
            if ((0 <? Z.of_nat (length (allowedTokens globalRule))) && negb isAllowed)%bool
            then ret (deny "Token not in allowed list")
            else
              do tokenLimitResult <-
                checkTokenAmountLimits ext (req_from request) tokenAddress amount
                  (req_network request) globalRule ;
              if negb (allowed tokenLimitResult) then ret tokenLimitResult else ret allow
        | None => ret allow
        end
  | _, _ => ret allow
  end.

Definition checkPolicies (ext : Externals) (pe : t) (request : MetaTransactionRequest)
  : M PolicyResult :=
  if negb (isInitialized pe) then throw "PolicyEngine not initialized"
  else
    try_catch
      (do allowlistResult <- checkAllowlist pe request ;
       if negb (allowed allowlistResult) then ret allowlistResult
       else
       do quotaResult <- checkQuotas ext pe request ;
       if negb (allowed quotaResult) then ret quotaResult
       else
       do gasLimitResult <- checkGasLimits ext pe request ;
       if negb (allowed gasLimitResult) then ret gasLimitResult
       else
       do tokenLimitResult <- checkTokenLimits ext pe request ;
       if negb (allowed tokenLimitResult) then ret tokenLimitResult
       else ret allow)
      (fun _ => ret (deny "Policy check failed")).

End PolicyEngine.

(** ** RelayerService ([services/relayer.ts]) *)

Module RelayerService.

Record RelayResult := mkRelay {
  success : bool;
  txHash : option string;
  error : option string;
  gasUsed : option string;
  gasPrice : option string
}.

Record t := mkService {
  providers : gmap string Provider;
  signers : gmap string Signer;
  policyEngine : PolicyEngine.t;
  isInitialized : bool
}.

Definition bigint := PolicyEngine.bigint.

Definition validateRequest (ext : Externals) (config : Config) (svc : t)
    (request : MetaTransactionRequest) : M unit :=
  if negb (isAddress ext (req_from request)) then throw "Invalid from address"
  else if negb (isAddress ext (req_to request)) then throw "Invalid to address"
  else if negb (JS.truthy (req_signature request)) then throw "Signature is required"
  else if negb (bool_decide (is_Some (providers svc !! req_network request)))
  then throw ("Unsupported network: " ++ req_network request)
  else
    do gasLimit <- bigint ext (req_gas request) ;
    do maxGasLimit <- bigint ext (relayer_maxGasLimit config) ;
    if gasLimit >? maxGasLimit
    then throw (JS.concat ["Gas limit too high: "; JS.toString gasLimit; " > ";
                           JS.toString maxGasLimit])
    else
      do value <- bigint ext (req_value request) ;
      do maxValue <- bigint ext (relayer_maxValuePerTransaction config) ;
      if value >? maxValue
      then throw (JS.concat ["Transaction value too high: "; JS.toString value; " > ";
                             JS.toString maxValue])
      else ret tt.

(** The EIP-712 type table of the forwarder's request. *)
Definition types : list (string * list (string * string)) :=
  [("ForwardRequest",
    [("from", "address"); ("to", "address"); ("value", "uint256");
     ("gas", "uint256"); ("nonce", "uint256"); ("data", "bytes")])].

Definition verifyMetaTransactionSignature (ext : Externals) (config : Config)
    (request : MetaTransactionRequest) : M unit :=
  try_catch
    (match networks config !! req_network request with
     | None => throw ("Network configuration not found: " ++ req_network request)
     | Some networkConfig =>
         let domain := mkDomain "MinimalForwarder" "0.0.1"
                                (chainId networkConfig) (forwarder networkConfig) in
         let value := mkFwd (req_from request) (req_to request) (req_value request)
                            (req_gas request) (req_nonce request) (req_data request) in
         match verifyTypedData ext domain types value (req_signature request) with
         | None => throw "invalid signature"
         | Some recoveredAddress =>
             if negb (String.eqb (JS.toLowerCase recoveredAddress)
                                 (JS.toLowerCase (req_from request)))
             then throw "Invalid signature"
             else ret tt
         end
     end)
    (fun _ => throw "Invalid meta-transaction signature").

Definition call_of (request : MetaTransactionRequest) : CallRequest :=
  mkCall (req_to request) (req_from request) (req_value request) (req_data request).

Definition simulateTransaction (request : MetaTransactionRequest) (provider : Provider)
  : M unit :=
  try_catch
    (run ask (EvCall (req_network request) (call_of request))
             (fun tr => p_call provider tr (call_of request)) ;
     ret tt)
    (fun _ => throw "Transaction simulation failed - transaction would revert").

(** BigInt division truncates towards zero. *)
Definition getOptimalGasPrice (ext : Externals) (config : Config) (provider : Provider)
    (network : string) : M Z :=
  try_catch
    (do feeData <- ask (EvGetFeeData network) (p_getFeeData provider) ;
     let gasPrice0 := match feeData with
                      | Some g => if g =? 0 then 0 else g
                      | None => 0
                      end in
     do percent <- match relayer_gasMultiplierPercent config with
                   | Some pc => ret pc
                   | None => throw "RangeError: not an integer"
                   end ;
     let gasPrice1 := Z.quot (gasPrice0 * percent) 100 in
     do maxGasPrice <- bigint ext (relayer_maxGasPrice config) ;
     if gasPrice1 >? maxGasPrice then ret maxGasPrice else ret gasPrice1)
    (fun _ => ret 20000000000).

Definition estimateGas (ext : Externals) (request : MetaTransactionRequest)
    (provider : Provider) : M Z :=
  try_catch
    (do gasEstimate <- ask (EvEstimateGas (req_network request) (call_of request))
                           (fun tr => p_estimateGas provider tr (call_of request)) ;
     ret (Z.quot (gasEstimate * 120) 100))
    (fun _ => bigint ext (req_gas request)).

Definition getNextNonce (ext : Externals) (config : Config) (signer : Signer)
    (provider : Provider) (network : string) : M Z :=
  do address <- lift (s_getAddress signer) ;
  do cachedNonce <- RedisService.getCurrentNonce ext config address network ;
  match cachedNonce with
  | Some _ => RedisService.getNextNonce config address network
  | None =>
      do onChainNonce <- ask (EvGetTransactionCount network address)
                             (fun tr => p_getTransactionCount provider tr address) ;
      run RedisService.setNonce config address network onChainNonce ;
      ret onChainNonce
  end.

(** Sign and send: through Flashbots on Ethereum mainnet when enabled,
    otherwise sign, broadcast and wait for the receipt. *)
Definition submit (ext : Externals) (config : Config) (request : MetaTransactionRequest)
    (provider : Provider) (signer : Signer) (transaction : TransactionRequest)
  : M (string * option string) :=
  if (flashbots_enabled config && String.eqb (req_network request) "ethereum")%bool
  then
    do h <- ask (EvSendBundle transaction)
                (fun tr => sendBundle ext tr [transaction] signer) ;
    ret (h, None)
  else
    do signedTx <- ask (EvSignTransaction (req_network request) transaction)
                       (fun _ => s_signTransaction signer transaction) ;
    do h <- ask (EvBroadcast (req_network request) signedTx)
                (fun tr => p_broadcastTransaction provider tr signedTx) ;
    do receiptGas <- ask (EvWait (req_network request) h)
                         (fun tr => p_wait provider tr h) ;
    ret (h, option_map JS.toString receiptGas).

Definition failure (errorMessage : string) : RelayResult :=
  mkRelay false None (Some errorMessage) None None.

(** Metrics are recorded in the trace; logging and latency are not
    modelled. *)
Definition relayTransaction (ext : Externals) (config : Config) (svc : t)
    (request : MetaTransactionRequest) : M RelayResult :=
  if negb (isInitialized svc) then throw "RelayerService not initialized"
  else
    try_catch
      (run validateRequest ext config svc request ;
       do policyResult <- PolicyEngine.checkPolicies ext (policyEngine svc) request ;
       if negb (PolicyEngine.allowed policyResult)
       then throw ("Policy violation: " ++
                   default "undefined" (PolicyEngine.reason policyResult))
       else
       match providers svc !! req_network request, signers svc !! req_network request with
       | Some provider, Some signer =>
           run verifyMetaTransactionSignature ext config request ;
           run simulateTransaction request provider ;
           do gasPrice <- getOptimalGasPrice ext config provider (req_network request) ;
           do gasLimit <- estimateGas ext request provider ;
           do nonce <- getNextNonce ext config signer provider (req_network request) ;
           let transaction := mkTxReq (req_to request) (req_value request)
                                      (req_data request) gasLimit gasPrice nonce in
           do sent <- submit ext config request provider signer transaction ;
           let txHash := fst sent in
           let gasUsed := snd sent in
           do relayerAddress <- lift (s_getAddress signer) ;
           let transactionRecord :=
             mkTx None txHash (req_from request) (req_to request) (req_network request)
                  pending None (Some (JS.toString gasPrice)) None None None None
                  (Some relayerAddress) (req_tokenAddress request)
                  (req_tokenType request) (req_amount request) (req_tokenId request) in
           run DatabaseService.saveTransaction transactionRecord ;
           do now <- Date_now ;
           run RedisService.trackPendingTransaction ext config txHash request now ;
           run log_event (EvMetricTransaction (req_network request) "success") ;
           run log_event (EvMetricGasUsed (req_network request) (default "0" gasUsed)) ;
           ret (mkRelay true (Some txHash) None gasUsed (Some (JS.toString gasPrice)))
       | _, _ => throw ("Unsupported network: " ++ req_network request)
       end)
      (fun errorMessage =>
         run log_event (EvMetricTransaction (req_network request) "failed") ;
         ret (failure errorMessage)).

End RelayerService.

(** ** A concrete deployment, used to run the model on examples *)

Module Demo.

Definition decimal (s : string) : option Z :=
  if String.eqb s "-" then None
  else option_map Z.of_int (NilEmpty.int_of_string s).

Definition is_hex (c : ascii) : bool :=
  let n := nat_of_ascii c in
  ((Nat.leb 48 n && Nat.leb n 57) || (Nat.leb 97 n && Nat.leb n 102)
   || (Nat.leb 65 n && Nat.leb n 70))%bool.

Definition address_shape (s : string) : bool :=
  match s with
  | String "0" (String "x" rest) =>
      (Nat.eqb (String.length rest) 40 && forallb is_hex (list_ascii_of_string rest))%bool
  | _ => false
  end.

(** Stand-in for ECDSA recovery: a signature of the form [signed-by:<address>]
    recovers to that address, anything else is malformed. *)
Definition recover (d : TypedDataDomain) (tys : list (string * list (string * string)))
    (v : ForwardRequestValue) (sig : string) : option string :=
  if String.prefix "signed-by:" sig
  then Some (String.substring 10 (String.length sig - 10) sig)
  else None.

Definition ext : Externals :=
  mkExt decimal
        (fun s => match decimal s with Some z => JS.Num z | None => JS.NaN end)
        address_shape
        recover
        (fun request timestamp =>
           JS.concat ["{from:"; req_from request; ",timestamp:"; JS.toString timestamp; "}"])
        (fun _ _ _ => Throw "FlashbotsService not initialized").

Definition alice : string := "0xf39Fd6e51aad88F6F4ce6aB8827279cffFb92266".
Definition bob : string := "0x70997970C51812dc3A010C7d01b50e0d17dc79C8".
Definition relayer : string := "0x3C44CdDdB6a900fa2b585dd299e03d12FA4293BC".
Definition forwarderAddress : string := "0x5FbDB2315678afecb367f032d93F642f64180aa3".

Definition config : Config :=
  mkConfig "relayer:"
           {[ "localhost" := mkNet 31337 "http://localhost:8545" forwarderAddress EmptyString ]}
           "100000000000" "500000" (Some 120) "1000000000000000000" false.

(** A chain that suggests [fee], estimates [estimate] gas and reports
    [count] pending transactions for every address. *)
Definition provider (fee estimate count : Z) : Provider :=
  mkProvider (fun _ _ => Ok "0x")
             (fun _ => Ok (Some fee))
             (fun _ _ => Ok estimate)
             (fun _ _ => Ok count)
             (fun _ signedTx => Ok (JS.concat ["hash("; signedTx; ")"]))
             (fun _ _ => Ok (Some 21000)).

Definition signer : Signer :=
  mkSigner (Ok relayer)
           (fun t => Ok (JS.concat ["tx("; t_to t; ","; t_value t; ","; t_data t; ",";
                                    JS.toString (t_gasLimit t); ",";
                                    JS.toString (t_gasPrice t); ",";
                                    JS.toString (t_nonce t); ")"])).

Definition engine (quota : gmap string PolicyEngine.QuotaRule)
    (gas : gmap string PolicyEngine.GasLimitRule) : PolicyEngine.t :=
  PolicyEngine.mkEngine
    {[ "*" := PolicyEngine.mkAllow [alice; bob] ]} quota gas ∅ true.

Definition service (p : Provider) (quota : gmap string PolicyEngine.QuotaRule)
    (gas : gmap string PolicyEngine.GasLimitRule) : RelayerService.t :=
  RelayerService.mkService {[ "localhost" := p ]} {[ "localhost" := signer ]}
                           (engine quota gas) true.

(** A request from [alice] to [bob] carrying [value], with declared [gas]. *)
Definition request (value gas userNonce : string) : MetaTransactionRequest :=
  mkReq alice bob value gas userNonce "0x" ("signed-by:" ++ alice) "localhost"
        None None None None.

Definition world (r : gmap string RedisEntry) (rows : list TransactionRecord) : World :=
  mkWorld 1700000000000 true r true rows 1 [].

(** The same world with Redis, respectively the database, unreachable. *)
Definition redis_down (w : World) : World :=
  mkWorld (clock w) false (redis w) (db_up w) (transactions w) (next_id w) (trace w).


(** A stored row with the given hash and status, and the update that sets
    only the status. *)
Definition row (h : string) (s : Status) : TransactionRecord :=
  mkTx (Some 1) h alice bob "localhost" s None (Some "1200000000") None
       (Some 1699999000000) (Some 1699999000000) None (Some relayer)
       None None None None.

Definition set_status (s : Status) : TransactionUpdates :=
  mkUpd None None None None (Some s) None None None None None None None None None.

(** The nonce cursor of the relayer on localhost, holding [n]. *)
Definition cursor (n : Z) : gmap string RedisEntry :=
  {[ RedisService.nonceKey config relayer "localhost" :=
       mkEntry (RString (JS.toString n)) (Some 3600) ]}.

End Demo.

(** * Vocabulary of the statements *)

(** ** Events of interest *)

Definition is_save (e : Event) : bool :=
  match e with EvSaveTransaction _ => true | _ => false end.

Definition is_submission (e : Event) : bool :=
  match e with EvBroadcast _ _ | EvSendBundle _ => true | _ => false end.

(** ** Relations between the worlds before and after a computation *)

Definition preserves (R : relation World) {A} (m : M A) : Prop :=
  forall w, R w (snd (m w)).

(** [before_store w w']: from [w] to [w'] the transactions table is untouched
    and no save was attempted. *)
Definition before_store (w w' : World) : Prop :=
  transactions w' = transactions w /\
  exists evs, trace w' = (trace w ++ evs)%list /\ Forall (fun e => is_save e = false) evs.

(** [submitted w w']: as [before_store], and the transaction was handed to
    the chain client (or to the bundle relay) on the way. *)
Definition submitted (w w' : World) : Prop :=
  transactions w' = transactions w /\
  exists evs, trace w' = (trace w ++ evs)%list /\
              Forall (fun e => is_save e = false) evs /\
              Exists (fun e => is_submission e = true) evs.

(** The record was inserted: [w0] is the world when the save was issued. *)
Definition stored (w w1 : World) : Prop :=
  exists w0 rec row tail,
    submitted w w0 /\ status rec = pending /\
    transactions w1 = (transactions w0 ++ [row])%list /\
    trace w1 = (trace w0 ++ EvSaveTransaction rec :: tail)%list /\
    Forall (fun e => is_save e = false) tail.

(** The save was issued in [w0] and threw. *)
Definition store_failed (w w1 : World) : Prop :=
  exists w0 rec,
    submitted w w0 /\ status rec = pending /\
    transactions w1 = transactions w0 /\
    trace w1 = (trace w0 ++ [EvSaveTransaction rec])%list.

(** What the body of [relayTransaction] (inside its try block) can do. *)
Definition inner (w : World) (out : result RelayerService.RelayResult * World) : Prop :=
  match out with
  | (Throw _, w1) => before_store w w1 \/ store_failed w w1 \/ stored w w1
  | (Ok _, w1) => stored w w1
  end.

(** ** Statements of the relay pipeline *)


(** ** Statements of the policy engine *)

Inductive RuleKind := KAllowlist | KQuota | KGasLimit | KTokenLimit.

(** The limits a rule can hold, each with its kind and the reason the
    engine gives when it is violated. *)
Inductive Limit :=
| GlobalAllowlist | NetworkAllowlist
| MaxTransactionsPerHour | MaxTransactionsPerDay
| MaxValuePerTransaction | MaxValuePerHour | MaxValuePerDay
| GlobalMaxGasLimit | NetworkMaxGasLimit
| AllowedTokens | MaxAmountPerTransaction | MaxAmountPerHour | MaxAmountPerDay.

Definition limit_kind (l : Limit) : RuleKind :=
  match l with
  | GlobalAllowlist | NetworkAllowlist => KAllowlist
  | MaxTransactionsPerHour | MaxTransactionsPerDay
  | MaxValuePerTransaction | MaxValuePerHour | MaxValuePerDay => KQuota
  | GlobalMaxGasLimit | NetworkMaxGasLimit => KGasLimit
  | AllowedTokens | MaxAmountPerTransaction | MaxAmountPerHour | MaxAmountPerDay =>
      KTokenLimit
  end.

Definition limit_reason (net : string) (l : Limit) : string :=
  match l with
  | GlobalAllowlist => "Address not in global allowlist"
  | NetworkAllowlist => JS.concat ["Address not in "; net; " allowlist"]
  | MaxTransactionsPerHour => "Hourly transaction limit exceeded"
  | MaxTransactionsPerDay => "Daily transaction limit exceeded"
  | MaxValuePerTransaction => "Transaction value exceeds limit"
  | MaxValuePerHour => "Hourly value limit would be exceeded"
  | MaxValuePerDay => "Daily value limit would be exceeded"
  | GlobalMaxGasLimit => "Gas limit exceeds maximum allowed"
  | NetworkMaxGasLimit => JS.concat ["Gas limit exceeds "; net; " maximum"]
  | AllowedTokens => "Token not in allowed list"
  | MaxAmountPerTransaction => "Token amount exceeds per-transaction limit"
  | MaxAmountPerHour => "Token hourly limit would be exceeded"
  | MaxAmountPerDay => "Token daily limit would be exceeded"
  end.

(** A reason that names a limit of kind [k]. *)
Definition names_limit_of (k : RuleKind) (net : string) (why : option string) : Prop :=
  exists l, limit_kind l = k /\ why = Some (limit_reason net l).

(** The evaluation the specification describes: run the checks in the given
    order and stop at the first one that rejects. *)
Fixpoint first_rejection (checks : list (RuleKind * M PolicyEngine.PolicyResult))
  : M (option RuleKind * PolicyEngine.PolicyResult) :=
  match checks with
  | [] => ret (None, PolicyEngine.allow)
  | (k, check) :: rest =>
      do res <- check ;
      if negb (PolicyEngine.allowed res) then ret (Some k, res)
      else first_rejection rest
  end.

(** Allowlist, then quota, then gas limit, then token limit. *)
Definition rule_order (ext : Externals) (pe : PolicyEngine.t)
    (request : MetaTransactionRequest) : list (RuleKind * M PolicyEngine.PolicyResult) :=
  [ (KAllowlist, PolicyEngine.checkAllowlist pe request);
    (KQuota, PolicyEngine.checkQuotas ext pe request);
    (KGasLimit, PolicyEngine.checkGasLimits ext pe request);
    (KTokenLimit, PolicyEngine.checkTokenLimits ext pe request) ].

(** Every rejection that [m] returns carries a reason in [S]. *)
Definition rejects_with (S : option string -> Prop) (m : M PolicyEngine.PolicyResult) : Prop :=
  forall w res w', m w = (Ok res, w') -> PolicyEngine.allowed res = false ->
                   S (PolicyEngine.reason res).

(** ** Statements of the counter cache *)

(** [counters_not_advanced w w']: every sorted set of [w'] was a sorted set
    of [w] with at least as many members. *)
Definition counters_not_advanced (w w' : World) : Prop :=
  forall key ms' ttl',
    redis w' !! key = Some (mkEntry (RZSet ms') ttl') ->
    exists ms ttl, redis w !! key = Some (mkEntry (RZSet ms) ttl) /\
                   (length ms' <= length ms)%nat.

(** * Further operations of the services *)

(** ** More Redis commands *)

Module ClientExt.

(** DEL: the number of keys removed. *)
Definition del (key : string) : M Z :=
  run Client.command "DEL" key ;
  do w <- get_world ;
  match redis w !! key with
  | None => ret 0
  | Some _ => run modify (set_redis (delete key)) ; ret 1
  end.

(** EXISTS: 1 when the key is there, 0 otherwise. *)
Definition exists_ (key : string) : M Z :=
  run Client.command "EXISTS" key ;
  do w <- get_world ;
  match redis w !! key with
  | None => ret 0
  | Some _ => ret 1
  end.

(** EXPIRE with any time to live: a time that is not positive removes the
    key at once. *)
Definition expire (key : string) (ttl : Z) : M bool :=
  run Client.command "EXPIRE" key ;
  do w <- get_world ;
  match redis w !! key with
  | None => ret false
  | Some e =>
      if ttl <=? 0
      then run modify (set_redis (delete key)) ; ret true
      else run modify (set_redis (insert key (mkEntry (rvalue e) (Some ttl)))) ; ret true
  end.

(** SETEX with any time to live: a time that is not positive is an error. *)
Definition setEx (key : string) (ttl : Z) (value : string) : M unit :=
  run Client.command "SETEX" key ;
  if ttl <=? 0 then throw "ERR invalid expire time in 'setex' command"
  else modify (set_redis (insert key (mkEntry (RString value) (Some ttl)))).

Definition has_member (member : string) (ms : list (Z * string)) : bool :=
  existsb (fun m => String.eqb (snd m) member) ms.

Definition without_member (member : string) (ms : list (Z * string)) : list (Z * string) :=
  List.filter (fun m => negb (String.eqb (snd m) member)) ms.

(** ZADD key score member: a member already in the set only gets the new
    score; the answer is the number of members added. *)
Definition zAdd (key : string) (score : Z) (member : string) : M Z :=
  run Client.command "ZADD" key ;
  do w <- get_world ;
  match redis w !! key with
  | None =>
      run modify (set_redis (insert key (mkEntry (RZSet [(score, member)]) None))) ;
      ret 1
  | Some (mkEntry (RZSet ms) ttl) =>
      run modify (set_redis (insert key
            (mkEntry (RZSet (without_member member ms ++ [(score, member)])) ttl))) ;
      ret (if has_member member ms then 0 else 1)
  | Some (mkEntry (RString _) _) => Client.wrongtype
  end.

(** The order of a sorted set: by score, then by member. *)
Definition member_le (a b : Z * string) : bool :=
  ((fst a <? fst b) || ((fst a =? fst b) && String.leb (snd a) (snd b)))%bool.

Fixpoint insert_member (a : Z * string) (l : list (Z * string)) : list (Z * string) :=
  match l with
  | [] => [a]
  | b :: rest => if member_le a b then a :: b :: rest else b :: insert_member a rest
  end.

Definition sort_members (l : list (Z * string)) : list (Z * string) :=
  fold_right insert_member [] l.

(** ZRANGE key min max BYSCORE: the members whose score lies in
    [min, max], in the order of the set. *)
Definition zRangeByScore (key : string) (lo hi : Z) : M (list string) :=
  run Client.command "ZRANGE" key ;
  do w <- get_world ;
  match redis w !! key with
  | None => ret []
  | Some (mkEntry (RZSet ms) _) =>
      ret (map snd (sort_members
             (List.filter (fun m => ((lo <=? fst m) && (fst m <=? hi))%bool) ms)))
  | Some (mkEntry (RString _) _) => Client.wrongtype
  end.

End ClientExt.

(** ** RedisService: rate limiting ([services/redis.ts]) *)

Module RateLimiting.

Record RateLimitResult := mkLimit {
  allowed : bool;
  remaining : Z;
  resetTime : JS.number
}.

(** [Math.ceil(a / b)] for a positive [b]. *)
Definition ceil_div (a b : Z) : Z := - ((- a) / b).

(** [checkRateLimit(identifier, windowMs, maxRequests)]. [random] is the
    text of [Math.random()] and [parseInt1] is [parseInt] with one argument,
    applied to a member of the sorted set. *)
Definition checkRateLimit (parseInt1 : string -> JS.number) (config : Config)
    (random : string) (identifier : string) (windowMs maxRequests : Z)
  : M RateLimitResult :=
  let key := RedisService.getKey config ("rate_limit:" ++ identifier) in
  do now <- Date_now ;
  let windowStart := now - windowMs in
  try_catch
    (run Client.zRemRangeByScore key 0 windowStart ;
     do currentCount <- Client.zCard key ;
     if currentCount >=? maxRequests
     then
       do oldestRequest <- ClientExt.zRangeByScore key 0 0 ;
       let resetTime :=
         match oldestRequest with
         | oldest :: _ =>
             match parseInt1 oldest with
             | JS.Num t => JS.Num (t + windowMs)
             | JS.NaN => JS.NaN
             end
         | [] => JS.Num (now + windowMs)
         end in
       ret (mkLimit false 0 resetTime)
     else
       run ClientExt.zAdd key now (JS.concat [JS.toString now; "-"; random]) ;
       run ClientExt.expire key (ceil_div windowMs 1000) ;
       ret (mkLimit true (maxRequests - currentCount - 1) (JS.Num (now + windowMs))))
    (fun _ => ret (mkLimit true (maxRequests - 1) (JS.Num (now + windowMs)))).

End RateLimiting.

(** ** RedisService: pending transactions and the cache ([services/redis.ts]) *)

Module TransactionTracking.

Section WithJson.
(** [JSON.parse]: the parsed value, or [None] when it throws. *)
Context {J : Type} (JSON_parse : string -> option J).

Definition pendingKey (config : Config) (txHash : string) : string :=
  RedisService.getKey config ("pending_tx:" ++ txHash).

Definition getPendingTransaction (config : Config) (txHash : string) : M (option J) :=
  let key := pendingKey config txHash in
  try_catch
    (do data <- Client.get key ;
     match data with
     | Some s =>
         if JS.truthy s
         then match JSON_parse s with
              | Some j => ret (Some j)
              | None => throw "SyntaxError: Unexpected token in JSON"
              end
         else ret None
     | None => ret None
     end)
    (fun _ => ret None).

Definition removePendingTransaction (config : Config) (txHash : string) : M unit :=
  let key := pendingKey config txHash in
  try_catch (run ClientExt.del key ; ret tt) (fun _ => ret tt).

End WithJson.
End TransactionTracking.

Module Cache.

(** A value handed to [set]: a string, or any other value with its
    [JSON.stringify] text. *)
Inductive value := Text (s : string) | Other (json : string).

(** What [get] returns: a parsed JSON value or the raw string. *)
Inductive hit (J : Type) := Parsed (j : J) | Raw (s : string).
Arguments Parsed {J} j.
Arguments Raw {J} s.

Definition serialize (v : value) : string :=
  match v with Text s => s | Other json => json end.

(** [set(key, value, ttlSeconds?)]: a missing or zero time to live stores
    the value without expiry. *)
Definition set (config : Config) (key : string) (v : value) (ttlSeconds : option Z)
  : M unit :=
  let redisKey := RedisService.getKey config key in
  let serializedValue := serialize v in
  match ttlSeconds with
  | Some ttl =>
      if ttl =? 0 then Client.set redisKey serializedValue
      else ClientExt.setEx redisKey ttl serializedValue
  | None => Client.set redisKey serializedValue
  end.

Section WithJson.
Context {J : Type} (JSON_parse : string -> option J).

Definition get (config : Config) (key : string) : M (option (hit J)) :=
  let redisKey := RedisService.getKey config key in
  try_catch
    (do v <- Client.get redisKey ;
     match v with
     | Some s =>
         if JS.truthy s
         then match JSON_parse s with
              | Some j => ret (Some (Parsed j))
              | None => ret (Some (Raw s))
              end
         else ret None
     | None => ret None
     end)
    (fun _ => ret None).

End WithJson.

Definition del (config : Config) (key : string) : M unit :=
  let redisKey := RedisService.getKey config key in
  try_catch (run ClientExt.del redisKey ; ret tt) (fun _ => ret tt).

Definition exists_ (config : Config) (key : string) : M bool :=
  let redisKey := RedisService.getKey config key in
  try_catch (do n <- ClientExt.exists_ redisKey ; ret (n =? 1)) (fun _ => ret false).

End Cache.

(** ** DatabaseService: listing transactions ([services/database.ts]) *)

Module TransactionQueries.

(** Ascending order of a timestamp column; NULL sorts after every value. *)
Definition time_le (a b : option Z) : bool :=
  match a, b with
  | _, None => true
  | None, Some _ => false
  | Some x, Some y => x <=? y
  end.

Section Sorting.
Context {T : Type} (le : T -> T -> bool).

Fixpoint insert_by (x : T) (l : list T) : list T :=
  match l with
  | [] => [x]
  | y :: rest => if le x y then x :: y :: rest else y :: insert_by x rest
  end.

(** ORDER BY: rows with equal keys keep the order of the table (the
    database may return them in any order). *)
Definition sort_by (l : list T) : list T := fold_right insert_by [] l.
End Sorting.

Definition oldest_first (a b : TransactionRecord) : bool :=
  time_le (created_at a) (created_at b).

Definition newest_first (a b : TransactionRecord) : bool :=
  time_le (created_at b) (created_at a).

Definition is_pending (r : TransactionRecord) : bool :=
  match status r with pending => true | _ => false end.

Definition involves (address : string) (r : TransactionRecord) : bool :=
  (String.eqb (from_address r) address || String.eqb (to_address r) address)%bool.

(** SELECT * FROM transactions WHERE status = 'pending' ORDER BY created_at ASC *)
Definition getPendingTransactions : M (list TransactionRecord) :=
  run DatabaseService.connect_client ;
  do w <- get_world ;
  ret (sort_by oldest_first (List.filter is_pending (transactions w))).

(** SELECT * FROM transactions WHERE from_address = $1 OR to_address = $1
    ORDER BY created_at DESC LIMIT $2; a negative limit is an error. *)
Definition getTransactionsByAddress (address : string) (limit : Z)
  : M (list TransactionRecord) :=
  run DatabaseService.connect_client ;
  do w <- get_world ;
  if limit <? 0 then throw "LIMIT must not be negative"
  else ret (firstn (Z.to_nat limit)
              (sort_by newest_first (List.filter (involves address) (transactions w)))).

End TransactionQueries.

(** ** RelayerService: queries ([services/relayer.ts]) *)

Module RelayerQueries.

Definition getTransactionStatus (txHash : string) : M (option TransactionRecord) :=
  try_catch (DatabaseService.getTransaction txHash) (fun _ => ret None).

(** The store's default limit of 100 applies. *)
Definition getTransactionsByAddress (address : string) : M (list TransactionRecord) :=
  try_catch (TransactionQueries.getTransactionsByAddress address 100) (fun _ => ret []).

End RelayerQueries.

(** ** Policy rules: the table and its loading ([services/database.ts],
    [services/policy.ts]) *)

Module PolicyRules.

Inductive RuleType := allowlist | quota | gas_limit | token_limit.

Definition type_name (k : RuleType) : string :=
  match k with
  | allowlist => "allowlist"
  | quota => "quota"
  | gas_limit => "gas_limit"
  | token_limit => "token_limit"
  end.

Definition RuleType_eqb (a b : RuleType) : bool :=
  match a, b with
  | allowlist, allowlist | quota, quota
  | gas_limit, gas_limit | token_limit, token_limit => true
  | _, _ => false
  end.

Record PolicyRule := mkRule {
  id : option Z;
  rule_type : RuleType;
  target : string;
  value : string;                 (* JSON text of the rule parameters *)
  enabled : bool;
  created_at : option Z;
  updated_at : option Z
}.

(** The policy_rules table with the state of its connection and clock. *)
Record Table := mkTable {
  up : bool;
  now : Z;
  rows : list PolicyRule;
  next_id : Z
}.

Definition Q (A : Type) : Type := Table -> result A * Table.

(** INSERT INTO policy_rules (rule_type, target, value, enabled) ... RETURNING * *)
Definition savePolicyRule (rule : PolicyRule) : Q PolicyRule :=
  fun tbl =>
    if up tbl
    then let row := mkRule (Some (next_id tbl)) (rule_type rule) (target rule)
                           (value rule) (enabled rule)
                           (Some (now tbl)) (Some (now tbl)) in
         (Ok row, mkTable (up tbl) (now tbl) (rows tbl ++ [row]) (next_id tbl + 1))
    else (Throw "Database connection error", tbl).

Definition newest_first (a b : PolicyRule) : bool :=
  TransactionQueries.time_le (created_at b) (created_at a).

Definition of_type (ruleType : option string) (r : PolicyRule) : bool :=
  match ruleType with
  | Some s => if JS.truthy s then String.eqb (type_name (rule_type r)) s else true
  | None => true
  end.

(** SELECT * FROM policy_rules WHERE enabled = true [AND rule_type = $1]
    ORDER BY created_at DESC *)
Definition getPolicyRules (ruleType : option string) : Q (list PolicyRule) :=
  fun tbl =>
    if up tbl
    then (Ok (TransactionQueries.sort_by newest_first
                (List.filter (fun r => (enabled r && of_type ruleType r)%bool) (rows tbl))),
          tbl)
    else (Throw "Database connection error", tbl).

(** [Partial<PolicyRule>] restricted to the columns a caller sets. *)
Record RuleUpdates := mkRuleUpd {
  u_rule_type : option RuleType;
  u_target : option string;
  u_value : option string;
  u_enabled : option bool
}.

Definition no_keys (u : RuleUpdates) : bool :=
  match u with mkRuleUpd None None None None => true | _ => false end.

Definition apply_updates (t : Z) (u : RuleUpdates) (r : PolicyRule) : PolicyRule :=
  mkRule (id r)
         (DatabaseService.pick (u_rule_type u) (rule_type r))
         (DatabaseService.pick (u_target u) (target r))
         (DatabaseService.pick (u_value u) (value r))
         (DatabaseService.pick (u_enabled u) (enabled r))
         (created_at r) (Some t).

Definition has_id (i : Z) (r : PolicyRule) : bool :=
  match id r with Some j => i =? j | None => false end.

(** UPDATE policy_rules SET ... WHERE id = $1 RETURNING *: every row with
    that id is rewritten, the first one is returned. *)
Definition updatePolicyRule (i : Z) (updates : RuleUpdates) : Q (option PolicyRule) :=
  fun tbl =>
    if negb (up tbl) then (Throw "Database connection error", tbl)
    else if no_keys updates then (Throw "syntax error at or near WHERE", tbl)
    else
      let rows' := map (fun r => if has_id i r then apply_updates (now tbl) updates r else r)
                       (rows tbl) in
      (Ok (List.find (has_id i) rows'),
       mkTable (up tbl) (now tbl) rows' (next_id tbl)).

(** DELETE FROM policy_rules WHERE id = $1: whether a row was removed. *)
Definition deletePolicyRule (i : Z) : Q bool :=
  fun tbl =>
    if negb (up tbl) then (Throw "Database connection error", tbl)
    else
      let rows' := List.filter (fun r => negb (has_id i r)) (rows tbl) in
      (Ok (0 <? Z.of_nat (length (rows tbl)) - Z.of_nat (length rows')),
       mkTable (up tbl) (now tbl) rows' (next_id tbl)).

Section Loading.
(** [JSON.parse], and the unchecked views of a parsed value as the rule
    parameters of each kind. *)
Context {J : Type} (JSON_parse : string -> option J).
Context (as_allowlist : J -> PolicyEngine.AllowlistRule)
        (as_quota : J -> PolicyEngine.QuotaRule)
        (as_gas_limit : J -> PolicyEngine.GasLimitRule)
        (as_token_limit : J -> PolicyEngine.TokenLimitRule).

(** The four [clear()] calls. *)
Definition cleared (pe : PolicyEngine.t) : PolicyEngine.t :=
  PolicyEngine.mkEngine ∅ ∅ ∅ ∅ (PolicyEngine.isInitialized pe).

(** One turn of the loop: [Map.set(rule.target, value)] on the map of the
    rule's type. *)
Definition store_rule (j : J) (r : PolicyRule) (pe : PolicyEngine.t) : PolicyEngine.t :=
  match rule_type r with
  | allowlist =>
      PolicyEngine.mkEngine (<[target r := as_allowlist j]> (PolicyEngine.allowlistRules pe))
        (PolicyEngine.quotaRules pe) (PolicyEngine.gasLimitRules pe)
        (PolicyEngine.tokenLimitRules pe) (PolicyEngine.isInitialized pe)
  | quota =>
      PolicyEngine.mkEngine (PolicyEngine.allowlistRules pe)
        (<[target r := as_quota j]> (PolicyEngine.quotaRules pe))
        (PolicyEngine.gasLimitRules pe)
        (PolicyEngine.tokenLimitRules pe) (PolicyEngine.isInitialized pe)
  | gas_limit =>
      PolicyEngine.mkEngine (PolicyEngine.allowlistRules pe) (PolicyEngine.quotaRules pe)
        (<[target r := as_gas_limit j]> (PolicyEngine.gasLimitRules pe))
        (PolicyEngine.tokenLimitRules pe) (PolicyEngine.isInitialized pe)
  | token_limit =>
      PolicyEngine.mkEngine (PolicyEngine.allowlistRules pe) (PolicyEngine.quotaRules pe)
        (PolicyEngine.gasLimitRules pe)
        (<[target r := as_token_limit j]> (PolicyEngine.tokenLimitRules pe))
        (PolicyEngine.isInitialized pe)
  end.

(** The loop over the fetched rules; a value that does not parse throws and
    leaves the maps as they are at that point. *)
Fixpoint load_rules (rules : list PolicyRule) (pe : PolicyEngine.t)
  : result unit * PolicyEngine.t :=
  match rules with
  | [] => (Ok tt, pe)
  | r :: rest =>
      match JSON_parse (value r) with
      | Some j => load_rules rest (store_rule j r pe)
      | None => (Throw "SyntaxError: Unexpected token in JSON", pe)
      end
  end.

(** [loadPolicyRules()]: fetch the enabled rules, clear the maps, fill them. *)
Definition loadPolicyRules (tbl : Table) (pe : PolicyEngine.t)
  : result unit * PolicyEngine.t :=
  match getPolicyRules None tbl with
  | (Ok rules, _) => load_rules rules (cleared pe)
  | (Throw e, _) => (Throw e, pe)
  end.

Definition initialize (tbl : Table) (pe : PolicyEngine.t) : result unit * PolicyEngine.t :=
  match loadPolicyRules tbl pe with
  | (Ok _, pe') =>
      (Ok tt, PolicyEngine.mkEngine (PolicyEngine.allowlistRules pe')
                (PolicyEngine.quotaRules pe') (PolicyEngine.gasLimitRules pe')
                (PolicyEngine.tokenLimitRules pe') true)
  | (Throw e, pe') => (Throw e, pe')
  end.

(** [addPolicyRule], [updatePolicyRule], [deletePolicyRule] of the engine:
    the store operation, then a reload of all rules. *)
Definition addPolicyRule (rule : PolicyRule) (tbl : Table) (pe : PolicyEngine.t)
  : result unit * (Table * PolicyEngine.t) :=
  match savePolicyRule rule tbl with
  | (Ok _, tbl') => let (r, pe') := loadPolicyRules tbl' pe in (r, (tbl', pe'))
  | (Throw e, tbl') => (Throw e, (tbl', pe))
  end.

Definition engine_updatePolicyRule (i : Z) (updates : RuleUpdates) (tbl : Table)
    (pe : PolicyEngine.t) : result unit * (Table * PolicyEngine.t) :=
  match updatePolicyRule i updates tbl with
  | (Ok _, tbl') => let (r, pe') := loadPolicyRules tbl' pe in (r, (tbl', pe'))
  | (Throw e, tbl') => (Throw e, (tbl', pe))
  end.

Definition engine_deletePolicyRule (i : Z) (tbl : Table) (pe : PolicyEngine.t)
  : result unit * (Table * PolicyEngine.t) :=
  match deletePolicyRule i tbl with
  | (Ok _, tbl') => let (r, pe') := loadPolicyRules tbl' pe in (r, (tbl', pe'))
  | (Throw e, tbl') => (Throw e, (tbl', pe))
  end.

End Loading.
End PolicyRules.

(** ** Repeated calls *)

(** [k] calls of [m] one after the other, with their results in order. *)
Fixpoint repeat_m {A} (k : nat) (m : M A) : M (list A) :=
  match k with
  | O => ret []
  | S k' => do a <- m ; do rest <- repeat_m k' m ; ret (a :: rest)
  end.

(** One call of [f] per element of [xs], with their results in order. *)
Fixpoint for_each {X A} (f : X -> M A) (xs : list X) : M (list A) :=
  match xs with
  | [] => ret []
  | x :: rest => do a <- f x ; do others <- for_each f rest ; ret (a :: others)
  end.

(** ** Kinds of events *)

Definition is_redis (e : Event) : bool :=
  match e with EvRedis _ _ => true | _ => false end.

(** A call to the chain client or to the signer. *)
Definition is_chain_call (e : Event) : bool :=
  match e with
  | EvCall _ _ | EvGetFeeData _ | EvEstimateGas _ _ | EvGetTransactionCount _ _
  | EvSignTransaction _ _ | EvBroadcast _ _ | EvWait _ _ | EvSendBundle _ => true
  | _ => false
  end.

(** ** The window of a rate limit *)

(** The members of the sorted set at [key]: none when the key is absent,
    undefined when the key holds a string. *)
Definition window_of (w : World) (key : string) : option (list (Z * string)) :=
  match redis w !! key with
  | None => Some []
  | Some (mkEntry (RZSet ms) _) => Some ms
  | Some (mkEntry (RString _) _) => None
  end.

(** The members that [ZREMRANGEBYSCORE key 0 (now - windowMs)] keeps. *)
Definition live_members (now windowMs : Z) (ms : list (Z * string)) : list (Z * string) :=
  List.filter (fun m => negb ((0 <=? fst m) && (fst m <=? now - windowMs))%bool) ms.

(** ** Runs that stay away from the chain *)

(** [off_chain w w']: from [w] to [w'] neither the chain client nor the
    signer was called. *)
Definition off_chain (w w' : World) : Prop :=
  exists evs, trace w' = (trace w ++ evs)%list /\
              Forall (fun e => is_chain_call e = false) evs.

(** ** Runs that send nothing *)

(** Signing, handing a transaction to the chain or to the bundle relay,
    waiting for its receipt, or saving its record. *)
Definition is_sending (e : Event) : bool :=
  match e with
  | EvSignTransaction _ _ | EvBroadcast _ _ | EvWait _ _ | EvSendBundle _
  | EvSaveTransaction _ => true
  | _ => false
  end.

(** [nothing_sent w w']: from [w] to [w'] Redis stayed as reachable as it
    was, the transactions table is untouched and no transaction was signed,
    sent or saved. *)
Definition nothing_sent (w w' : World) : Prop :=
  redis_up w' = redis_up w /\
  transactions w' = transactions w /\
  exists evs, trace w' = (trace w ++ evs)%list /\
              Forall (fun e => is_sending e = false) evs.

(** A computation that ends in a throw without sending anything. *)
Definition gives_up {A} (w : World) (out : result A * World) : Prop :=
  exists e w1, out = (Throw e, w1) /\ nothing_sent w w1.

(** ** The rule an engine holds for a target *)

Section Held.
Context {J : Type}.
Context (as_allowlist : J -> PolicyEngine.AllowlistRule)
        (as_quota : J -> PolicyEngine.QuotaRule)
        (as_gas_limit : J -> PolicyEngine.GasLimitRule)
        (as_token_limit : J -> PolicyEngine.TokenLimitRule).

(** The parameters of a rule of any kind. *)
Inductive Params :=
  | PAllowlist (a : PolicyEngine.AllowlistRule)
  | PQuota (q : PolicyEngine.QuotaRule)
  | PGasLimit (g : PolicyEngine.GasLimitRule)
  | PTokenLimit (t : PolicyEngine.TokenLimitRule).

Definition as_params (k : PolicyRules.RuleType) (j : J) : Params :=
  match k with
  | PolicyRules.allowlist => PAllowlist (as_allowlist j)
  | PolicyRules.quota => PQuota (as_quota j)
  | PolicyRules.gas_limit => PGasLimit (as_gas_limit j)
  | PolicyRules.token_limit => PTokenLimit (as_token_limit j)
  end.

(** [Map.get(target)] on the engine's map of kind [k]. *)
Definition held (k : PolicyRules.RuleType) (pe : PolicyEngine.t) (tgt : string)
  : option Params :=
  match k with
  | PolicyRules.allowlist => PAllowlist <$> PolicyEngine.allowlistRules pe !! tgt
  | PolicyRules.quota => PQuota <$> PolicyEngine.quotaRules pe !! tgt
  | PolicyRules.gas_limit => PGasLimit <$> PolicyEngine.gasLimitRules pe !! tgt
  | PolicyRules.token_limit => PTokenLimit <$> PolicyEngine.tokenLimitRules pe !! tgt
  end.
End Held.

(** A rule of kind [k] for the target [tgt]. *)
Definition applies (k : PolicyRules.RuleType) (tgt : string) (r : PolicyRules.PolicyRule)
  : bool :=
  (PolicyRules.RuleType_eqb (PolicyRules.rule_type r) k &&
   String.eqb (PolicyRules.target r) tgt)%bool.

(** The last rule of a list that applies. *)
Fixpoint chosen (k : PolicyRules.RuleType) (tgt : string)
    (rules : list PolicyRules.PolicyRule) : option PolicyRules.PolicyRule :=
  match rules with
  | [] => None
  | r :: rest =>
      match chosen k tgt rest with
      | Some r' => Some r'
      | None => if applies k tgt r then Some r else None
      end
  end.

(** The widths of the columns of [policy_rules] and [transactions]; a text
    of at most [n] bytes has at most [n] characters. *)
Definition rule_fits (r : PolicyRules.PolicyRule) : bool :=
  Nat.leb (String.length (PolicyRules.target r)) 42.

Definition fits (width : nat) (s : option string) : bool :=
  match s with Some x => Nat.leb (String.length x) width | None => true end.

Definition record_fits (t : TransactionRecord) : bool :=
  (Nat.leb (String.length (tx_hash t)) 66 &&
   Nat.leb (String.length (from_address t)) 42 &&
   Nat.leb (String.length (to_address t)) 42 &&
   Nat.leb (String.length (network t)) 20 &&
   fits 20 (gas_used t) && fits 30 (gas_price t) &&
   fits 66 (meta_tx_hash t) && fits 42 (relayer_address t) &&
   fits 42 (token_address t) && fits 78 (amount t) && fits 78 (token_id t) &&
   match block_number t with
   | Some b => (-2147483648 <=? b) && (b <=? 2147483647)
   | None => true
   end)%bool.

(** The same for the columns an update sets. *)
Definition fits_set (width : nat) (s : option (option string)) : bool :=
  match s with Some x => fits width x | None => true end.

Definition updates_fit (u : TransactionUpdates) : bool :=
  (fits 66 (u_tx_hash u) && fits 42 (u_from_address u) && fits 42 (u_to_address u) &&
   fits 20 (u_network u) &&
   fits_set 20 (u_gas_used u) && fits_set 30 (u_gas_price u) &&
   fits_set 66 (u_meta_tx_hash u) && fits_set 42 (u_relayer_address u) &&
   fits_set 42 (u_token_address u) && fits_set 78 (u_amount u) &&
   fits_set 78 (u_token_id u) &&
   match u_block_number u with
   | Some (Some b) => (-2147483648 <=? b) && (b <=? 2147483647)
   | _ => true
   end)%bool.

(** [Number.MAX_SAFE_INTEGER], 2^53 - 1: up to it a JavaScript number holds
    every integer exactly, and [toString] prints its decimal digits. The
    replies of Redis and the numbers derived from them are JavaScript
    numbers in the source and integers in the model; the two agree on this
    range. *)
Definition MAX_SAFE_INTEGER : Z := 9007199254740991.

(** ** Requests spread over time *)

(** Time passes: the clock moves on by [d] milliseconds. Keys do not expire
    in the model. For the window of a rate limit this changes nothing: every
    allowed request sets the key's time to live to at least [windowMs], and
    by the time it runs out every member is older than the window and would
    be removed by the next request anyway. *)
Definition tick (d : Z) : M unit :=
  modify (fun w => mkWorld (clock w + d) (redis_up w) (redis w) (db_up w)
                           (transactions w) (next_id w) (trace w)).

(** Requests given by the delay since the previous one and the text of
    [Math.random()]: the time of each and the member it adds to the window. *)
Fixpoint stamps (t : Z) (steps : list (Z * string)) : list (Z * string) :=
  match steps with
  | [] => []
  | (d, random) :: rest =>
      (t + d, JS.concat [JS.toString (t + d); "-"; random]) :: stamps (t + d) rest
  end.

(** The times of the allowed requests of a log that are later than [t0],
    and their number. *)
Definition allowed_times (t0 : Z) (log : list (Z * bool)) : list Z :=
  map fst (List.filter (fun e => (snd e && (t0 <? fst e))%bool) log).

Definition allowed_since (t0 : Z) (log : list (Z * bool)) : nat :=
  length (allowed_times t0 log).

(** ** Handing a transaction over *)

(** The transaction is handed to the signer, or to the bundle relay. *)
Definition handed_over (t : TransactionRequest) (e : Event) : Prop :=
  (exists net, e = EvSignTransaction net t) \/ e = EvSendBundle t.

(** [hands_gas g w w']: every transaction handed over from [w] to [w']
    carries the gas limit [g]. *)
Definition hands_gas (g : Z) (w w' : World) : Prop :=
  exists evs, trace w' = (trace w ++ evs)%list /\
              Forall (fun e => forall t, handed_over t e -> t_gasLimit t = g) evs.

(** ** The first limit a request violates *)

(** What the evaluation of one limit finds: nothing ([None]), a violation,
    or a number that does not parse. *)
Inductive Finding := Violated (l : Limit) | Unreadable.

Definition judge (l : Limit) (test : option bool) : option Finding :=
  match test with
  | Some true => Some (Violated l)
  | Some false => None
  | None => Some Unreadable
  end.

(** [BigInt(amount) > BigInt(limit)] *)
Definition exceeds (ext : Externals) (amount limit : string) : option bool :=
  match BigInt ext amount, BigInt ext limit with
  | Some a, Some l => Some (a >? l)
  | _, _ => None
  end.

(** The same against the limit of one token, which may be missing or
    empty. *)
Definition exceeds_token (ext : Externals) (amount : string) (limit : option string)
  : option bool :=
  match BigInt ext amount with
  | None => None
  | Some a =>
      match limit with
      | Some l =>
          if JS.truthy l
          then match BigInt ext l with Some l' => Some (a >? l') | None => None end
          else Some false
      | None => Some false
      end
  end.

(** [who] is on a list of addresses, letter case apart. *)
Definition on_list (who : string) (addrs : list string) : bool :=
  existsb (fun a => String.eqb (JS.toLowerCase a) (JS.toLowerCase who)) addrs.

(** The counter of an address on a network, and the number of its members
    of the last hour: 0 when the counter cannot be read. *)
Definition counter_key (network address : string) : string :=
  JS.concat ["tx_count:"; network; ":"; address].

Definition recent_count (w : World) (key : string) : Z :=
  if redis_up w
  then match window_of w key with
       | Some ms => Z.of_nat (length (live_members (clock w) PolicyEngine.oneHour ms))
       | None => 0
       end
  else 0.

(** The counter holds nothing older than an hour. *)
Definition hour_trimmed (w : World) (key : string) : Prop :=
  redis_up w = true ->
  forall ms, window_of w key = Some ms ->
             live_members (clock w) PolicyEngine.oneHour ms = ms.

Section Findings.
Variables (ext : Externals) (pe : PolicyEngine.t) (request : MetaTransactionRequest).

Definition allowlist_findings : list (option Finding) :=
  [ match PolicyEngine.allowlistRules pe !! "*" with
    | Some rule =>
        judge GlobalAllowlist
          (Some (negb (on_list (req_from request) (PolicyEngine.addresses rule))))
    | None => None
    end;
    match PolicyEngine.allowlistRules pe !! req_network request with
    | Some rule =>
        judge NetworkAllowlist
          (Some (negb (on_list (req_from request) (PolicyEngine.addresses rule))))
    | None => None
    end ].

(** The limits of one quota rule, against the number of transactions
    counted for the sender. Both count limits meet the same number: the
    hourly read has trimmed the counter before the daily read. The value
    spent in a window is the placeholder 0. *)
Definition quota_findings (count : Z) (rule : option PolicyEngine.QuotaRule)
  : list (option Finding) :=
  match rule with
  | None => []
  | Some q =>
      [ judge MaxTransactionsPerHour
          (Some (count >=? PolicyEngine.maxTransactionsPerHour q));
        judge MaxTransactionsPerDay
          (Some (count >=? PolicyEngine.maxTransactionsPerDay q));
        judge MaxValuePerTransaction
          (exceeds ext (req_value request) (PolicyEngine.maxValuePerTransaction q));
        judge MaxValuePerHour
          (exceeds ext (req_value request) (PolicyEngine.maxValuePerHour q));
        judge MaxValuePerDay
          (exceeds ext (req_value request) (PolicyEngine.maxValuePerDay q)) ]
  end.

Definition gas_findings : list (option Finding) :=
  [ match PolicyEngine.gasLimitRules pe !! "*" with
    | Some rule =>
        judge GlobalMaxGasLimit (exceeds ext (req_gas request) (PolicyEngine.maxGasLimit rule))
    | None => None
    end;
    match PolicyEngine.gasLimitRules pe !! req_network request with
    | Some rule =>
        judge NetworkMaxGasLimit (exceeds ext (req_gas request) (PolicyEngine.maxGasLimit rule))
    | None => None
    end ].

(** The limits of the global token rule, for a request that names a token
    and an amount. *)
Definition token_findings : list (option Finding) :=
  match req_tokenAddress request, req_amount request,
        PolicyEngine.tokenLimitRules pe !! "*" with
  | Some token, Some amount, Some rule =>
      if (JS.truthy token && JS.truthy amount)%bool
      then
        let token' := JS.toLowerCase token in
        let allowed := PolicyEngine.allowedTokens rule in
        [ judge AllowedTokens
            (Some (negb (Nat.eqb (length allowed) 0) &&
                   negb (existsb (fun a => String.eqb (JS.toLowerCase a) token') allowed))%bool);
          judge MaxAmountPerTransaction
            (exceeds_token ext amount (PolicyEngine.maxAmountPerTransaction rule !! token'));
          judge MaxAmountPerHour
            (exceeds_token ext amount (PolicyEngine.maxAmountPerHour rule !! token'));
          judge MaxAmountPerDay
            (exceeds_token ext amount (PolicyEngine.maxAmountPerDay rule !! token')) ]
      else []
  | _, _, _ => []
  end.

(** Every limit that applies to the request, in the order allowlist, quota
    (the global rule, then the sender's), gas limit, token limit. *)
Definition findings (w : World) : list (option Finding) :=
  let address := JS.toLowerCase (req_from request) in
  let count := recent_count w (counter_key (req_network request) address) in
  (allowlist_findings
   ++ quota_findings count (PolicyEngine.quotaRules pe !! "*")
   ++ quota_findings count (PolicyEngine.quotaRules pe !! address)
   ++ gas_findings
   ++ token_findings)%list.
End Findings.

Fixpoint first_finding (l : list (option Finding)) : option Finding :=
  match l with
  | [] => None
  | Some f :: _ => Some f
  | None :: rest => first_finding rest
  end.

(** The result for a first finding: nothing found allows the request, a
    violated limit rejects it with the reason of that limit, a number that
    does not parse rejects it with [Policy check failed]. *)
Definition verdict (net : string) (f : option Finding) : PolicyEngine.PolicyResult :=
  match f with
  | None => PolicyEngine.allow
  | Some (Violated l) => PolicyEngine.deny (limit_reason net l)
  | Some Unreadable => PolicyEngine.deny "Policy check failed"
  end.

(** The same for one check, where a number that does not parse throws. *)
Definition outcome (net : string) (f : option Finding)
  : result PolicyEngine.PolicyResult :=
  match f with
  | None => Ok PolicyEngine.allow
  | Some (Violated l) => Ok (PolicyEngine.deny (limit_reason net l))
  | Some Unreadable => Throw "SyntaxError: Cannot convert to a BigInt"
  end.

(** * Lemmas *)

(** ** Decimal strings *)

Lemma int_of_value_toString z :
  Client.int64_min <= z <= Client.int64_max ->
  Client.int_of_value (JS.toString z) = Some z.
Proof.
  intros [Hlo Hhi]. unfold Client.int_of_value, JS.toString.
  rewrite NilEmpty.isi, DecimalZ.of_to, String.eqb_refl.
  apply Z.leb_le in Hlo, Hhi. rewrite Hlo, Hhi. reflexivity.
Qed.

Lemma toString_truthy z : JS.truthy (JS.toString z) = true.
Proof.
  destruct (JS.toString z) eqn:E; [|reflexivity].
  exfalso. unfold JS.toString in E.
  pose proof (NilEmpty.isi (Z.to_int z)) as H. rewrite E in H.
  simpl in H. injection H as H.
  pose proof (DecimalZ.of_to z) as H'. rewrite <- H in H'. simpl in H'. subst z.
  discriminate E.
Qed.

Section MonadLaws.
Context {A B : Type}.
Implicit Types (m : M A) (k : A -> M B).

Lemma bind_ok m k w a w' : m w = (Ok a, w') -> bind m k w = k a w'.
Proof. unfold bind. intros ->. reflexivity. Qed.

Lemma bind_throw m k w e w' : m w = (Throw e, w') -> bind m k w = (Throw e, w').
Proof. unfold bind. intros ->. reflexivity. Qed.

Lemma try_ok m (h : string -> M A) w a w' : m w = (Ok a, w') -> try_catch m h w = (Ok a, w').
Proof. unfold try_catch. intros ->. reflexivity. Qed.

Lemma try_throw m (h : string -> M A) w e w' :
  m w = (Throw e, w') -> try_catch m h w = h e w'.
Proof. unfold try_catch. intros ->. reflexivity. Qed.
End MonadLaws.

Section ClientLaws.
Variables (key : string) (w : World).
Hypothesis Hup : redis_up w = true.

Lemma command_up name :
  Client.command name key w = (Ok tt, add_event (EvRedis name key) w).
Proof. unfold Client.command, bind, log_event, modify. simpl. rewrite Hup. reflexivity. Qed.

Lemma get_absent :
  redis w !! key = None ->
  Client.get key w = (Ok None, add_event (EvRedis "GET" key) w).
Proof.
  intros H. unfold Client.get. erewrite bind_ok by apply command_up.
  unfold bind, get_world. simpl. rewrite H. reflexivity.
Qed.

Lemma get_string s ttl :
  redis w !! key = Some (mkEntry (RString s) ttl) ->
  Client.get key w = (Ok (Some s), add_event (EvRedis "GET" key) w).
Proof.
  intros H. unfold Client.get. erewrite bind_ok by apply command_up.
  unfold bind, get_world. simpl. rewrite H. reflexivity.
Qed.

Lemma set_up value :
  Client.set key value w =
  (Ok tt, set_redis (insert key (mkEntry (RString value) None)) (add_event (EvRedis "SET" key) w)).
Proof. unfold Client.set. erewrite bind_ok by apply command_up. reflexivity. Qed.

Lemma expire_present e ttl :
  redis w !! key = Some e ->
  Client.expire key ttl w =
  (Ok true, set_redis (insert key (mkEntry (rvalue e) (Some ttl)))
                      (add_event (EvRedis "EXPIRE" key) w)).
Proof.
  intros H. unfold Client.expire. erewrite bind_ok by apply command_up.
  unfold bind, get_world. simpl. rewrite H. reflexivity.
Qed.

Lemma incr_string s ttl z :
  redis w !! key = Some (mkEntry (RString s) ttl) ->
  Client.int_of_value s = Some z ->
  z < Client.int64_max ->
  Client.incr key w =
  (Ok (z + 1), set_redis (insert key (mkEntry (RString (JS.toString (z + 1))) ttl))
                         (add_event (EvRedis "INCR" key) w)).
Proof.
  intros H Hz Hlt. unfold Client.incr. erewrite bind_ok by apply command_up.
  unfold bind, get_world. simpl. rewrite H, Hz.
  apply Z.ltb_lt in Hlt. rewrite Hlt. reflexivity.
Qed.
End ClientLaws.

Ltac mred := cbv beta iota.
Ltac mstep tac := erewrite bind_ok; [ | tac ]; mred.


(** ** Relations between the worlds before and after a computation *)

Section Preserves.
Context (R : relation World) `{!PreOrder R}.

Lemma preserves_ret {A} (a : A) : preserves R (ret a).
Proof. intros w. reflexivity. Qed.

Lemma preserves_throw {A} msg : preserves R (@throw A msg).
Proof. intros w. reflexivity. Qed.

Lemma preserves_lift {A} (r : result A) : preserves R (lift r).
Proof. intros w. reflexivity. Qed.

Lemma preserves_get_world : preserves R get_world.
Proof. intros w. reflexivity. Qed.

Lemma preserves_Date_now : preserves R Date_now.
Proof. intros w. reflexivity. Qed.

Lemma preserves_bind {A B} (m : M A) (k : A -> M B) :
  preserves R m -> (forall a, preserves R (k a)) -> preserves R (bind m k).
Proof.
  intros Hm Hk w. unfold bind. specialize (Hm w).
  destruct (m w) as [[a|e] w1]; simpl in *; [|exact Hm].
  etransitivity; [exact Hm | apply Hk].
Qed.

Lemma preserves_try {A} (m : M A) (h : string -> M A) :
  preserves R m -> (forall e, preserves R (h e)) -> preserves R (try_catch m h).
Proof.
  intros Hm Hh w. unfold try_catch. specialize (Hm w).
  destruct (m w) as [[a|e] w1]; simpl in *; [exact Hm|].
  etransitivity; [exact Hm | apply Hh].
Qed.

Lemma preserves_modify (f : World -> World) :
  (forall w, R w (f w)) -> preserves R (modify f).
Proof. intros H w. apply H. Qed.

Lemma preserves_ask {A} e (answer : list Event -> result A) :
  (forall w, R w (add_event e w)) -> preserves R (ask e answer).
Proof. intros H w. apply H. Qed.

Lemma preserves_fun {A} (f : World -> result A * World) :
  (forall w, snd (f w) = w) -> preserves R f.
Proof. intros H w. rewrite H. reflexivity. Qed.
End Preserves.

(** Structural decomposition of a computation built from the monad's
    operations, conditionals and pattern matching. *)
Ltac preserves_step :=
  lazymatch goal with
  | |- preserves ?R (ret _) => exact (preserves_ret R _)
  | |- preserves ?R (throw _) => exact (preserves_throw R _)
  | |- preserves ?R (lift _) => exact (preserves_lift R _)
  | |- preserves ?R get_world => exact (preserves_get_world R)
  | |- preserves ?R Date_now => exact (preserves_Date_now R)
  | |- preserves ?R (bind _ _) => refine (preserves_bind R _ _ _ _); [ | intros ? ]
  | |- preserves ?R (try_catch _ _) => refine (preserves_try R _ _ _ _); [ | intros ? ]
  | |- preserves _ (if ?b then _ else _) => destruct b
  | |- preserves _ (match ?x with _ => _ end) => destruct x
  end.

(** *** No write to the store *)

#[local] Instance before_store_preorder : PreOrder before_store.
Proof.
  split.
  - intros w. split; [reflexivity|]. exists []. rewrite app_nil_r. auto.
  - intros w1 w2 w3 [Ht1 (e1 & He1 & Hf1)] [Ht2 (e2 & He2 & Hf2)]. split.
    + congruence.
    + exists (e1 ++ e2)%list. rewrite He2, He1, app_assoc. split; [reflexivity|].
      apply Forall_app; auto.
Qed.

Lemma before_store_event e w : is_save e = false -> before_store w (add_event e w).
Proof.
  intros H. split; [reflexivity|]. exists [e]. split; [reflexivity|].
  constructor; [exact H | constructor].
Qed.

Lemma before_store_redis f w : before_store w (set_redis f w).
Proof. split; [reflexivity|]. exists []. simpl. rewrite app_nil_r. auto. Qed.

Ltac quiet :=
  repeat first
    [ preserves_step
    | lazymatch goal with
      | |- preserves ?R (modify (set_redis _)) =>
          refine (preserves_modify R _ _); intros ?; apply before_store_redis
      | |- preserves ?R (log_event _) => unfold log_event
      | |- preserves ?R (modify (add_event _)) =>
          refine (preserves_modify R _ _); intros ?; apply before_store_event; reflexivity
      | |- preserves ?R (ask _ _) =>
          refine (preserves_ask R _ _ _); intros ?; apply before_store_event; reflexivity
      | |- preserves ?R (fun _ => _) =>
          refine (preserves_fun R _ _); intros ?;
          solve [ reflexivity | repeat case_match; reflexivity ]
      end ].

Create HintDb relayer.
#[local] Hint Unfold
  Client.command Client.get Client.set Client.setEx Client.expire Client.incr
  Client.zRemRangeByScore Client.zCard Client.wrongtype log_event
  RedisService.getNextNonce RedisService.setNonce RedisService.getCurrentNonce
  PolicyEngine.bigint PolicyEngine.checkAllowlist PolicyEngine.getTransactionCount
  PolicyEngine.getTransactionValue PolicyEngine.getTokenTransactionAmount
  PolicyEngine.checkAddressQuota PolicyEngine.with_rule PolicyEngine.checkQuotas
  PolicyEngine.checkGasLimit PolicyEngine.checkGasLimits PolicyEngine.over_limit
  PolicyEngine.checkTokenAmountLimits PolicyEngine.checkTokenLimits
  PolicyEngine.checkPolicies
  RelayerService.bigint RelayerService.validateRequest
  RelayerService.verifyMetaTransactionSignature RelayerService.simulateTransaction
  RelayerService.getOptimalGasPrice RelayerService.estimateGas
  RelayerService.getNextNonce : relayer.

Section Quiet.
Variables (ext : Externals) (config : Config).

Lemma quiet_validateRequest svc request :
  preserves before_store (RelayerService.validateRequest ext config svc request).
Proof. autounfold with relayer. quiet. Qed.

Lemma quiet_checkPolicies pe request :
  preserves before_store (PolicyEngine.checkPolicies ext pe request).
Proof. autounfold with relayer. quiet. Qed.

Lemma quiet_verify request :
  preserves before_store (RelayerService.verifyMetaTransactionSignature ext config request).
Proof. autounfold with relayer. quiet. Qed.

Lemma quiet_simulate request provider :
  preserves before_store (RelayerService.simulateTransaction request provider).
Proof. autounfold with relayer. quiet. Qed.

Lemma quiet_gasPrice provider network :
  preserves before_store (RelayerService.getOptimalGasPrice ext config provider network).
Proof. autounfold with relayer. quiet. Qed.

Lemma quiet_estimateGas request provider :
  preserves before_store (RelayerService.estimateGas ext request provider).
Proof. autounfold with relayer. quiet. Qed.

Lemma quiet_getNextNonce signer provider network :
  preserves before_store (RelayerService.getNextNonce ext config signer provider network).
Proof. autounfold with relayer. quiet. Qed.
End Quiet.

(** *** The shape of a pipeline run *)

Lemma submitted_before w w' : submitted w w' -> before_store w w'.
Proof. intros [Ht (evs & He & Hf & _)]. split; [exact Ht|]. eauto. Qed.

Lemma before_submitted w w1 w2 : before_store w w1 -> submitted w1 w2 -> submitted w w2.
Proof.
  intros [Ht1 (e1 & He1 & Hf1)] [Ht2 (e2 & He2 & Hf2 & Hx)]. split; [congruence|].
  exists (e1 ++ e2)%list. rewrite He2, He1, app_assoc. split; [reflexivity|]. split.
  - apply Forall_app; auto.
  - apply Exists_app. right. exact Hx.
Qed.

Lemma submitted_then w w1 w2 : submitted w w1 -> before_store w1 w2 -> submitted w w2.
Proof.
  intros [Ht1 (e1 & He1 & Hf1 & Hx)] [Ht2 (e2 & He2 & Hf2)]. split; [congruence|].
  exists (e1 ++ e2)%list. rewrite He2, He1, app_assoc. split; [reflexivity|]. split.
  - apply Forall_app; auto.
  - apply Exists_app. left. exact Hx.
Qed.

Lemma inner_throw w wc msg : before_store w wc -> inner w (throw msg wc).
Proof. intros H. left. exact H. Qed.

Lemma inner_bind {A} (m : M A) k w wc :
  before_store w wc ->
  preserves before_store m ->
  (forall a w1, before_store w w1 -> inner w (k a w1)) ->
  inner w (bind m k wc).
Proof.
  intros Hw Hm Hk. unfold bind. specialize (Hm wc).
  destruct (m wc) as [[a|e] w1]; simpl in Hm.
  - apply Hk. etransitivity; eassumption.
  - left. etransitivity; eassumption.
Qed.

Lemma saveTransaction_spec t w :
  match DatabaseService.saveTransaction t w with
  | (Ok row, w1) =>
      transactions w1 = (transactions w ++ [row])%list /\
      trace w1 = (trace w ++ [EvSaveTransaction t])%list
  | (Throw _, w1) =>
      transactions w1 = transactions w /\
      trace w1 = (trace w ++ [EvSaveTransaction t])%list
  end.
Proof.
  unfold DatabaseService.saveTransaction, DatabaseService.connect_client, bind, log_event,
    modify, get_world, ret, throw. simpl.
  destruct (db_up w); [|split; reflexivity].
  destruct (DatabaseService.has_hash _ _); split; reflexivity.
Qed.

Lemma quiet_getAddress signer : preserves before_store (lift (s_getAddress signer)).
Proof. quiet. Qed.

Lemma submit_spec ext config request provider signer transaction w :
  match RelayerService.submit ext config request provider signer transaction w with
  | (Ok _, w1) => submitted w w1
  | (Throw _, w1) => before_store w w1
  end.
Proof.
  unfold RelayerService.submit, bind, ask, ret.
  destruct (flashbots_enabled config && _)%bool; cbn [fst snd].
  - destruct (sendBundle _ _ _ _).
    + split; [reflexivity|]. eexists [_]. split; [reflexivity|].
      split; repeat constructor.
    + apply before_store_event. reflexivity.
  - destruct (s_signTransaction _ _) as [signed|];
      [|apply before_store_event; reflexivity].
    destruct (p_broadcastTransaction _ _ _) as [h|].
    + destruct (p_wait _ _ _).
      * split; [reflexivity|]. eexists [_; _; _]. cbn [trace add_event].
        rewrite <- !app_assoc.
        split; [reflexivity|]. split; [repeat constructor|].
        apply Exists_cons_tl, Exists_cons_hd. reflexivity.
      * split; [reflexivity|]. eexists [_; _; _]. cbn [trace add_event].
        rewrite <- !app_assoc.
        split; [reflexivity|]. repeat constructor.
    + split; [reflexivity|]. eexists [_; _]. cbn [trace add_event].
      rewrite <- !app_assoc.
      split; [reflexivity|]. repeat constructor.
Qed.

Section Pipeline.
Variables (ext : Externals) (config : Config) (svc : RelayerService.t).
Variable request : MetaTransactionRequest.

Lemma quiet_track txHash now :
  preserves before_store
    (RedisService.trackPendingTransaction ext config txHash request now).
Proof. unfold RedisService.trackPendingTransaction. autounfold with relayer. quiet. Qed.

(** The try block of [relayTransaction], as it stands in the definition. *)
Lemma relay_body_shape w :
  RelayerService.isInitialized svc = true ->
  exists body,
    RelayerService.relayTransaction ext config svc request =
    try_catch body
      (fun errorMessage =>
         run log_event (EvMetricTransaction (req_network request) "failed") ;
         ret (RelayerService.failure errorMessage)) /\
    inner w (body w).
Proof.
  intros Hinit. unfold RelayerService.relayTransaction. rewrite Hinit. simpl negb. cbv iota.
  eexists. split; [reflexivity|].
  assert (H0 : before_store w w) by reflexivity. revert H0. generalize w at 2 4 as wc.
  intros wc H0.
  apply inner_bind; [exact H0 | apply quiet_validateRequest |]. clear wc H0. intros _ wc H0.
  apply inner_bind; [exact H0 | apply quiet_checkPolicies |]. clear wc H0.
  intros policyResult wc H0.
  destruct (negb (PolicyEngine.allowed policyResult)); [apply inner_throw; exact H0|].
  destruct (RelayerService.providers svc !! req_network request) as [provider|];
    [|apply inner_throw; exact H0].
  destruct (RelayerService.signers svc !! req_network request) as [signer|];
    [|apply inner_throw; exact H0].
  apply inner_bind; [exact H0 | apply quiet_verify |]. clear wc H0. intros _ wc H0.
  apply inner_bind; [exact H0 | apply quiet_simulate |]. clear wc H0. intros _ wc H0.
  apply inner_bind; [exact H0 | apply quiet_gasPrice |]. clear wc H0. intros gasPrice wc H0.
  apply inner_bind; [exact H0 | apply quiet_estimateGas |]. clear wc H0. intros gasLimit wc H0.
  apply inner_bind; [exact H0 | apply quiet_getNextNonce |]. clear wc H0. intros nonce wc H0.
  cbv zeta. unfold bind at 1.
  match goal with |- context [RelayerService.submit ?a ?b ?c ?d ?e ?f wc] =>
    pose proof (submit_spec a b c d e f wc) as Hs;
    destruct (RelayerService.submit a b c d e f wc) as [[sent|err] w1]
  end; [|left; etransitivity; eassumption].
  pose proof (before_submitted _ _ _ H0 Hs) as H1. clear wc H0 Hs.
  unfold bind at 1. unfold lift at 1.
  destruct (s_getAddress signer) as [relayerAddress|err]; [|left; apply submitted_before, H1].
  unfold bind at 1.
  match goal with |- context [DatabaseService.saveTransaction ?t w1] =>
    pose proof (saveTransaction_spec t w1) as Hsave;
    destruct (DatabaseService.saveTransaction t w1) as [[row|err] w2]
  end.
  - destruct Hsave as [Hrows Htr].
    match goal with |- inner w (?k w2) =>
      assert (Hq : preserves before_store k)
    end.
    { quiet. apply quiet_track. }
    specialize (Hq w2).
    match goal with |- inner w (?k w2) => destruct (k w2) as [[res|err] w3] end;
      simpl in Hq; destruct Hq as [Ht (tail & Htail & Hf)].
    + match type of Htr with _ = (_ ++ [EvSaveTransaction ?t])%list =>
        exists w1, t, row, tail end.
      split; [exact H1|]. split; [reflexivity|].
      split; [rewrite Ht; exact Hrows|]. split; [|exact Hf].
      rewrite Htail, Htr, <- app_assoc. reflexivity.
    + right. right.
      match type of Htr with _ = (_ ++ [EvSaveTransaction ?t])%list =>
        exists w1, t, row, tail end.
      split; [exact H1|]. split; [reflexivity|].
      split; [rewrite Ht; exact Hrows|]. split; [|exact Hf].
      rewrite Htail, Htr, <- app_assoc. reflexivity.
  - destruct Hsave as [Hrows Htr]. right. left.
    match type of Htr with _ = (_ ++ [EvSaveTransaction ?t])%list => exists w1, t end.
    split; [exact H1|]. split; [reflexivity|]. split; assumption.
Qed.
End Pipeline.

(** Lists with a single save event split in one way only. *)
Lemma save_split_unique (A B pre post : list Event) t rec :
  Forall (fun e => is_save e = false) A ->
  Forall (fun e => is_save e = false) B ->
  (A ++ EvSaveTransaction t :: B = pre ++ EvSaveTransaction rec :: post)%list ->
  pre = A /\ rec = t /\ post = B.
Proof.
  intros HA HB. revert pre. induction HA as [|a A Ha HA IH]; intros pre Heq.
  - destruct pre as [|p pre]; simpl in Heq.
    + injection Heq as -> ->. auto.
    + injection Heq as <- Heq. exfalso.
      rewrite Heq in HB. apply Forall_app in HB as [_ HB].
      inversion HB; subst. discriminate.
  - destruct pre as [|p pre]; simpl in Heq.
    + injection Heq as -> _. discriminate.
    + injection Heq as <- Heq. destruct (IH _ Heq) as (-> & -> & ->). auto.
Qed.

Lemma no_save_no_split (evs pre post : list Event) rec :
  Forall (fun e => is_save e = false) evs ->
  evs <> (pre ++ EvSaveTransaction rec :: post)%list.
Proof.
  intros H ->. apply Forall_app in H as [_ H]. inversion H; subst. discriminate.
Qed.

Section SaveEvent.
Variables (ext : Externals) (config : Config) (svc : RelayerService.t).
Variable request : MetaTransactionRequest.

(** Every save the pipeline issues: the record is [pending], the
    submission came first, and if the table did not grow the run ends at
    once with a failure result. *)
Lemma relay_save_event w r w' pre rec post :
  RelayerService.relayTransaction ext config svc request w = (r, w') ->
  trace w' = (trace w ++ pre ++ EvSaveTransaction rec :: post)%list ->
  status rec = pending /\
  Exists (fun e => is_submission e = true) pre /\
  Forall (fun e => is_save e = false) pre /\
  (transactions w' = transactions w ->
   (exists e, r = Ok (RelayerService.failure e)) /\
   post = [EvMetricTransaction (req_network request) "failed"]).
Proof.
  intros Hrun Htrace.
  destruct (RelayerService.isInitialized svc) eqn:Hinit.
  - destruct (relay_body_shape ext config svc request w Hinit) as (body & Heq & Hin).
    rewrite Heq in Hrun. unfold try_catch in Hrun.
    destruct (body w) as [[res|e] w1]; simpl in Hin.
    + injection Hrun as <- <-.
      destruct Hin as (w0 & t & row & tail & [Ht0 (A & HA & HfA & HxA)] & Hst & Hrows & Htr & Hf).
      rewrite Htr, HA, <- app_assoc in Htrace. apply app_inv_head in Htrace.
      destruct (save_split_unique _ _ _ _ _ _ HfA Hf Htrace) as (-> & -> & ->).
      repeat split; try assumption;
        rewrite Hrows, Ht0 in H; apply (f_equal length) in H;
        rewrite length_app in H; simpl in H; lia.
    + unfold bind, log_event, modify, ret in Hrun. injection Hrun as <- <-.
      cbn [trace add_event transactions] in *.
      destruct Hin as [[Ht0 (A & HA & HfA)] | [Hin | Hin]].
      * exfalso. rewrite HA, <- app_assoc in Htrace. apply app_inv_head in Htrace.
        symmetry in Htrace. revert Htrace. apply not_eq_sym, no_save_no_split.
        apply Forall_app. split; [exact HfA | repeat constructor].
      * destruct Hin as (w0 & t & [Ht0 (A & HA & HfA & HxA)] & Hst & Hrows & Htr).
        rewrite Htr, HA, <- !app_assoc in Htrace. apply app_inv_head in Htrace.
        simpl in Htrace.
        assert (Hf : Forall (fun e => is_save e = false)
                       [EvMetricTransaction (req_network request) "failed"])
          by repeat constructor.
        destruct (save_split_unique _ _ _ _ _ _ HfA Hf Htrace) as (-> & -> & ->).
        repeat split; eauto.
      * destruct Hin as (w0 & t & row & tail & [Ht0 (A & HA & HfA & HxA)] & Hst & Hrows & Htr & Hf).
        rewrite Htr, HA, <- !app_assoc in Htrace. apply app_inv_head in Htrace.
        simpl in Htrace.
        assert (Hf' : Forall (fun e => is_save e = false)
                        (tail ++ [EvMetricTransaction (req_network request) "failed"]))
          by (apply Forall_app; split; [exact Hf | repeat constructor]).
        destruct (save_split_unique _ _ _ _ _ _ HfA Hf' Htrace) as (-> & -> & ->).
        repeat split; try assumption;
          rewrite Hrows, Ht0 in H; apply (f_equal length) in H;
          rewrite length_app in H; simpl in H; lia.
  - unfold RelayerService.relayTransaction in Hrun. rewrite Hinit in Hrun.
    simpl in Hrun. injection Hrun as <- <-.
    exfalso. rewrite <- (app_nil_r (trace w)) in Htrace at 1.
    apply app_inv_head in Htrace. destruct pre; discriminate.
Qed.
End SaveEvent.

(** ** The window of a sorted set *)

Section WindowLaws.
Variables (key : string) (w : World) (ms : list (Z * string)).
Hypothesis Hup : redis_up w = true.
Hypothesis Hwin : window_of w key = Some ms.

Lemma zRemRangeByScore_window lo hi :
  exists n w1,
    Client.zRemRangeByScore key lo hi w = (Ok n, w1) /\
    redis_up w1 = true /\ clock w1 = clock w /\
    window_of w1 key =
      Some (List.filter (fun m => negb ((lo <=? fst m) && (fst m <=? hi))%bool) ms).
Proof.
  unfold Client.zRemRangeByScore.
  unfold window_of in Hwin.
  destruct (redis w !! key) as [[[s|l] ttl]|] eqn:E; [discriminate| |].
  - injection Hwin as ->.
    destruct (List.filter (fun m => negb ((lo <=? fst m) && (fst m <=? hi))%bool) ms)
      as [|m keep] eqn:F.
    + do 2 eexists. split.
      { mstep ltac:(apply command_up; exact Hup). mstep ltac:(reflexivity).
        cbn [redis add_event]. rewrite E, F. mstep ltac:(reflexivity). reflexivity. }
      split; [exact Hup|]. split; [reflexivity|].
      unfold window_of. cbn [redis set_redis add_event]. rewrite lookup_delete_eq.
      reflexivity.
    + do 2 eexists. split.
      { mstep ltac:(apply command_up; exact Hup). mstep ltac:(reflexivity).
        cbn [redis add_event]. rewrite E, F. mstep ltac:(reflexivity). reflexivity. }
      split; [exact Hup|]. split; [reflexivity|].
      unfold window_of. cbn [redis set_redis add_event]. rewrite lookup_insert_eq.
      reflexivity.
  - injection Hwin as <-. do 2 eexists. split.
    { mstep ltac:(apply command_up; exact Hup). mstep ltac:(reflexivity).
      cbn [redis add_event]. rewrite E. reflexivity. }
    split; [exact Hup|]. split; [reflexivity|].
    unfold window_of. cbn [redis add_event]. rewrite E. reflexivity.
Qed.

Lemma zCard_window :
  Client.zCard key w = (Ok (Z.of_nat (length ms)), add_event (EvRedis "ZCARD" key) w).
Proof.
  unfold Client.zCard. unfold window_of in Hwin.
  mstep ltac:(apply command_up; exact Hup). mstep ltac:(reflexivity).
  cbn [redis add_event].
  destruct (redis w !! key) as [[[s|l] ttl]|]; [discriminate| |].
  - injection Hwin as ->. reflexivity.
  - injection Hwin as <-. reflexivity.
Qed.

Lemma zRangeByScore_window lo hi :
  ClientExt.zRangeByScore key lo hi w =
  (Ok (map snd (ClientExt.sort_members
                  (List.filter (fun m => ((lo <=? fst m) && (fst m <=? hi))%bool) ms))),
   add_event (EvRedis "ZRANGE" key) w).
Proof.
  unfold ClientExt.zRangeByScore. unfold window_of in Hwin.
  mstep ltac:(apply command_up; exact Hup). mstep ltac:(reflexivity).
  cbn [redis add_event].
  destruct (redis w !! key) as [[[s|l] ttl]|]; [discriminate| |].
  - injection Hwin as ->. reflexivity.
  - injection Hwin as <-. reflexivity.
Qed.

Lemma zAdd_window score member :
  exists n w1,
    ClientExt.zAdd key score member w = (Ok n, w1) /\
    redis_up w1 = true /\ clock w1 = clock w /\
    is_Some (redis w1 !! key) /\
    window_of w1 key = Some (ClientExt.without_member member ms ++ [(score, member)])%list.
Proof.
  unfold ClientExt.zAdd. unfold window_of in Hwin.
  destruct (redis w !! key) as [[[s|l] ttl]|] eqn:E; [discriminate| |].
  - injection Hwin as ->. do 2 eexists. split.
    { mstep ltac:(apply command_up; exact Hup). mstep ltac:(reflexivity).
      cbn [redis add_event]. rewrite E. mstep ltac:(reflexivity). reflexivity. }
    split; [exact Hup|]. split; [reflexivity|].
    unfold window_of. cbn [redis set_redis add_event]. rewrite lookup_insert_eq.
    split; [eauto | reflexivity].
  - injection Hwin as <-. do 2 eexists. split.
    { mstep ltac:(apply command_up; exact Hup). mstep ltac:(reflexivity).
      cbn [redis add_event]. rewrite E. mstep ltac:(reflexivity). reflexivity. }
    split; [exact Hup|]. split; [reflexivity|].
    unfold window_of. cbn [redis set_redis add_event]. rewrite lookup_insert_eq.
    split; [eauto | reflexivity].
Qed.

Lemma expire_window ttl :
  0 < ttl -> is_Some (redis w !! key) ->
  exists w1,
    ClientExt.expire key ttl w = (Ok true, w1) /\
    redis_up w1 = true /\ clock w1 = clock w /\
    window_of w1 key = Some ms /\
    (exists e, redis w1 !! key = Some (mkEntry e (Some ttl))).
Proof.
  intros Httl [e He]. unfold ClientExt.expire.
  eexists. split.
  { mstep ltac:(apply command_up; exact Hup). mstep ltac:(reflexivity).
    cbn [redis add_event]. rewrite He.
    replace (ttl <=? 0) with false by (symmetry; apply Z.leb_gt; lia).
    mstep ltac:(reflexivity). reflexivity. }
  split; [exact Hup|]. split; [reflexivity|].
  unfold window_of in *. cbn [redis set_redis add_event]. rewrite lookup_insert_eq.
  rewrite He in Hwin. destruct e as [[s|l] t]; cbn [rvalue] in *; [discriminate|].
  split; [exact Hwin | eauto].
Qed.
End WindowLaws.

(** ** Nothing sent *)

#[local] Instance nothing_sent_preorder : PreOrder nothing_sent.
Proof.
  split.
  - intros w. split; [reflexivity|]. split; [reflexivity|].
    exists []. rewrite app_nil_r. auto.
  - intros w1 w2 w3 (Hu1 & Ht1 & e1 & He1 & Hf1) (Hu2 & Ht2 & e2 & He2 & Hf2).
    split; [congruence|]. split; [congruence|].
    exists (e1 ++ e2)%list. rewrite He2, He1, app_assoc. split; [reflexivity|].
    apply Forall_app; auto.
Qed.

Lemma nothing_sent_event e w : is_sending e = false -> nothing_sent w (add_event e w).
Proof.
  intros H. split; [reflexivity|]. split; [reflexivity|].
  exists [e]. split; [reflexivity|]. constructor; [exact H | constructor].
Qed.

Lemma nothing_sent_redis f w : nothing_sent w (set_redis f w).
Proof.
  split; [reflexivity|]. split; [reflexivity|]. exists []. simpl. rewrite app_nil_r. auto.
Qed.

Ltac unsent :=
  repeat first
    [ preserves_step
    | lazymatch goal with
      | |- preserves ?R (modify (set_redis _)) =>
          refine (preserves_modify R _ _); intros ?; apply nothing_sent_redis
      | |- preserves ?R (log_event _) => unfold log_event
      | |- preserves ?R (modify (add_event _)) =>
          refine (preserves_modify R _ _); intros ?; apply nothing_sent_event; reflexivity
      | |- preserves ?R (ask _ _) =>
          refine (preserves_ask R _ _ _); intros ?; apply nothing_sent_event; reflexivity
      | |- preserves ?R (fun _ => _) =>
          refine (preserves_fun R _ _); intros ?;
          solve [ reflexivity | repeat case_match; reflexivity ]
      end ].

Section Unsent.
Variables (ext : Externals) (config : Config) (svc : RelayerService.t).
Variable request : MetaTransactionRequest.

Lemma unsent_validateRequest :
  preserves nothing_sent (RelayerService.validateRequest ext config svc request).
Proof. autounfold with relayer. unsent. Qed.

Lemma unsent_checkPolicies pe :
  preserves nothing_sent (PolicyEngine.checkPolicies ext pe request).
Proof. autounfold with relayer. unsent. Qed.

Lemma unsent_verify :
  preserves nothing_sent (RelayerService.verifyMetaTransactionSignature ext config request).
Proof. autounfold with relayer. unsent. Qed.

Lemma unsent_simulate provider :
  preserves nothing_sent (RelayerService.simulateTransaction request provider).
Proof. autounfold with relayer. unsent. Qed.

Lemma unsent_gasPrice provider network :
  preserves nothing_sent (RelayerService.getOptimalGasPrice ext config provider network).
Proof. autounfold with relayer. unsent. Qed.

Lemma unsent_estimateGas provider :
  preserves nothing_sent (RelayerService.estimateGas ext request provider).
Proof. autounfold with relayer. unsent. Qed.
End Unsent.

(** * The claims *)

(** ** Persistence and broadcast (C2) *)




(** ** Signature verification (C3) *)



(** ** The effective fee (C8) *)

(** C8, as the code behaves: the effective fee is the chain client's gas
    price suggestion (0 when none is given) times the configured multiplier,
    taken as the whole percentage [floor(multiplier * 100)] with truncating
    division by 100, clamped down to the relayer's configured maximum gas
    price; the computation never rejects: a clamp below the suggestion is
    used as it is, and when the fee query or a conversion throws the fee is
    20 gwei. *)
Theorem getOptimalGasPrice_clamps_to_configured_maximum ext config provider network w :
  RelayerService.getOptimalGasPrice ext config provider network w =
  (Ok match p_getFeeData provider (trace w),
            relayer_gasMultiplierPercent config,
            BigInt ext (relayer_maxGasPrice config) with
      | Ok suggestion, Some percent, Some cap =>
          Z.min cap (Z.quot (default 0 suggestion * percent) 100)
      | _, _, _ => 20000000000
      end,
   add_event (EvGetFeeData network) w).
Proof.
  unfold RelayerService.getOptimalGasPrice, RelayerService.bigint, PolicyEngine.bigint,
    try_catch, bind, ask, ret, throw.
  destruct (p_getFeeData provider (trace w)) as [suggestion|]; [|reflexivity].
  destruct (relayer_gasMultiplierPercent config) as [percent|]; [|reflexivity].
  destruct (BigInt ext (relayer_maxGasPrice config)) as [cap|]; [|reflexivity].
  assert (Hs : match suggestion with
               | Some g => if g =? 0 then 0 else g
               | None => 0
               end = default 0 suggestion).
  { destruct suggestion as [g|]; [|reflexivity]. simpl.
    destruct (g =? 0) eqn:E; [apply Z.eqb_eq in E; congruence | reflexivity]. }
  rewrite Hs.
  destruct (Z.quot (default 0 suggestion * percent) 100 >? cap) eqn:E.
  - rewrite Z.min_l by (apply Z.gtb_lt in E; lia). reflexivity.
  - rewrite Z.min_r; [reflexivity|].
    rewrite Z.gtb_ltb in E. apply Z.ltb_ge in E. lia.
Qed.

(** C8 as stated fails: the chain suggests 200 gwei, the configured maximum
    is 100 gwei and the gas rule's maximum is 50 gwei; the fee is clamped to
    100 gwei, below the suggestion and above the rule's maximum, nothing is
    rejected and the transaction is broadcast at that fee. *)
Lemma fee_clamped_below_suggestion_is_broadcast :
  let p := Demo.provider 200000000000 50000 5 in
  let svc := Demo.service p ∅ {[ "*" := PolicyEngine.mkGas "500000" "50000000000" ]} in
  let w := Demo.world (Demo.cursor 5) [] in
  let out := RelayerService.relayTransaction Demo.ext Demo.config svc
               (Demo.request "10" "100000" "0") w in
  fst (RelayerService.getOptimalGasPrice Demo.ext Demo.config p "localhost" w) =
    Ok 100000000000 /\
  (exists res, fst out = Ok res /\ RelayerService.success res = true /\
               RelayerService.gasPrice res = Some "100000000000") /\
  (exists t signedTx,
      trace (snd out) !! 6%nat = Some (EvSignTransaction "localhost" t) /\
      t_gasPrice t = 100000000000 /\
      trace (snd out) !! 7%nat = Some (EvBroadcast "localhost" signedTx)).
Proof.
  intros p svc w out. split; [vm_compute; reflexivity|]. split.
  - eexists. split; [vm_compute; reflexivity|]. split; reflexivity.
  - do 2 eexists. split; [vm_compute; reflexivity|]. split; vm_compute; reflexivity.
Qed.

(** ** The gas limit (C9) *)

Lemma estimateGas_result ext request provider w :
  RelayerService.estimateGas ext request provider w =
  (match p_estimateGas provider (trace w) (RelayerService.call_of request) with
   | Ok estimate => Ok (Z.quot (estimate * 120) 100)
   | Throw _ =>
       match BigInt ext (req_gas request) with
       | Some declared => Ok declared
       | None => Throw "SyntaxError: Cannot convert to a BigInt"
       end
   end,
   add_event (EvEstimateGas (req_network request) (RelayerService.call_of request)) w).
Proof.
  unfold RelayerService.estimateGas, RelayerService.bigint, PolicyEngine.bigint,
    try_catch, bind, ask, ret, throw.
  destruct (p_estimateGas _ _ _); [reflexivity|].
  destruct (BigInt ext (req_gas request)); reflexivity.
Qed.

#[local] Instance hands_gas_preorder g : PreOrder (hands_gas g).
Proof.
  split.
  - intros w. exists []. rewrite app_nil_r. auto.
  - intros w1 w2 w3 (e1 & He1 & Hf1) (e2 & He2 & Hf2).
    exists (e1 ++ e2)%list. rewrite He2, He1, app_assoc. split; [reflexivity|].
    apply Forall_app; auto.
Qed.

Lemma hands_gas_event g e w :
  (forall t, handed_over t e -> t_gasLimit t = g) -> hands_gas g w (add_event e w).
Proof. intros H. exists [e]. split; [reflexivity|]. constructor; [exact H | constructor]. Qed.

Lemma hands_gas_same g w w' : trace w' = trace w -> hands_gas g w w'.
Proof. intros H. exists []. rewrite H, app_nil_r. auto. Qed.

Lemma sending_handed_over t e : handed_over t e -> is_sending e = true.
Proof. intros [[net ->] | ->]; reflexivity. Qed.

Ltac not_handed :=
  let t := fresh "t" in
  let H := fresh "H" in
  intros t [[? H] | H]; solve [ discriminate H | inversion H; reflexivity ].

Ltac gas_kept :=
  repeat first
    [ preserves_step
    | lazymatch goal with
      | |- preserves ?R (modify (set_redis _)) =>
          refine (preserves_modify R _ _); intros ?; apply hands_gas_same; reflexivity
      | |- preserves ?R (modify (set_transactions _ _)) =>
          refine (preserves_modify R _ _); intros ?; apply hands_gas_same; reflexivity
      | |- preserves ?R (log_event _) => unfold log_event
      | |- preserves ?R (modify (add_event _)) =>
          refine (preserves_modify R _ _); intros ?; apply hands_gas_event; not_handed
      | |- preserves ?R (ask _ _) =>
          refine (preserves_ask R _ _ _); intros ?; apply hands_gas_event; not_handed
      | |- preserves ?R (fun _ => _) =>
          refine (preserves_fun R _ _); intros ?;
          solve [ reflexivity | repeat case_match; reflexivity ]
      end ].

Section GasOfTheRun.
Variables (ext : Externals) (config : Config) (svc : RelayerService.t).
Variable request : MetaTransactionRequest.

Lemma gas_kept_getNextNonce g signer provider network :
  preserves (hands_gas g) (RelayerService.getNextNonce ext config signer provider network).
Proof. autounfold with relayer. gas_kept. Qed.

Lemma gas_kept_submit provider signer transaction :
  preserves (hands_gas (t_gasLimit transaction))
    (RelayerService.submit ext config request provider signer transaction).
Proof. unfold RelayerService.submit. gas_kept. Qed.

Lemma gas_kept_saveTransaction g t :
  preserves (hands_gas g) (DatabaseService.saveTransaction t).
Proof.
  unfold DatabaseService.saveTransaction, DatabaseService.connect_client. gas_kept.
Qed.

Lemma gas_kept_track g txHash now :
  preserves (hands_gas g) (RedisService.trackPendingTransaction ext config txHash request now).
Proof. unfold RedisService.trackPendingTransaction. autounfold with relayer. gas_kept. Qed.

Lemma submit_first_event provider signer transaction w :
  exists e evs,
    handed_over transaction e /\
    trace (snd (RelayerService.submit ext config request provider signer transaction w)) =
      (trace w ++ e :: evs)%list.
Proof.
  unfold RelayerService.submit, bind, ask, ret.
  destruct (flashbots_enabled config && _)%bool; cbn [fst snd].
  - exists (EvSendBundle transaction), []. split; [right; reflexivity|].
    destruct (sendBundle _ _ _ _); reflexivity.
  - exists (EvSignTransaction (req_network request) transaction). 
    destruct (s_signTransaction _ _) as [signed|]; cbn [snd].
    + destruct (p_broadcastTransaction _ _ _) as [h|]; cbn [snd].
      * destruct (p_wait _ _ _); cbn [snd trace add_event];
          eexists [_; _]; (split; [left; eexists; reflexivity|]);
          rewrite <- !app_assoc; reflexivity.
      * eexists [_]. split; [left; eexists; reflexivity|].
        cbn [trace add_event]. rewrite <- !app_assoc. reflexivity.
    + exists []. split; [left; eexists; reflexivity | reflexivity].
Qed.

Lemma failed_run_hands_gas g w w1 e :
  hands_gas g w w1 ->
  hands_gas g w
    (snd ((run log_event (EvMetricTransaction (req_network request) "failed") ;
           ret (RelayerService.failure e))%M w1)).
Proof.
  intros H. etransitivity; [exact H|]. apply hands_gas_event. not_handed.
Qed.

(** C9, as the code behaves: in every run, whatever is handed to the signer
    or to the bundle relay was built after the one gas estimate of the run
    and carries as gas limit the chain client's estimate plus a fixed fifth
    (estimate * 120 / 100, truncating), or the declared gas when the
    estimate call threw; the declared gas does not clamp it. And no run is
    rejected on account of the estimate: once the stages up to the
    allocation of the sequence number have passed, the transaction with
    that gas limit is handed over. *)
Theorem relay_hands_over_the_estimated_gas w r w' evs :
  RelayerService.relayTransaction ext config svc request w = (r, w') ->
  trace w' = (trace w ++ evs)%list ->
  (forall e t,
      In e evs -> handed_over t e ->
      exists provider pre post,
        RelayerService.providers svc !! req_network request = Some provider /\
        evs = (pre ++ EvEstimateGas (req_network request)
                        (RelayerService.call_of request) :: post)%list /\
        In e post /\
        match p_estimateGas provider (trace w ++ pre) (RelayerService.call_of request) with
        | Ok estimate => t_gasLimit t = Z.quot (estimate * 120) 100
        | Throw _ => BigInt ext (req_gas request) = Some (t_gasLimit t)
        end) /\
  (forall provider signer w1 policyResult w2 w3 w4 gasPrice w5 gasLimit w6 nonce w7,
      RelayerService.isInitialized svc = true ->
      RelayerService.providers svc !! req_network request = Some provider ->
      RelayerService.signers svc !! req_network request = Some signer ->
      RelayerService.validateRequest ext config svc request w = (Ok tt, w1) ->
      PolicyEngine.checkPolicies ext (RelayerService.policyEngine svc) request w1 =
        (Ok policyResult, w2) ->
      PolicyEngine.allowed policyResult = true ->
      RelayerService.verifyMetaTransactionSignature ext config request w2 = (Ok tt, w3) ->
      RelayerService.simulateTransaction request provider w3 = (Ok tt, w4) ->
      RelayerService.getOptimalGasPrice ext config provider (req_network request) w4 =
        (Ok gasPrice, w5) ->
      RelayerService.estimateGas ext request provider w5 = (Ok gasLimit, w6) ->
      RelayerService.getNextNonce ext config signer provider (req_network request) w6 =
        (Ok nonce, w7) ->
      exists e post,
        trace w' = (trace w7 ++ e :: post)%list /\
        handed_over (mkTxReq (req_to request) (req_value request) (req_data request)
                             gasLimit gasPrice nonce) e).
Proof.
  intros Hrun Htrace. split.
  - intros e t Hin Hhand.
    assert (Habsurd : nothing_sent w w' -> False).
    { intros (_ & _ & evs' & He & Hf). rewrite He in Htrace.
      apply app_inv_head in Htrace. subst evs'.
      rewrite List.Forall_forall in Hf. specialize (Hf e Hin).
      rewrite (sending_handed_over t e Hhand) in Hf. discriminate. }
    unfold RelayerService.relayTransaction in Hrun.
    destruct (RelayerService.isInitialized svc); cbn [negb] in Hrun; cbv iota in Hrun.
    2:{ exfalso. injection Hrun as _ <-. apply Habsurd. reflexivity. }
    assert (Hfail : forall err w1, nothing_sent w w1 ->
              (run log_event (EvMetricTransaction (req_network request) "failed") ;
               ret (RelayerService.failure err))%M w1 = (r, w') -> False).
    { intros err w1 H1 Heq. apply Habsurd.
      unfold bind, log_event, modify, ret in Heq. injection Heq as _ <-.
      etransitivity; [exact H1|]. apply nothing_sent_event. reflexivity. }
    unfold try_catch in Hrun.
    pose proof (unsent_validateRequest ext config svc request w) as H1.
    destruct (RelayerService.validateRequest ext config svc request w)
      as [[[]|err] w1] eqn:E1; cbn [snd] in H1.
    2:{ exfalso. erewrite bind_throw in Hrun by exact E1. eapply Hfail; eassumption. }
    erewrite bind_ok in Hrun by exact E1. cbv beta in Hrun.
    pose proof (unsent_checkPolicies ext request (RelayerService.policyEngine svc) w1) as H2.
    destruct (PolicyEngine.checkPolicies ext (RelayerService.policyEngine svc) request w1)
      as [[p|err] w2] eqn:E2; cbn [snd] in H2.
    2:{ exfalso. erewrite bind_throw in Hrun by exact E2. eapply Hfail; [|eassumption].
        etransitivity; eassumption. }
    erewrite bind_ok in Hrun by exact E2. cbv beta in Hrun.
    assert (H2' : nothing_sent w w2) by (etransitivity; eassumption). clear H1 H2.
    destruct (PolicyEngine.allowed p); cbn [negb] in Hrun; cbv iota in Hrun.
    2:{ exfalso. unfold throw in Hrun at 1. eapply Hfail; eassumption. }
    destruct (RelayerService.providers svc !! req_network request) as [provider|] eqn:Hprov.
    2:{ exfalso. unfold throw in Hrun at 1. eapply Hfail; eassumption. }
    destruct (RelayerService.signers svc !! req_network request) as [signer|].
    2:{ exfalso. unfold throw in Hrun at 1. eapply Hfail; eassumption. }
    pose proof (unsent_verify ext config request w2) as H3.
    destruct (RelayerService.verifyMetaTransactionSignature ext config request w2)
      as [[[]|err] w3] eqn:E3; cbn [snd] in H3.
    2:{ exfalso. erewrite bind_throw in Hrun by exact E3. eapply Hfail; [|eassumption].
        etransitivity; eassumption. }
    erewrite bind_ok in Hrun by exact E3. cbv beta in Hrun.
    assert (H3' : nothing_sent w w3) by (etransitivity; eassumption). clear H2' H3.
    pose proof (unsent_simulate request provider w3) as H4.
    destruct (RelayerService.simulateTransaction request provider w3)
      as [[[]|err] w4] eqn:E4; cbn [snd] in H4.
    2:{ exfalso. erewrite bind_throw in Hrun by exact E4. eapply Hfail; [|eassumption].
        etransitivity; eassumption. }
    erewrite bind_ok in Hrun by exact E4. cbv beta in Hrun.
    assert (H4' : nothing_sent w w4) by (etransitivity; eassumption). clear H3' H4.
    pose proof (unsent_gasPrice ext config provider (req_network request) w4) as H5.
    destruct (RelayerService.getOptimalGasPrice ext config provider (req_network request) w4)
      as [[gasPrice|err] w5] eqn:E5; cbn [snd] in H5.
    2:{ exfalso. erewrite bind_throw in Hrun by exact E5. eapply Hfail; [|eassumption].
        etransitivity; eassumption. }
    erewrite bind_ok in Hrun by exact E5. cbv beta in Hrun.
    assert (H5' : nothing_sent w w5) by (etransitivity; eassumption). clear H4' H5.
    pose proof (estimateGas_result ext request provider w5) as Hres.
    destruct (RelayerService.estimateGas ext request provider w5)
      as [[gasLimit|err] w6] eqn:E6.
    2:{ exfalso. erewrite bind_throw in Hrun by exact E6. eapply Hfail; [|eassumption].
        injection Hres as _ ->. etransitivity; [exact H5'|].
        apply nothing_sent_event. reflexivity. }
    erewrite bind_ok in Hrun by exact E6. cbv beta zeta in Hrun.
    assert (Hg : hands_gas gasLimit w6 w').
    { match type of Hrun with
      | match ?k w6 with _ => _ end = _ =>
          assert (Hk : preserves (hands_gas gasLimit) k)
      end.
      { gas_kept;
          first [ apply gas_kept_getNextNonce
                | apply (gas_kept_submit provider signer
                           (mkTxReq (req_to request) (req_value request)
                                    (req_data request) gasLimit gasPrice _))
                | apply gas_kept_saveTransaction
                | apply gas_kept_track ]. }
      specialize (Hk w6).
      match type of Hrun with
      | match ?k w6 with _ => _ end = _ => destruct (k w6) as [[res|err] w8]
      end; cbn [snd] in Hk.
      - injection Hrun as _ <-. exact Hk.
      - pose proof (failed_run_hands_gas gasLimit w6 w8 err Hk) as Hh.
        rewrite Hrun in Hh. exact Hh. }
    destruct Hg as (post & Hpost & Hall).
    destruct H5' as (_ & _ & pre & Hpre & Hfpre).
    assert (Hw6 : trace w6 = (trace w5 ++ [EvEstimateGas (req_network request)
                                             (RelayerService.call_of request)])%list).
    { injection Hres as _ ->. reflexivity. }
    rewrite Hpost, Hw6, Hpre, <- !app_assoc in Htrace.
    apply app_inv_head in Htrace. cbn [app] in Htrace. subst evs.
    exists provider, pre, post. split; [reflexivity|]. split; [reflexivity|].
    assert (Hin' : In e post).
    { apply in_app_or in Hin as [Hin|[<-|Hin]].
      - exfalso. rewrite List.Forall_forall in Hfpre. specialize (Hfpre e Hin).
        rewrite (sending_handed_over t e Hhand) in Hfpre. discriminate.
      - exfalso. destruct Hhand as [[net Hh]|Hh]; discriminate Hh.
      - exact Hin. }
    split; [exact Hin'|].
    rewrite List.Forall_forall in Hall. specialize (Hall e Hin' t Hhand).
    rewrite <- Hpre.
    destruct (p_estimateGas provider (trace w5) (RelayerService.call_of request)).
    + injection Hres as Hres _. congruence.
    + destruct (BigInt ext (req_gas request)); [|discriminate Hres].
      injection Hres as Hres _. congruence.
  - intros provider signer w1 p w2 w3 w4 gasPrice w5 gasLimit w6 nonce w7
      Hinit Hprov Hsign E1 E2 Ha E3 E4 E5 E6 E7.
    unfold RelayerService.relayTransaction in Hrun. rewrite Hinit in Hrun.
    cbn [negb] in Hrun. cbv iota in Hrun. unfold try_catch in Hrun.
    erewrite bind_ok in Hrun by exact E1. cbv beta in Hrun.
    erewrite bind_ok in Hrun by exact E2. cbv beta in Hrun.
    rewrite Ha, Hprov, Hsign in Hrun. cbn [negb] in Hrun. cbv iota in Hrun.
    erewrite bind_ok in Hrun by exact E3. cbv beta in Hrun.
    erewrite bind_ok in Hrun by exact E4. cbv beta in Hrun.
    erewrite bind_ok in Hrun by exact E5. cbv beta in Hrun.
    erewrite bind_ok in Hrun by exact E6. cbv beta in Hrun.
    erewrite bind_ok in Hrun by exact E7. cbv beta zeta in Hrun.
    set (t0 := mkTxReq (req_to request) (req_value request) (req_data request)
                       gasLimit gasPrice nonce) in *.
    destruct (submit_first_event provider signer t0 w7) as (e0 & evs0 & Hh & Htr0).
    unfold bind at 1 in Hrun.
    destruct (RelayerService.submit ext config request provider signer t0 w7)
      as [[sent|err] w8]; cbn [snd] in Htr0.
    + match type of Hrun with
      | match ?k w8 with _ => _ end = _ =>
          assert (Hk : preserves (hands_gas gasLimit) k)
      end.
      { gas_kept; first [ apply gas_kept_saveTransaction | apply gas_kept_track ]. }
      specialize (Hk w8).
      match type of Hrun with
      | match ?k w8 with _ => _ end = _ => destruct (k w8) as [[res|err] w9]
      end; cbn [snd] in Hk.
      * injection Hrun as _ <-. destruct Hk as (post & Hpost & _).
        exists e0, (evs0 ++ post)%list. split; [|exact Hh].
        rewrite Hpost, Htr0, <- app_assoc. reflexivity.
      * pose proof (failed_run_hands_gas gasLimit w8 w9 err Hk) as Hf.
        rewrite Hrun in Hf. cbn [snd] in Hf. destruct Hf as (post & Hpost & _).
        exists e0, (evs0 ++ post)%list. split; [|exact Hh].
        rewrite Hpost, Htr0, <- app_assoc. reflexivity.
    + unfold bind, log_event, modify, ret in Hrun. injection Hrun as _ <-.
      exists e0, (evs0 ++ [EvMetricTransaction (req_network request) "failed"])%list.
      split; [|exact Hh]. cbn [trace add_event]. rewrite Htr0, <- app_assoc. reflexivity.
Qed.
End GasOfTheRun.

(** The run used below: the request declares 100000 gas and the chain
    estimates 200000. *)
Lemma relay_hands_over_the_estimated_gas_witness :
  let p := Demo.provider 1000000000 200000 5 in
  let svc := Demo.service p ∅ ∅ in
  let request := Demo.request "10" "100000" "0" in
  let w := Demo.world (Demo.cursor 5) [] in
  let out := RelayerService.relayTransaction Demo.ext Demo.config svc request w in
  exists t,
    trace (snd out) !! 6%nat = Some (EvSignTransaction "localhost" t) /\
    t_gasLimit t = Z.quot (200000 * 120) 100.
Proof.
  intros p svc request w out.
  assert (Hev : exists t, trace (snd out) !! 6%nat = Some (EvSignTransaction "localhost" t))
    by (eexists; vm_compute; reflexivity).
  destruct Hev as (t & Hev). exists t. split; [exact Hev|].
  destruct (proj1 (relay_hands_over_the_estimated_gas Demo.ext Demo.config svc request w
                     (fst out) (snd out) (trace (snd out))
                     (surjective_pairing out) eq_refl)
              (EvSignTransaction "localhost" t) t)
    as (provider & pre & post & Hprov & _ & _ & Hgas).
  - apply list_elem_of_In. eapply list_elem_of_lookup_2. exact Hev.
  - left. eexists. reflexivity.
  - assert (Hp : provider = p).
    { unfold svc, Demo.service in Hprov. cbn [RelayerService.providers] in Hprov.
      rewrite lookup_singleton_eq in Hprov. injection Hprov as <-. reflexivity. }
    subst provider. exact Hgas.
Defined.

(** C9 as stated fails: the request declares 100000 gas and the chain
    estimates 200000; the estimate alone exceeds the declared limit, yet the
    run is not rejected and the transaction is signed and broadcast with a
    gas limit of 240000. *)
Lemma estimate_above_declared_gas_is_broadcast :
  let p := Demo.provider 1000000000 200000 5 in
  let svc := Demo.service p ∅ ∅ in
  let request := Demo.request "10" "100000" "0" in
  let w := Demo.world (Demo.cursor 5) [] in
  let out := RelayerService.relayTransaction Demo.ext Demo.config svc request w in
  fst (RelayerService.estimateGas Demo.ext request p w) = Ok 240000 /\
  BigInt Demo.ext (req_gas request) = Some 100000 /\
  (exists res, fst out = Ok res /\ RelayerService.success res = true) /\
  (exists t signedTx,
      trace (snd out) !! 6%nat = Some (EvSignTransaction "localhost" t) /\
      t_gasLimit t = 240000 /\
      trace (snd out) !! 7%nat = Some (EvBroadcast "localhost" signedTx)).
Proof.
  intros p svc request w out. split; [vm_compute; reflexivity|].
  split; [vm_compute; reflexivity|]. split.
  - eexists. split; [vm_compute; reflexivity|]. reflexivity.
  - do 2 eexists. split; [vm_compute; reflexivity|]. split; vm_compute; reflexivity.
Qed.

(** ** Order of the policy checks (C7) *)

Section Rejections.
Variable S : option string -> Prop.

Lemma rejects_allow : rejects_with S (ret PolicyEngine.allow).
Proof. intros w res w' H. injection H as <- _. discriminate. Qed.

Lemma rejects_deny why : S (Some why) -> rejects_with S (ret (PolicyEngine.deny why)).
Proof. intros HS w res w' H _. injection H as <- _. exact HS. Qed.

Lemma rejects_throw msg : rejects_with S (throw msg).
Proof. intros w res w' H. discriminate. Qed.

Lemma rejects_bind {A} (m : M A) k :
  (forall a, rejects_with S (k a)) -> rejects_with S (bind m k).
Proof.
  intros Hk w res w' H. unfold bind in H.
  destruct (m w) as [[a|e] w1]; [|discriminate]. eapply Hk, H.
Qed.

Lemma rejects_pass m next :
  rejects_with S m -> rejects_with S next ->
  rejects_with S (do res <- m ;
                  if negb (PolicyEngine.allowed res) then ret res else next).
Proof.
  intros Hm Hn w res w' H. unfold bind in H.
  destruct (m w) as [[a|e] w1] eqn:E; [|discriminate].
  destruct (PolicyEngine.allowed a) eqn:Ha; simpl in H.
  - eapply Hn, H.
  - injection H as <- _. intros _. eapply Hm; eassumption.
Qed.

Lemma rejects_with_rule {R} (rule : option R) check next :
  (forall r, rejects_with S (check r)) -> rejects_with S next ->
  rejects_with S (PolicyEngine.with_rule rule check next).
Proof.
  intros Hc Hn. destruct rule as [r|]; simpl; [|exact Hn].
  apply rejects_pass; [apply Hc | exact Hn].
Qed.
End Rejections.

Ltac rejections :=
  repeat first
    [ apply rejects_allow
    | apply rejects_throw
    | apply rejects_deny
    | apply rejects_with_rule; [ intros ? | ]
    | apply rejects_pass
    | apply rejects_bind; intros ?
    | match goal with
      | |- rejects_with _ (if ?b then _ else _) => destruct b
      | |- rejects_with _ (match ?x with _ => _ end) => destruct x
      end ].

Section Reasons.
Variables (ext : Externals) (pe : PolicyEngine.t) (request : MetaTransactionRequest).

Lemma checkAllowlist_reasons :
  rejects_with (names_limit_of KAllowlist (req_network request))
               (PolicyEngine.checkAllowlist pe request).
Proof.
  unfold PolicyEngine.checkAllowlist.
  destruct (negb _).
  - apply rejects_deny. exists GlobalAllowlist. split; reflexivity.
  - destruct (negb _).
    + apply rejects_deny. exists NetworkAllowlist. split; reflexivity.
    + apply rejects_allow.
Qed.

Lemma checkAddressQuota_reasons address rule :
  rejects_with (names_limit_of KQuota (req_network request))
               (PolicyEngine.checkAddressQuota ext address request rule).
Proof.
  unfold PolicyEngine.checkAddressQuota, PolicyEngine.bigint,
    PolicyEngine.getTransactionValue.
  rejections.
  - exists MaxTransactionsPerHour. split; reflexivity.
  - exists MaxTransactionsPerDay. split; reflexivity.
  - exists MaxValuePerTransaction. split; reflexivity.
  - exists MaxValuePerHour. split; reflexivity.
  - exists MaxValuePerDay. split; reflexivity.
Qed.
Lemma checkQuotas_reasons :
  rejects_with (names_limit_of KQuota (req_network request))
               (PolicyEngine.checkQuotas ext pe request).
Proof.
  unfold PolicyEngine.checkQuotas.
  repeat (apply rejects_with_rule; [intros ?; apply checkAddressQuota_reasons|]).
  apply rejects_allow.
Qed.

Lemma checkGasLimits_reasons :
  rejects_with (names_limit_of KGasLimit (req_network request))
               (PolicyEngine.checkGasLimits ext pe request).
Proof.
  unfold PolicyEngine.checkGasLimits, PolicyEngine.checkGasLimit, PolicyEngine.bigint.
  rejections.
  - exists GlobalMaxGasLimit. split; reflexivity.
  - exists NetworkMaxGasLimit. split; reflexivity.
Qed.

Lemma checkTokenLimits_reasons :
  rejects_with (names_limit_of KTokenLimit (req_network request))
               (PolicyEngine.checkTokenLimits ext pe request).
Proof.
  unfold PolicyEngine.checkTokenLimits, PolicyEngine.checkTokenAmountLimits,
    PolicyEngine.over_limit, PolicyEngine.getTokenTransactionAmount, PolicyEngine.bigint.
  rejections.
  all: first [ exists AllowedTokens; split; reflexivity
             | exists MaxAmountPerTransaction; split; reflexivity
             | exists MaxAmountPerHour; split; reflexivity
             | exists MaxAmountPerDay; split; reflexivity ].
Qed.

(** [checkPolicies] is the in-order evaluation with its try block around it. *)
Lemma checkPolicies_in_order w :
  PolicyEngine.isInitialized pe = true ->
  PolicyEngine.checkPolicies ext pe request w =
  match first_rejection (rule_order ext pe request) w with
  | (Ok (_, res), w') => (Ok res, w')
  | (Throw _, w') => (Ok (PolicyEngine.deny "Policy check failed"), w')
  end.
Proof.
  intros Hinit. unfold PolicyEngine.checkPolicies. rewrite Hinit.
  unfold rule_order, first_rejection, try_catch, bind, ret. cbn [negb]. cbv beta iota.
  destruct (PolicyEngine.checkAllowlist pe request w) as [[r1|e1] w1]; [|reflexivity].
  destruct (PolicyEngine.allowed r1); simpl; [|reflexivity].
  destruct (PolicyEngine.checkQuotas ext pe request w1) as [[r2|e2] w2]; [|reflexivity].
  destruct (PolicyEngine.allowed r2); simpl; [|reflexivity].
  destruct (PolicyEngine.checkGasLimits ext pe request w2) as [[r3|e3] w3]; [|reflexivity].
  destruct (PolicyEngine.allowed r3); simpl; [|reflexivity].
  destruct (PolicyEngine.checkTokenLimits ext pe request w3) as [[r4|e4] w4]; [|reflexivity].
  destruct (PolicyEngine.allowed r4); reflexivity.
Qed.

(** A rejection found by the in-order evaluation names a limit of the
    kind of the check that rejected. *)
Lemma first_rejection_reason w k res w' :
  first_rejection (rule_order ext pe request) w = (Ok (Some k, res), w') ->
  PolicyEngine.allowed res = false /\
  names_limit_of k (req_network request) (PolicyEngine.reason res).
Proof.
  unfold rule_order, first_rejection, bind, ret.
  destruct (PolicyEngine.checkAllowlist pe request w) as [[r1|e1] w1] eqn:E1; [|discriminate].
  destruct (PolicyEngine.allowed r1) eqn:A1; simpl.
  2:{ intros H. injection H as <- <- <-. split; [exact A1|].
      eapply checkAllowlist_reasons; eassumption. }
  destruct (PolicyEngine.checkQuotas ext pe request w1) as [[r2|e2] w2] eqn:E2; [|discriminate].
  destruct (PolicyEngine.allowed r2) eqn:A2; simpl.
  2:{ intros H. injection H as <- <- <-. split; [exact A2|].
      eapply checkQuotas_reasons; eassumption. }
  destruct (PolicyEngine.checkGasLimits ext pe request w2) as [[r3|e3] w3] eqn:E3; [|discriminate].
  destruct (PolicyEngine.allowed r3) eqn:A3; simpl.
  2:{ intros H. injection H as <- <- <-. split; [exact A3|].
      eapply checkGasLimits_reasons; eassumption. }
  destruct (PolicyEngine.checkTokenLimits ext pe request w3) as [[r4|e4] w4] eqn:E4; [|discriminate].
  destruct (PolicyEngine.allowed r4) eqn:A4; simpl; [discriminate|].
  intros H. injection H as <- <- <-. split; [exact A4|].
  eapply checkTokenLimits_reasons; eassumption.
Qed.

(** When every check passes the in-order evaluation admits. *)
Lemma first_rejection_none w res w' :
  first_rejection (rule_order ext pe request) w = (Ok (None, res), w') ->
  res = PolicyEngine.allow.
Proof.
  unfold rule_order, first_rejection, bind, ret.
  repeat match goal with
         | |- context [match ?c w with _ => _ end] =>
             destruct (c w) as [[? | ?] ?]; [|discriminate]
         | |- context [match ?c ?w0 with _ => _ end] =>
             is_var w0; destruct (c w0) as [[? | ?] ?]; [|discriminate]
         | |- context [if negb (PolicyEngine.allowed ?r) then _ else _] =>
             destruct (PolicyEngine.allowed r); simpl; [|discriminate]
         end.
  intros H. injection H as <- _. reflexivity.
Qed.
End Reasons.

(** ** The first violated limit (C7) *)

Lemma first_finding_app a b :
  first_finding (a ++ b) =
  match first_finding a with Some f => Some f | None => first_finding b end.
Proof.
  induction a as [|[f|] a IH]; [reflexivity | reflexivity | exact IH].
Qed.

Lemma filter_implied {T} (p q : T -> bool) l :
  (forall x, p x = true -> q x = true) ->
  List.filter q (List.filter p l) = List.filter p l.
Proof.
  intros H. induction l as [|x l IH]; [reflexivity|]. cbn [List.filter].
  destruct (p x) eqn:E; [|exact IH]. cbn [List.filter]. rewrite (H x E), IH. reflexivity.
Qed.

Lemma live_hour_again now ms :
  live_members now PolicyEngine.oneHour (live_members now PolicyEngine.oneHour ms) =
  live_members now PolicyEngine.oneHour ms.
Proof. apply filter_implied. auto. Qed.

Lemma live_day_of_hour now ms :
  live_members now PolicyEngine.oneDay (live_members now PolicyEngine.oneHour ms) =
  live_members now PolicyEngine.oneHour ms.
Proof.
  apply filter_implied. intros m Hm.
  apply negb_true_iff in Hm. apply negb_true_iff.
  apply andb_false_iff in Hm. apply andb_false_iff.
  destruct Hm as [Hm|Hm]; [left; exact Hm|]. right.
  apply Z.leb_gt in Hm. apply Z.leb_gt.
  unfold PolicyEngine.oneDay, PolicyEngine.oneHour in *. lia.
Qed.

(** What the count reader returns and leaves behind: the hourly read on any
    world, the daily read on a counter that the hourly read has trimmed. *)
Lemma getTransactionCount_reads address network timeWindowMs w :
  let key := counter_key network address in
  timeWindowMs = PolicyEngine.oneHour \/
  (timeWindowMs = PolicyEngine.oneDay /\ hour_trimmed w key) ->
  exists w1,
    PolicyEngine.getTransactionCount address network timeWindowMs w =
      (Ok (recent_count w key), w1) /\
    clock w1 = clock w /\ redis_up w1 = redis_up w /\
    recent_count w1 key = recent_count w key /\
    hour_trimmed w1 key.
Proof.
  intros key Hwin.
  unfold PolicyEngine.getTransactionCount. fold (counter_key network address). fold key.
  unfold bind at 1. unfold Date_now. cbv beta iota.
  destruct (redis_up w) eqn:Hup.
  - destruct (window_of w key) as [ms|] eqn:Hms.
    + destruct (zRemRangeByScore_window key w ms Hup Hms 0 (clock w - timeWindowMs))
        as (n & w1 & Hrem & Hup1 & Hclk1 & Hwin1).
      fold (live_members (clock w) timeWindowMs ms) in Hwin1.
      assert (Hlive : live_members (clock w) timeWindowMs ms =
                      live_members (clock w) PolicyEngine.oneHour ms).
      { destruct Hwin as [-> | [-> Htrim]]; [reflexivity|].
        rewrite <- (Htrim Hup ms Hms) at 1. apply live_day_of_hour. }
      rewrite Hlive in Hwin1.
      eexists. split.
      { erewrite try_ok; [reflexivity|].
        mstep ltac:(exact Hrem).
        rewrite (zCard_window key w1 _ Hup1 Hwin1).
        unfold recent_count. rewrite Hup, Hms. reflexivity. }
      cbn [clock redis_up add_event]. split; [exact Hclk1|]. split; [congruence|].
      assert (Hwin2 : window_of (add_event (EvRedis "ZCARD" key) w1) key =
                      Some (live_members (clock w) PolicyEngine.oneHour ms)) by exact Hwin1.
      split.
      * unfold recent_count. cbn [clock redis_up add_event].
        rewrite Hup1, Hup, Hwin2, Hms, Hclk1, live_hour_again. reflexivity.
      * intros _ ms' Hms'. rewrite Hwin2 in Hms'. injection Hms' as <-.
        cbn [clock add_event]. rewrite Hclk1. apply live_hour_again.
    + assert (Hzero : recent_count w key = 0)
        by (unfold recent_count; rewrite Hup, Hms; reflexivity).
      rewrite Hzero.
      exists (add_event (EvRedis "ZREMRANGEBYSCORE" key) w). split.
      { erewrite try_throw; [reflexivity|].
        erewrite bind_throw; [reflexivity|].
        unfold Client.zRemRangeByScore.
        mstep ltac:(apply command_up; exact Hup). mstep ltac:(reflexivity).
        cbn [redis add_event]. unfold window_of in Hms.
        destruct (redis w !! key) as [[[s|l] ttl]|]; try discriminate. reflexivity. }
      split; [reflexivity|]. split; [exact Hup|]. split; [exact Hzero|].
      intros _ ms' Hms'. exfalso.
      assert (Hsame : window_of (add_event (EvRedis "ZREMRANGEBYSCORE" key) w) key =
                      window_of w key) by reflexivity.
      rewrite Hsame, Hms in Hms'. discriminate.
  - assert (Hzero : recent_count w key = 0)
      by (unfold recent_count; rewrite Hup; reflexivity).
    rewrite Hzero.
    exists (add_event (EvRedis "ZREMRANGEBYSCORE" key) w). split.
    { erewrite try_throw; [reflexivity|].
      erewrite bind_throw; [reflexivity|].
      unfold Client.zRemRangeByScore. erewrite bind_throw; [reflexivity|].
      unfold Client.command. mstep ltac:(reflexivity).
      cbn [redis_up add_event]. rewrite Hup. reflexivity. }
    split; [reflexivity|]. split; [exact Hup|]. split; [exact Hzero|].
    intros Hup'. cbn [redis_up add_event] in Hup'. congruence.
Qed.

Section Checks.
Variables (ext : Externals) (pe : PolicyEngine.t) (request : MetaTransactionRequest).

Lemma checkAllowlist_finds w :
  PolicyEngine.checkAllowlist pe request w =
  (outcome (req_network request) (first_finding (allowlist_findings pe request)), w).
Proof.
  unfold PolicyEngine.checkAllowlist, allowlist_findings, PolicyEngine.listed, JS.some.
  fold (on_list (req_from request)).
  destruct (PolicyEngine.allowlistRules pe !! "*") as [globalRule|].
  - fold (on_list (req_from request) (PolicyEngine.addresses globalRule)).
    destruct (on_list (req_from request) (PolicyEngine.addresses globalRule));
      [|reflexivity].
    destruct (PolicyEngine.allowlistRules pe !! req_network request) as [networkRule|];
      [|reflexivity].
    fold (on_list (req_from request) (PolicyEngine.addresses networkRule)).
    destruct (on_list (req_from request) (PolicyEngine.addresses networkRule)); reflexivity.
  - destruct (PolicyEngine.allowlistRules pe !! req_network request) as [networkRule|];
      [|reflexivity].
    fold (on_list (req_from request) (PolicyEngine.addresses networkRule)).
    destruct (on_list (req_from request) (PolicyEngine.addresses networkRule)); reflexivity.
Qed.

Lemma checkAddressQuota_finds address q w :
  let key := counter_key (req_network request) address in
  exists w',
    PolicyEngine.checkAddressQuota ext address request q w =
      (outcome (req_network request)
         (first_finding (quota_findings ext request (recent_count w key) (Some q))), w') /\
    clock w' = clock w /\ redis_up w' = redis_up w /\
    recent_count w' key = recent_count w key.
Proof.
  intros key. unfold PolicyEngine.checkAddressQuota.
  destruct (getTransactionCount_reads address (req_network request) PolicyEngine.oneHour w
              (or_introl eq_refl)) as (w1 & Hr1 & Hc1 & Hu1 & Hrc1 & Ht1).
  fold key in Hr1, Hrc1, Ht1.
  destruct (getTransactionCount_reads address (req_network request) PolicyEngine.oneDay w1
              (or_intror (conj eq_refl Ht1))) as (w2 & Hr2 & Hc2 & Hu2 & Hrc2 & _).
  fold key in Hr2, Hrc2. rewrite Hrc1 in Hr2.
  set (count := recent_count w key) in *.
  mstep ltac:(exact Hr1). cbn [quota_findings first_finding judge].
  destruct (count >=? PolicyEngine.maxTransactionsPerHour q).
  { exists w1. split; [reflexivity|]. auto. }
  mstep ltac:(exact Hr2).
  exists w2. split; [|repeat split; congruence].
  destruct (count >=? PolicyEngine.maxTransactionsPerDay q); [reflexivity|].
  cbv beta iota zeta delta [bind ret throw PolicyEngine.bigint
                            PolicyEngine.getTransactionValue exceeds].
  destruct (BigInt ext (req_value request)) as [txValue|]; [|reflexivity].
  destruct (BigInt ext (PolicyEngine.maxValuePerTransaction q)) as [maxTxValue|];
    [|reflexivity].
  destruct (txValue >? maxTxValue); [reflexivity|].
  destruct (BigInt ext (PolicyEngine.maxValuePerHour q)) as [maxHourly|]; [|reflexivity].
  change (0 + txValue) with txValue.
  destruct (txValue >? maxHourly); [reflexivity|].
  destruct (BigInt ext (PolicyEngine.maxValuePerDay q)) as [maxDaily|]; [|reflexivity].
  destruct (txValue >? maxDaily); reflexivity.
Qed.

Lemma check_then (m next : M PolicyEngine.PolicyResult) f1 f2 w w1 w2 :
  m w = (outcome (req_network request) f1, w1) ->
  next w1 = (outcome (req_network request) f2, w2) ->
  (do res <- m ; if negb (PolicyEngine.allowed res) then ret res else next)%M w =
  (outcome (req_network request) (match f1 with Some f => Some f | None => f2 end),
   match f1 with Some _ => w1 | None => w2 end).
Proof.
  intros Hm Hnext. unfold bind. rewrite Hm.
  destruct f1 as [[l|]|]; cbn [outcome PolicyEngine.allowed PolicyEngine.deny
                               PolicyEngine.allow negb]; [reflexivity | reflexivity |].
  exact Hnext.
Qed.

Lemma checkQuotas_finds w :
  let address := JS.toLowerCase (req_from request) in
  let count := recent_count w (counter_key (req_network request) address) in
  exists w',
    PolicyEngine.checkQuotas ext pe request w =
      (outcome (req_network request)
         (first_finding (quota_findings ext request count (PolicyEngine.quotaRules pe !! "*")
                         ++ quota_findings ext request count
                              (PolicyEngine.quotaRules pe !! address))), w').
Proof.
  intros address count. unfold PolicyEngine.checkQuotas, PolicyEngine.with_rule.
  fold address. rewrite first_finding_app.
  assert (Hsecond : forall w1,
            recent_count w1 (counter_key (req_network request) address) = count ->
            exists w2,
              match PolicyEngine.quotaRules pe !! address with
              | Some r =>
                  (do res <- PolicyEngine.checkAddressQuota ext address request r ;
                   if negb (PolicyEngine.allowed res) then ret res
                   else ret PolicyEngine.allow)%M
              | None => ret PolicyEngine.allow
              end w1 =
              (outcome (req_network request)
                 (first_finding (quota_findings ext request count
                                   (PolicyEngine.quotaRules pe !! address))), w2)).
  { intros w1 Hrc. destruct (PolicyEngine.quotaRules pe !! address) as [addressRule|].
    - destruct (checkAddressQuota_finds address addressRule w1) as (w2 & Hq2 & _).
      rewrite Hrc in Hq2.
      eexists. rewrite (check_then _ (ret PolicyEngine.allow) _ None w1 w2 w2 Hq2 eq_refl).
      destruct (first_finding _); reflexivity.
    - exists w1. reflexivity. }
  destruct (PolicyEngine.quotaRules pe !! "*") as [globalRule|].
  - destruct (checkAddressQuota_finds address globalRule w) as (w1 & Hq1 & _ & _ & Hrc1).
    fold count in Hq1, Hrc1.
    destruct (Hsecond w1 Hrc1) as (w2 & Hq2).
    eexists. apply (check_then _ _ _ _ w w1 w2 Hq1 Hq2).
  - destruct (Hsecond w eq_refl) as (w2 & Hq2). exists w2. exact Hq2.
Qed.

Lemma checkGasLimits_finds w :
  PolicyEngine.checkGasLimits ext pe request w =
  (outcome (req_network request) (first_finding (gas_findings ext pe request)), w).
Proof.
  unfold PolicyEngine.checkGasLimits, PolicyEngine.with_rule, PolicyEngine.checkGasLimit,
    gas_findings.
  cbv beta iota zeta delta [bind ret throw PolicyEngine.bigint exceeds].
  destruct (PolicyEngine.gasLimitRules pe !! "*") as [globalRule|];
    destruct (PolicyEngine.gasLimitRules pe !! req_network request) as [networkRule|];
    destruct (BigInt ext (req_gas request)) as [gasLimit|]; try reflexivity.
  - destruct (BigInt ext (PolicyEngine.maxGasLimit globalRule)) as [m1|]; [|reflexivity].
    destruct (gasLimit >? m1); [reflexivity|].
    destruct (BigInt ext (PolicyEngine.maxGasLimit networkRule)) as [m2|]; [|reflexivity].
    destruct (gasLimit >? m2); reflexivity.
  - destruct (BigInt ext (PolicyEngine.maxGasLimit globalRule)) as [m1|]; [|reflexivity].
    destruct (gasLimit >? m1); reflexivity.
  - destruct (BigInt ext (PolicyEngine.maxGasLimit networkRule)) as [m2|]; [|reflexivity].
    destruct (gasLimit >? m2); reflexivity.
Qed.

Lemma checkTokenAmountLimits_finds address token amount network rule w :
  PolicyEngine.checkTokenAmountLimits ext address token amount network rule w =
  (outcome (req_network request)
     (first_finding
        [ judge MaxAmountPerTransaction
            (exceeds_token ext amount (PolicyEngine.maxAmountPerTransaction rule !! token));
          judge MaxAmountPerHour
            (exceeds_token ext amount (PolicyEngine.maxAmountPerHour rule !! token));
          judge MaxAmountPerDay
            (exceeds_token ext amount (PolicyEngine.maxAmountPerDay rule !! token)) ]), w).
Proof.
  unfold PolicyEngine.checkTokenAmountLimits.
  cbv beta iota zeta delta [bind ret throw PolicyEngine.bigint PolicyEngine.over_limit
                            JS.truthy_opt PolicyEngine.getTokenTransactionAmount
                            exceeds_token default from_option Datatypes.id].
  destruct (BigInt ext amount) as [txAmount|]; [|reflexivity].
  change (0 + txAmount) with txAmount.
  destruct (PolicyEngine.maxAmountPerTransaction rule !! token) as [l1|];
    [destruct (JS.truthy l1);
     [destruct (BigInt ext l1) as [m1|]; [destruct (txAmount >? m1)|]|]|];
    try reflexivity;
    (destruct (PolicyEngine.maxAmountPerHour rule !! token) as [l2|];
     [destruct (JS.truthy l2);
      [destruct (BigInt ext l2) as [m2|]; [destruct (txAmount >? m2)|]|]|];
     try reflexivity;
     (destruct (PolicyEngine.maxAmountPerDay rule !! token) as [l3|];
      [destruct (JS.truthy l3);
       [destruct (BigInt ext l3) as [m3|]; [destruct (txAmount >? m3)|]|]|];
      reflexivity)).
Qed.

Lemma checkTokenLimits_finds w :
  PolicyEngine.checkTokenLimits ext pe request w =
  (outcome (req_network request) (first_finding (token_findings ext pe request)), w).
Proof.
  unfold PolicyEngine.checkTokenLimits, token_findings.
  destruct (req_tokenAddress request) as [token|]; [|reflexivity].
  destruct (req_amount request) as [amount|]; [|reflexivity].
  destruct (JS.truthy token && JS.truthy amount)%bool; cbn [negb].
  2:{ destruct (PolicyEngine.tokenLimitRules pe !! "*"); reflexivity. }
  destruct (PolicyEngine.tokenLimitRules pe !! "*") as [rule|]; [|reflexivity].
  cbv zeta. unfold JS.some.
  replace (0 <? Z.of_nat (length (PolicyEngine.allowedTokens rule)))
    with (negb (Nat.eqb (length (PolicyEngine.allowedTokens rule)) 0))
    by (destruct (PolicyEngine.allowedTokens rule); reflexivity).
  match goal with
  | |- _ = (outcome _ (first_finding (_ :: ?rest)), _) => set (amounts := rest)
  end.
  destruct (negb (Nat.eqb (length (PolicyEngine.allowedTokens rule)) 0) &&
            negb (existsb _ (PolicyEngine.allowedTokens rule)))%bool; [reflexivity|].
  change (first_finding (judge AllowedTokens (Some false) :: amounts))
    with (first_finding amounts).
  subst amounts.
  rewrite (check_then _ (ret PolicyEngine.allow) _ None w w w
             (checkTokenAmountLimits_finds _ _ _ _ _ w) eq_refl).
  destruct (first_finding _); reflexivity.
Qed.

(** The verdict of the engine is the one of the first finding. *)
Lemma checkPolicies_finds w :
  PolicyEngine.isInitialized pe = true ->
  exists w',
    PolicyEngine.checkPolicies ext pe request w =
    (Ok (verdict (req_network request) (first_finding (findings ext pe request w))), w').
Proof.
  intros Hinit. unfold PolicyEngine.checkPolicies, findings. rewrite Hinit.
  cbn [negb]. cbv iota zeta.
  destruct (checkQuotas_finds w) as (w2 & Hq). cbv zeta in Hq.
  set (A := allowlist_findings pe request).
  set (Q1 := quota_findings ext request _ (PolicyEngine.quotaRules pe !! "*")) in *.
  set (Q2 := quota_findings ext request _
               (PolicyEngine.quotaRules pe !! JS.toLowerCase (req_from request))) in *.
  set (G := gas_findings ext pe request).
  set (T := token_findings ext pe request).
  replace (A ++ Q1 ++ Q2 ++ G ++ T)%list with (A ++ (Q1 ++ Q2) ++ G ++ T)%list
    by (rewrite <- (app_assoc Q1 Q2); reflexivity).
  rewrite (first_finding_app A), (first_finding_app (Q1 ++ Q2)), (first_finding_app G).
  pose proof (check_then _ (ret PolicyEngine.allow) _ None w2 w2 w2
                (checkTokenLimits_finds w2) eq_refl) as H4.
  pose proof (check_then _ _ _ _ w2 w2 _ (checkGasLimits_finds w2) H4) as H3.
  pose proof (check_then _ _ _ _ w w2 _ Hq H3) as H2.
  pose proof (check_then _ _ _ _ w w _ (checkAllowlist_finds w) H2) as H1.
  fold A G T in H1.
  exists (match first_finding A with Some _ => w | None => w2 end).
  unfold try_catch. rewrite H1. clear.
  generalize (first_finding A) as fa. generalize (first_finding (Q1 ++ Q2)) as fq.
  generalize (first_finding G) as fg. generalize (first_finding T) as ft.
  intros [[l4|]|] [[l3|]|] [[l2|]|] [[l1|]|]; reflexivity.
Qed.
End Checks.

(** C7: the engine evaluates allowlist, then quota, then gas limit, then
    token limit, and stops at the first check that rejects: the result and
    the world of [checkPolicies] are those of the in-order evaluation that
    consults nothing after the first rejection, and the returned reason
    names a limit of the kind of the check that rejected. And the result is
    decided by the first limit, in that order, that the request violates:
    a sender missing from an allowlist, a count of the last hour that has
    reached a transaction limit, a value, gas or token amount above its
    limit, a token outside the allowed list. The request is rejected with
    the reason of exactly that limit, it is allowed when no limit is
    violated, and a number that does not parse on the way rejects it with
    [Policy check failed]. *)
Theorem checkPolicies_first_rejection_wins ext pe request w :
  PolicyEngine.isInitialized pe = true ->
  match first_rejection (rule_order ext pe request) w with
  | (Ok (Some k, res), w') =>
      PolicyEngine.checkPolicies ext pe request w = (Ok res, w') /\
      PolicyEngine.allowed res = false /\
      names_limit_of k (req_network request) (PolicyEngine.reason res)
  | (Ok (None, _), w') =>
      PolicyEngine.checkPolicies ext pe request w = (Ok PolicyEngine.allow, w')
  | (Throw _, w') =>
      PolicyEngine.checkPolicies ext pe request w =
      (Ok (PolicyEngine.deny "Policy check failed"), w')
  end /\
  exists w',
    PolicyEngine.checkPolicies ext pe request w =
    (Ok (verdict (req_network request) (first_finding (findings ext pe request w))), w').
Proof.
  intros Hinit. split; [|apply checkPolicies_finds; exact Hinit].
  rewrite (checkPolicies_in_order ext pe request w Hinit).
  destruct (first_rejection (rule_order ext pe request) w) as [[[[k|] res]|e] w'] eqn:E.
  - split; [reflexivity|]. eapply first_rejection_reason, E.
  - rewrite (first_rejection_none _ _ _ _ _ _ E). reflexivity.
  - reflexivity.
Qed.

Lemma checkPolicies_first_rejection_wins_witness :
  let pe := Demo.engine
              {[ "*" := PolicyEngine.mkQuota 10 100 "1000" "10000" "100000" ]}
              {[ "*" := PolicyEngine.mkGas "50000" "100000000000" ]} in
  let request := Demo.request "10" "100000" "0" in
  first_finding (findings Demo.ext pe request (Demo.world ∅ [])) =
    Some (Violated GlobalMaxGasLimit) /\
  exists w',
    PolicyEngine.checkPolicies Demo.ext pe request (Demo.world ∅ []) =
      (Ok (PolicyEngine.deny "Gas limit exceeds maximum allowed"), w') /\
    names_limit_of KGasLimit "localhost" (Some "Gas limit exceeds maximum allowed").
Proof.
  intros pe request.
  assert (Hfirst : first_finding (findings Demo.ext pe request (Demo.world ∅ [])) =
                   Some (Violated GlobalMaxGasLimit)) by (vm_compute; reflexivity).
  split; [exact Hfirst|].
  destruct (checkPolicies_first_rejection_wins Demo.ext pe request (Demo.world ∅ [])
              eq_refl) as [H (w2 & Hverdict)].
  rewrite Hfirst in Hverdict.
  destruct (first_rejection (rule_order Demo.ext pe request) (Demo.world ∅ []))
    as [[[[k|] res]|e] w'] eqn:E; vm_compute in E; try discriminate E.
  injection E as <- <- <-. destruct H as (H & _ & Hn).
  exists w2. split; [exact Hverdict | exact Hn].
Defined.

(** ** Exceptions during the policy checks (C10) *)

(** C10, as the code behaves: an initialised engine never lets an exception
    out of [checkPolicies]; when an exception escapes one of the four rule
    checks (a number that does not parse in the request or in a rule), the
    result is the rejection [Policy check failed]. A counter-cache read
    error does not escape: the count reader catches it and reports a count
    that is 0 when Redis is unreachable, so the check goes on. *)
Theorem checkPolicies_rejects_when_a_check_throws ext pe request w :
  PolicyEngine.isInitialized pe = true ->
  (exists res w', PolicyEngine.checkPolicies ext pe request w = (Ok res, w')) /\
  (forall e w',
      first_rejection (rule_order ext pe request) w = (Throw e, w') ->
      PolicyEngine.checkPolicies ext pe request w =
      (Ok (PolicyEngine.deny "Policy check failed"), w')) /\
  (forall address net window,
      exists c w', PolicyEngine.getTransactionCount address net window w = (Ok c, w') /\
                   (redis_up w = false -> c = 0)).
Proof.
  intros Hinit. rewrite (checkPolicies_in_order ext pe request w Hinit).
  split; [|split].
  - destruct (first_rejection _ w) as [[[k res]|e] w']; eauto.
  - intros e w' ->. reflexivity.
  - intros address net window.
    unfold PolicyEngine.getTransactionCount. unfold bind at 1. unfold Date_now.
    cbv beta iota. unfold try_catch.
    match goal with |- context [match ?m w with _ => _ end] =>
      destruct (m w) as [[c|e] w1] eqn:E end.
    + exists c, w1. split; [reflexivity|]. intros Hdown. exfalso.
      unfold Client.zRemRangeByScore, Client.command, bind, log_event, modify in E.
      cbn [redis_up add_event] in E. rewrite Hdown in E. discriminate E.
    + exists 0, w1. split; [reflexivity | reflexivity].
Qed.

Lemma checkPolicies_rejects_when_a_check_throws_witness :
  let pe := PolicyEngine.mkEngine ∅ ∅ ∅
              {[ "*" := PolicyEngine.mkToken [] ∅ ∅ ∅ ]} true in
  let request := mkReq Demo.alice Demo.bob "10" "100000" "0" "0x"
                       ("signed-by:" ++ Demo.alice) "localhost"
                       (Some Demo.bob) (Some ERC20) (Some "ten") None in
  PolicyEngine.checkPolicies Demo.ext pe request (Demo.world ∅ []) =
  (Ok (PolicyEngine.deny "Policy check failed"), Demo.world ∅ []).
Proof.
  intros pe request.
  destruct (checkPolicies_rejects_when_a_check_throws Demo.ext pe request
              (Demo.world ∅ []) eq_refl) as (_ & H & _).
  eapply H. vm_compute. reflexivity.
Defined.

(** C10 as stated fails: with three relays counted in the last hour and an
    hourly limit of two the request is rejected, but when the counter cache
    cannot be read the same request is admitted. *)
Lemma counter_read_error_admits_request :
  let pe := Demo.engine
              {[ "*" := PolicyEngine.mkQuota 2 100 "1000" "10000" "100000" ]} ∅ in
  let request := Demo.request "10" "100000" "0" in
  let key := JS.concat ["tx_count:"; "localhost"; ":"; JS.toLowerCase Demo.alice] in
  let w := Demo.world
             {[ key := mkEntry (RZSet [(1699999000000, "a"); (1699999100000, "b");
                                       (1699999200000, "c")]) None ]} [] in
  fst (PolicyEngine.checkPolicies Demo.ext pe request w) =
    Ok (PolicyEngine.deny "Hourly transaction limit exceeded") /\
  fst (PolicyEngine.checkPolicies Demo.ext pe request (Demo.redis_down w)) =
    Ok PolicyEngine.allow.
Proof. split; vm_compute; reflexivity. Qed.

(** ** The status of a transaction record (C6) *)

Lemma update_rows_found now txHash u rows r0 :
  List.find (fun r => String.eqb (tx_hash r) txHash) rows = Some r0 ->
  exists rows',
    DatabaseService.update_rows now txHash u rows =
      (rows', Some (DatabaseService.apply_updates now u r0)) /\
    In (DatabaseService.apply_updates now u r0) rows' /\
    length rows' = length rows.
Proof.
  induction rows as [|r rows IH]; simpl; [discriminate|].
  destruct (String.eqb (tx_hash r) txHash).
  - intros H. injection H as <-. eexists. split; [reflexivity|].
    split; [left; reflexivity | reflexivity].
  - intros H. destruct (IH H) as (rows' & -> & Hin & Hlen).
    eexists. split; [reflexivity|]. split; [right; exact Hin | simpl; congruence].
Qed.

(** C6, as the code behaves: every record the pipeline saves is [pending];
    and the store applies an update whose values fit their columns to the
    record with the given hash whatever its current status: no guard
    restricts updates to pending records, so a record in a terminal state is
    rewritten like any other, its status included. *)
Theorem updateTransaction_is_unguarded :
  (forall ext config svc request w r w' pre rec post,
      RelayerService.relayTransaction ext config svc request w = (r, w') ->
      trace w' = (trace w ++ pre ++ EvSaveTransaction rec :: post)%list ->
      status rec = pending) /\
  (forall txHash updates w r0,
      db_up w = true ->
      updates_fit updates = true ->
      DatabaseService.no_keys updates = false ->
      DatabaseService.hash_collides txHash updates (transactions w) = false ->
      List.find (fun r => String.eqb (tx_hash r) txHash) (transactions w) = Some r0 ->
      let r1 := DatabaseService.apply_updates (clock w) updates r0 in
      exists w',
        DatabaseService.updateTransaction txHash updates w = (Ok (Some r1), w') /\
        In r1 (transactions w') /\
        (forall s, u_status updates = Some s -> status r1 = s)).
Proof.
  split.
  - intros ext config svc request w r w' pre rec post Hrun Htrace.
    apply (relay_save_event _ _ _ _ _ _ _ _ _ _ Hrun Htrace).
  - intros txHash updates w r0 Hup _ Hkeys Hcol Hfind r1.
    unfold DatabaseService.updateTransaction, DatabaseService.connect_client, bind,
      get_world, modify, ret.
    rewrite Hup, Hkeys, Hcol.
    destruct (update_rows_found (clock w) txHash updates _ _ Hfind) as (rows' & -> & Hin & _).
    eexists. split; [reflexivity|]. split; [exact Hin|].
    intros s Hs. subst r1. simpl. rewrite Hs. reflexivity.
Qed.

Lemma updateTransaction_is_unguarded_witness :
  let w := Demo.world ∅ [Demo.row "0xabc" failed] in
  exists w',
    DatabaseService.updateTransaction "0xabc" (Demo.set_status confirmed) w =
      (Ok (Some (DatabaseService.apply_updates (clock w) (Demo.set_status confirmed)
                   (Demo.row "0xabc" failed))), w') /\
    status (DatabaseService.apply_updates (clock w) (Demo.set_status confirmed)
              (Demo.row "0xabc" failed)) = confirmed.
Proof.
  intros w.
  destruct (proj2 updateTransaction_is_unguarded "0xabc"
              (Demo.set_status confirmed) w (Demo.row "0xabc" failed)
              eq_refl eq_refl eq_refl eq_refl eq_refl) as (w' & Hrun & _ & Hs).
  exists w'. split; [exact Hrun | apply Hs; reflexivity].
Defined.

(** C6 as stated fails: a record in the terminal state [confirmed] is put
    back to [pending] by [updateTransaction], and the table holds the
    modified record afterwards. *)
Lemma terminal_record_is_modified :
  let w := Demo.world ∅ [Demo.row "0xabc" confirmed] in
  let out := DatabaseService.updateTransaction "0xabc" (Demo.set_status pending) w in
  option_map status (List.find (fun r => String.eqb (tx_hash r) "0xabc") (transactions w))
    = Some confirmed /\
  (exists r1, fst out = Ok (Some r1) /\ status r1 = pending) /\
  option_map status
    (List.find (fun r => String.eqb (tx_hash r) "0xabc") (transactions (snd out)))
    = Some pending.
Proof.
  intros w out. split; [reflexivity|]. split.
  - eexists. split; reflexivity.
  - reflexivity.
Qed.

(** ** Counters after a relay (C5) *)

#[local] Instance counters_not_advanced_preorder : PreOrder counters_not_advanced.
Proof.
  split.
  - intros w key ms ttl H. exists ms, ttl. split; [exact H | lia].
  - intros w1 w2 w3 H12 H23 key ms3 ttl3 H3.
    destruct (H23 _ _ _ H3) as (ms2 & ttl2 & H2 & Hle2).
    destruct (H12 _ _ _ H2) as (ms1 & ttl1 & H1 & Hle1).
    exists ms1, ttl1. split; [exact H1 | lia].
Qed.

Lemma counters_same_redis w w' : redis w' = redis w -> counters_not_advanced w w'.
Proof. intros Heq key ms ttl H. rewrite Heq in H. exists ms, ttl. split; [exact H | lia]. Qed.

Lemma counters_insert_string w w' key s ttl :
  redis w' = <[key := mkEntry (RString s) ttl]> (redis w) ->
  counters_not_advanced w w'.
Proof.
  intros Heq k ms t H. rewrite Heq in H.
  destruct (decide (key = k)) as [->|Hne].
  - rewrite lookup_insert_eq in H. discriminate.
  - rewrite lookup_insert_ne in H by exact Hne. exists ms, t. split; [exact H | lia].
Qed.

Lemma counters_insert_shrunk w w' key ms0 ttl0 ms1 ttl1 :
  redis w !! key = Some (mkEntry (RZSet ms0) ttl0) ->
  (length ms1 <= length ms0)%nat ->
  redis w' = <[key := mkEntry (RZSet ms1) ttl1]> (redis w) ->
  counters_not_advanced w w'.
Proof.
  intros H0 Hle Heq k ms t H. rewrite Heq in H.
  destruct (decide (key = k)) as [->|Hne].
  - rewrite lookup_insert_eq in H. injection H as <- <-. eauto.
  - rewrite lookup_insert_ne in H by exact Hne. exists ms, t. split; [exact H | lia].
Qed.

Lemma counters_delete w w' key :
  redis w' = delete key (redis w) -> counters_not_advanced w w'.
Proof.
  intros Heq k ms t H. rewrite Heq in H.
  destruct (decide (key = k)) as [->|Hne].
  - rewrite lookup_delete_eq in H. discriminate.
  - rewrite lookup_delete_ne in H by exact Hne. exists ms, t. split; [exact H | lia].
Qed.

Ltac client_cases :=
  intros w; unfold Client.command, Client.wrongtype, bind, log_event, modify, get_world,
              ret, throw;
  cbn [redis_up redis add_event set_redis fst snd];
  destruct (redis_up w); cbn [fst snd redis add_event set_redis];
  [ | apply counters_same_redis; reflexivity ].

Section ClientCounters.
Variable key : string.

Lemma counters_get : preserves counters_not_advanced (Client.get key).
Proof.
  unfold Client.get. client_cases.
  destruct (redis w !! key) as [[[s|ms] ttl]|];
    apply counters_same_redis; reflexivity.
Qed.

Lemma counters_set value : preserves counters_not_advanced (Client.set key value).
Proof.
  unfold Client.set. client_cases.
  eapply counters_insert_string. reflexivity.
Qed.

Lemma counters_setEx ttl value :
  preserves counters_not_advanced (Client.setEx key ttl value).
Proof.
  unfold Client.setEx. client_cases.
  eapply counters_insert_string. reflexivity.
Qed.

Lemma counters_expire ttl : preserves counters_not_advanced (Client.expire key ttl).
Proof.
  unfold Client.expire. client_cases.
  destruct (redis w !! key) as [[[s|ms] ttl0]|] eqn:E; cbn [fst snd rvalue].
  - eapply counters_insert_string. reflexivity.
  - eapply counters_insert_shrunk; [exact E | reflexivity | reflexivity].
  - apply counters_same_redis. reflexivity.
Qed.

Lemma counters_incr : preserves counters_not_advanced (Client.incr key).
Proof.
  unfold Client.incr. client_cases.
  destruct (redis w !! key) as [[[s|ms] ttl0]|] eqn:E; cbn [fst snd].
  - destruct (Client.int_of_value s) as [z|]; [destruct (z <? Client.int64_max)|];
      cbn [fst snd];
      first [ eapply counters_insert_string; reflexivity
            | apply counters_same_redis; reflexivity ].
  - apply counters_same_redis. reflexivity.
  - eapply counters_insert_string. reflexivity.
Qed.

Lemma counters_zRemRangeByScore lo hi :
  preserves counters_not_advanced (Client.zRemRangeByScore key lo hi).
Proof.
  unfold Client.zRemRangeByScore. client_cases.
  destruct (redis w !! key) as [[[s|ms] ttl0]|] eqn:E; cbn [fst snd].
  - apply counters_same_redis. reflexivity.
  - destruct (List.filter _ ms) as [|m keep] eqn:F; cbn [fst snd].
    + eapply counters_delete. reflexivity.
    + eapply counters_insert_shrunk; [exact E | | reflexivity].
      rewrite <- F. apply List.filter_length_le.
  - apply counters_same_redis. reflexivity.
Qed.

Lemma counters_zCard : preserves counters_not_advanced (Client.zCard key).
Proof.
  unfold Client.zCard. client_cases.
  destruct (redis w !! key) as [[[s|ms] ttl0]|];
    apply counters_same_redis; reflexivity.
Qed.
End ClientCounters.

Ltac steady :=
  repeat first
    [ preserves_step
    | apply counters_get | apply counters_set | apply counters_setEx
    | apply counters_expire | apply counters_incr
    | apply counters_zRemRangeByScore | apply counters_zCard
    | lazymatch goal with
      | |- preserves ?R (log_event _) => unfold log_event
      | |- preserves ?R (modify _) =>
          refine (preserves_modify R _ _); intros ?;
          apply counters_same_redis; reflexivity
      | |- preserves ?R (ask _ _) =>
          refine (preserves_ask R _ _ _); intros ?;
          apply counters_same_redis; reflexivity
      | |- preserves ?R (fun _ => _) =>
          refine (preserves_fun R _ _); intros ?;
          solve [ reflexivity | repeat case_match; reflexivity ]
      end ].

Create HintDb pipeline.
#[local] Hint Unfold
  RedisService.getNextNonce RedisService.setNonce RedisService.getCurrentNonce
  RedisService.trackPendingTransaction
  DatabaseService.saveTransaction DatabaseService.connect_client
  PolicyEngine.bigint PolicyEngine.checkAllowlist PolicyEngine.getTransactionCount
  PolicyEngine.getTransactionValue PolicyEngine.getTokenTransactionAmount
  PolicyEngine.checkAddressQuota PolicyEngine.with_rule PolicyEngine.checkQuotas
  PolicyEngine.checkGasLimit PolicyEngine.checkGasLimits PolicyEngine.over_limit
  PolicyEngine.checkTokenAmountLimits PolicyEngine.checkTokenLimits
  PolicyEngine.checkPolicies
  RelayerService.bigint RelayerService.validateRequest
  RelayerService.verifyMetaTransactionSignature RelayerService.simulateTransaction
  RelayerService.getOptimalGasPrice RelayerService.estimateGas
  RelayerService.getNextNonce RelayerService.submit
  RelayerService.relayTransaction : pipeline.

(** C5, as the code behaves: no run of [relayTransaction], successful or
    not, adds a member to any sorted set of the counter cache: every sorted
    set found after the run was there before with at least as many members.
    The per-address transaction count that the quota check reads is
    therefore never advanced by a relay. *)
Theorem relayTransaction_records_no_counter ext config svc request w :
  counters_not_advanced w
    (snd (RelayerService.relayTransaction ext config svc request w)).
Proof.
  revert w. change (preserves counters_not_advanced
                      (RelayerService.relayTransaction ext config svc request)).
  autounfold with pipeline. steady.
Qed.

(** The third end-to-end scenario of the specification on the code: with an
    hourly limit of two transactions, three relays from the same address
    within the hour all succeed, and the address's counter key is still
    absent after the third. *)
Example hourly_quota_is_never_exhausted :
  let svc := Demo.service (Demo.provider 1000000000 50000 5)
               {[ "*" := PolicyEngine.mkQuota 2 100 "1000" "10000" "100000" ]} ∅ in
  let relay userNonce w :=
    RelayerService.relayTransaction Demo.ext Demo.config svc
      (Demo.request "10" "100000" userNonce) w in
  let out1 := relay "0" (Demo.world (Demo.cursor 5) []) in
  let out2 := relay "1" (snd out1) in
  let out3 := relay "2" (snd out2) in
  option_map RelayerService.success
    (match fst out1 with Ok res => Some res | Throw _ => None end) = Some true /\
  option_map RelayerService.success
    (match fst out2 with Ok res => Some res | Throw _ => None end) = Some true /\
  option_map RelayerService.success
    (match fst out3 with Ok res => Some res | Throw _ => None end) = Some true /\
  length (transactions (snd out3)) = 3%nat /\
  redis (snd out3) !!
    JS.concat ["tx_count:"; "localhost"; ":"; JS.toLowerCase Demo.alice] = None.
Proof. repeat split; vm_compute; reflexivity. Qed.

(** ** Value sums of the quota check (C4) *)

(** C4, as the code behaves: once the two count checks have passed, the
    verdict of the quota check depends on the request's own value alone: the
    hourly and daily value sums it projects are 0 plus that value, whatever
    was relayed before. *)
Theorem checkAddressQuota_projects_own_value_only
    ext address request rule w c1 w1 c2 w2 v maxTx maxHour maxDay :
  PolicyEngine.getTransactionCount address (req_network request)
    PolicyEngine.oneHour w = (Ok c1, w1) ->
  c1 < PolicyEngine.maxTransactionsPerHour rule ->
  PolicyEngine.getTransactionCount address (req_network request)
    PolicyEngine.oneDay w1 = (Ok c2, w2) ->
  c2 < PolicyEngine.maxTransactionsPerDay rule ->
  BigInt ext (req_value request) = Some v ->
  BigInt ext (PolicyEngine.maxValuePerTransaction rule) = Some maxTx ->
  BigInt ext (PolicyEngine.maxValuePerHour rule) = Some maxHour ->
  BigInt ext (PolicyEngine.maxValuePerDay rule) = Some maxDay ->
  PolicyEngine.checkAddressQuota ext address request rule w =
  (Ok (if v >? maxTx then PolicyEngine.deny "Transaction value exceeds limit"
       else if v >? maxHour then PolicyEngine.deny "Hourly value limit would be exceeded"
       else if v >? maxDay then PolicyEngine.deny "Daily value limit would be exceeded"
       else PolicyEngine.allow), w2).
Proof.
  intros H1 Hc1 H2 Hc2 Hv Htx Hhour Hday.
  unfold PolicyEngine.checkAddressQuota.
  mstep ltac:(exact H1).
  replace (c1 >=? PolicyEngine.maxTransactionsPerHour rule) with false
    by (symmetry; rewrite Z.geb_leb; apply Z.leb_gt; lia).
  mstep ltac:(exact H2).
  replace (c2 >=? PolicyEngine.maxTransactionsPerDay rule) with false
    by (symmetry; rewrite Z.geb_leb; apply Z.leb_gt; lia).
  unfold PolicyEngine.bigint, PolicyEngine.getTransactionValue.
  rewrite Hv, Htx, Hhour, Hday. unfold bind, ret. cbv beta iota.
  destruct (v >? maxTx); [reflexivity|].
  change (0 + v) with v.
  destruct (v >? maxHour); [reflexivity|].
  destruct (v >? maxDay); reflexivity.
Qed.

Lemma checkAddressQuota_projects_own_value_only_witness :
  let rule := PolicyEngine.mkQuota 10 100 "100" "100" "1000" in
  let request := Demo.request "80" "100000" "1" in
  let w := Demo.world ∅ [Demo.row "0xabc" pending] in
  exists w2,
    PolicyEngine.checkAddressQuota Demo.ext (JS.toLowerCase Demo.alice) request rule w =
    (Ok PolicyEngine.allow, w2).
Proof.
  intros rule request w. eexists.
  refine (checkAddressQuota_projects_own_value_only Demo.ext (JS.toLowerCase Demo.alice)
            request rule w 0 _ 0 _ 80 100 100 1000 _ _ _ _ _ _ _ _).
  - vm_compute. reflexivity.
  - vm_compute. reflexivity.
  - vm_compute. reflexivity.
  - vm_compute. reflexivity.
  - vm_compute. reflexivity.
  - vm_compute. reflexivity.
  - vm_compute. reflexivity.
  - vm_compute. reflexivity.
Defined.

(** With an hourly value limit of 100, two relays of value 80 from the same
    address within the hour are both admitted and broadcast. *)
Example hourly_value_limit_is_not_enforced :
  let svc := Demo.service (Demo.provider 1000000000 50000 5)
               {[ "*" := PolicyEngine.mkQuota 10 100 "100" "100" "1000" ]} ∅ in
  let relay userNonce w :=
    RelayerService.relayTransaction Demo.ext Demo.config svc
      (Demo.request "80" "100000" userNonce) w in
  let out1 := relay "0" (Demo.world (Demo.cursor 5) []) in
  let out2 := relay "1" (snd out1) in
  option_map RelayerService.success
    (match fst out1 with Ok res => Some res | Throw _ => None end) = Some true /\
  option_map RelayerService.success
    (match fst out2 with Ok res => Some res | Throw _ => None end) = Some true /\
  length (List.filter is_submission (trace (snd out2))) = 2%nat.
Proof. repeat split; vm_compute; reflexivity. Qed.

(** ** Sequence numbers (C1) *)

(** C1, as the code behaves: from an uninitialised cursor, the first
    acquisition stores the on-chain pending count [n] and returns it without
    advancing the cursor, so the second acquisition increments the cursor to
    [n + 1] and returns [n] again: two acquisitions on the same
    (relayer address, network) return the same number. *)
Theorem getNextNonce_repeats_the_first_number
    ext config signer provider network w address n :
  redis_up w = true ->
  s_getAddress signer = Ok address ->
  redis w !! RedisService.nonceKey config address network = None ->
  (forall tr, p_getTransactionCount provider tr address = Ok n) ->
  0 <= n < Client.int64_max ->
  exists w1 w2,
    RelayerService.getNextNonce ext config signer provider network w = (Ok n, w1) /\
    RelayerService.getNextNonce ext config signer provider network w1 = (Ok n, w2).
Proof.
  intros Hup Haddr Hnone Hcount Hn.
  set (key := RedisService.nonceKey config address network) in *.
  assert (Hrange : Client.int64_min <= n <= Client.int64_max)
    by (unfold Client.int64_min, Client.int64_max in *; lia).
  assert (Hfirst : RedisService.getCurrentNonce ext config address network w =
                   (Ok None, add_event (EvRedis "GET" key) w)).
  { unfold RedisService.getCurrentNonce. fold key.
    mstep ltac:(apply get_absent; assumption). reflexivity. }
  assert (Hset : forall w0, redis_up w0 = true ->
            RedisService.setNonce config address network n w0 =
            (Ok tt, set_redis (insert key (mkEntry (RString (JS.toString n)) (Some 3600)))
                      (add_event (EvRedis "EXPIRE" key)
                        (set_redis (insert key (mkEntry (RString (JS.toString n)) None))
                           (add_event (EvRedis "SET" key) w0))))).
  { intros w0 H0. unfold RedisService.setNonce. fold key.
    mstep ltac:(apply set_up; exact H0).
    mstep ltac:(eapply expire_present; [exact H0 | simpl; apply lookup_insert_eq]).
    reflexivity. }
  eexists. eexists. split.
  - unfold RelayerService.getNextNonce, lift. rewrite Haddr.
    mstep ltac:(reflexivity).
    mstep ltac:(exact Hfirst).
    mstep ltac:(unfold ask; rewrite Hcount; reflexivity).
    mstep ltac:(apply Hset; exact Hup).
    reflexivity.
  - unfold RelayerService.getNextNonce, lift. rewrite Haddr.
    mstep ltac:(reflexivity).
    mstep ltac:(unfold RedisService.getCurrentNonce; fold key;
                mstep ltac:(eapply get_string; [exact Hup | simpl; apply lookup_insert_eq]);
                rewrite toString_truthy; reflexivity).
    unfold RedisService.getNextNonce. fold key.
    mstep ltac:(eapply incr_string;
                [exact Hup | simpl; apply lookup_insert_eq
                | apply int_of_value_toString; exact Hrange | lia]).
    mstep ltac:(eapply expire_present; [exact Hup | simpl; apply lookup_insert_eq]).
    unfold ret. replace (n + 1 - 1) with n by lia. reflexivity.
Qed.

Lemma getNextNonce_repeats_the_first_number_witness :
  let p := Demo.provider 1000000000 50000 5 in
  exists w1 w2,
    RelayerService.getNextNonce Demo.ext Demo.config Demo.signer p "localhost"
      (Demo.world ∅ []) = (Ok 5, w1) /\
    RelayerService.getNextNonce Demo.ext Demo.config Demo.signer p "localhost" w1 =
      (Ok 5, w2).
Proof.
  intros p.
  refine (getNextNonce_repeats_the_first_number Demo.ext Demo.config Demo.signer p
            "localhost" (Demo.world ∅ []) Demo.relayer 5 _ _ _ _ _).
  - reflexivity.
  - reflexivity.
  - vm_compute. reflexivity.
  - intros tr. reflexivity.
  - unfold Client.int64_max. lia.
Defined.

(** Two distinct requests relayed from an uninitialised cursor are signed
    with the same sequence number 5. *)
Example first_two_relays_share_a_sequence_number :
  let svc := Demo.service (Demo.provider 1000000000 50000 5) ∅ ∅ in
  let out1 := RelayerService.relayTransaction Demo.ext Demo.config svc
                (Demo.request "10" "100000" "0") (Demo.world ∅ []) in
  let out2 := RelayerService.relayTransaction Demo.ext Demo.config svc
                (Demo.request "20" "100000" "1") (snd out1) in
  let signed_nonces tr :=
    omap (fun e => match e with
                   | EvSignTransaction _ t => Some (t_nonce t)
                   | _ => None
                   end) tr in
  signed_nonces (trace (snd out2)) = [5; 5] /\
  length (List.filter is_submission (trace (snd out2))) = 2%nat.
Proof. split; vm_compute; reflexivity. Qed.

(** * Further properties *)

(** ** Sorting *)

Section SortLaws.
Context {T : Type} (le : T -> T -> bool).
Hypothesis le_total : forall x y, le x y = false -> le y x = true.
Hypothesis le_trans : forall x y z, le x y = true -> le y z = true -> le x z = true.

Lemma insert_by_perm x l : Permutation (TransactionQueries.insert_by le x l) (x :: l).
Proof.
  induction l as [|y l IH]; simpl; [reflexivity|].
  destruct (le x y); [reflexivity|].
  rewrite IH. apply perm_swap.
Qed.

Lemma sort_by_perm l : Permutation (TransactionQueries.sort_by le l) l.
Proof.
  induction l as [|x l IH]; simpl; [reflexivity|].
  rewrite insert_by_perm. constructor. exact IH.
Qed.

Lemma insert_by_sorted x l :
  StronglySorted (fun a b => le a b = true) l ->
  StronglySorted (fun a b => le a b = true) (TransactionQueries.insert_by le x l).
Proof.
  induction 1 as [|y l Hs IH Hall]; simpl; [repeat constructor|].
  destruct (le x y) eqn:E.
  - constructor; [constructor; assumption|].
    constructor; [exact E|].
    eapply Forall_impl; [exact Hall|]. intros z Hz. eapply le_trans; eassumption.
  - constructor; [exact IH|].
    eapply Permutation_Forall; [symmetry; apply insert_by_perm|].
    constructor; [apply le_total, E | exact Hall].
Qed.

Lemma sort_by_sorted l :
  StronglySorted (fun a b => le a b = true) (TransactionQueries.sort_by le l).
Proof.
  induction l as [|x l IH]; simpl; [constructor|]. apply insert_by_sorted, IH.
Qed.
End SortLaws.

Lemma time_le_total a b :
  TransactionQueries.time_le a b = false -> TransactionQueries.time_le b a = true.
Proof.
  destruct a as [x|], b as [y|]; simpl; try reflexivity; try discriminate.
  intros H. apply Z.leb_gt in H. apply Z.leb_le. lia.
Qed.

Lemma time_le_trans a b c :
  TransactionQueries.time_le a b = true -> TransactionQueries.time_le b c = true ->
  TransactionQueries.time_le a c = true.
Proof.
  destruct a as [x|], b as [y|], c as [z|]; simpl; try reflexivity; try discriminate.
  intros H1 H2. apply Z.leb_le in H1, H2. apply Z.leb_le. lia.
Qed.

Lemma sorted_split {T} (R : T -> T -> Prop) (a b : list T) :
  StronglySorted R (a ++ b) -> forall x y, In x a -> In y b -> R x y.
Proof.
  induction a as [|h a IH]; simpl; intros Hs x y Hx Hy; [contradiction|].
  inversion Hs as [|? ? Hs' Hall]; subst. destruct Hx as [<-|Hx].
  - rewrite List.Forall_forall in Hall. apply Hall. apply in_or_app. right. exact Hy.
  - eapply IH; eassumption.
Qed.

Lemma sorted_prefix {T} (R : T -> T -> Prop) (a b : list T) :
  StronglySorted R (a ++ b) -> StronglySorted R a.
Proof.
  induction a as [|h a IH]; simpl; intros Hs; [constructor|].
  inversion Hs as [|? ? Hs' Hall]; subst. constructor; [apply IH, Hs'|].
  apply Forall_app in Hall. apply Hall.
Qed.

Lemma in_firstn {T} (n : nat) (l : list T) x : In x (firstn n l) -> In x l.
Proof.
  intros H. rewrite <- (firstn_skipn n l). apply in_or_app. left. exact H.
Qed.

(** ** Listing transactions *)

(** X1: with the database reachable, [getPendingTransactions] returns
    exactly the rows whose status is [pending], each once, ordered by
    [created_at] from the oldest to the newest, and leaves the world as it
    was. *)
Theorem getPendingTransactions_lists_pending_oldest_first w :
  db_up w = true ->
  exists l,
    TransactionQueries.getPendingTransactions w = (Ok l, w) /\
    Permutation l (List.filter TransactionQueries.is_pending (transactions w)) /\
    (forall r, In r l <-> In r (transactions w) /\ status r = pending) /\
    StronglySorted
      (fun a b => TransactionQueries.time_le (created_at a) (created_at b) = true) l.
Proof.
  intros Hup. eexists.
  unfold TransactionQueries.getPendingTransactions, DatabaseService.connect_client,
    bind, get_world, ret. rewrite Hup.
  split; [reflexivity|]. split; [apply sort_by_perm|]. split.
  - intros r. rewrite (Permutation_in' (eq_refl r) (sort_by_perm _ _)).
    rewrite filter_In. unfold TransactionQueries.is_pending.
    destruct (status r); intuition discriminate.
  - apply sort_by_sorted.
    + intros x y. apply time_le_total.
    + intros x y z. apply time_le_trans.
Qed.

Lemma getPendingTransactions_lists_pending_oldest_first_witness :
  exists l,
    TransactionQueries.getPendingTransactions
      (Demo.world ∅ [Demo.row "0xa" confirmed; Demo.row "0xb" pending]) =
      (Ok l, Demo.world ∅ [Demo.row "0xa" confirmed; Demo.row "0xb" pending]) /\
    (forall r, In r l <->
               In r [Demo.row "0xa" confirmed; Demo.row "0xb" pending] /\
               status r = pending).
Proof.
  destruct (getPendingTransactions_lists_pending_oldest_first
              (Demo.world ∅ [Demo.row "0xa" confirmed; Demo.row "0xb" pending]) eq_refl)
    as (l & Hrun & _ & Hin & _).
  exists l. split; [exact Hrun | exact Hin].
Defined.

(** X2: with the database reachable and a limit that is not negative,
    [getTransactionsByAddress] returns at most [limit] rows, all of them
    sent from or to the address, newest first; the rows it leaves out are
    no newer than any row it returns, and rows are left out only when the
    limit is reached. *)
Theorem getTransactionsByAddress_lists_newest_up_to_limit address limit w :
  db_up w = true ->
  0 <= limit ->
  exists l rest,
    TransactionQueries.getTransactionsByAddress address limit w = (Ok l, w) /\
    Z.of_nat (length l) <= limit /\
    Permutation (l ++ rest)
      (List.filter (TransactionQueries.involves address) (transactions w)) /\
    (forall r, In r l ->
               In r (transactions w) /\
               (from_address r = address \/ to_address r = address)) /\
    StronglySorted
      (fun a b => TransactionQueries.time_le (created_at b) (created_at a) = true) l /\
    (forall r r', In r l -> In r' rest ->
                  TransactionQueries.time_le (created_at r') (created_at r) = true) /\
    (rest <> [] -> Z.of_nat (length l) = limit).
Proof.
  intros Hup Hlimit.
  set (s := TransactionQueries.sort_by TransactionQueries.newest_first
              (List.filter (TransactionQueries.involves address) (transactions w))).
  assert (Hsorted : StronglySorted
            (fun a b => TransactionQueries.newest_first a b = true) s).
  { apply sort_by_sorted.
    - intros x y. apply time_le_total.
    - intros x y z H1 H2. unfold TransactionQueries.newest_first in *.
      eapply time_le_trans; eassumption. }
  exists (firstn (Z.to_nat limit) s), (skipn (Z.to_nat limit) s).
  unfold TransactionQueries.getTransactionsByAddress, DatabaseService.connect_client,
    bind, get_world, ret, throw. rewrite Hup.
  replace (limit <? 0) with false by (symmetry; apply Z.ltb_ge; lia).
  fold s. split; [reflexivity|]. split.
  { rewrite length_firstn. lia. }
  split.
  { rewrite firstn_skipn. apply sort_by_perm. }
  split.
  { intros r Hr. apply in_firstn in Hr.
    apply (Permutation_in _ (sort_by_perm _ _)) in Hr.
    apply filter_In in Hr as [Hin Hinv]. split; [exact Hin|].
    unfold TransactionQueries.involves in Hinv. apply orb_true_iff in Hinv.
    destruct Hinv as [H|H]; apply String.eqb_eq in H; auto. }
  split.
  { rewrite <- (firstn_skipn (Z.to_nat limit) s) in Hsorted.
    apply sorted_prefix in Hsorted. exact Hsorted. }
  split.
  { intros r r' Hr Hr'. rewrite <- (firstn_skipn (Z.to_nat limit) s) in Hsorted.
    exact (sorted_split _ _ _ Hsorted r r' Hr Hr'). }
  intros Hrest. rewrite length_firstn.
  destruct (Nat.le_gt_cases (length s) (Z.to_nat limit)) as [Hle|Hgt].
  - exfalso. apply Hrest. apply skipn_all2. exact Hle.
  - lia.
Qed.

Lemma getTransactionsByAddress_lists_newest_up_to_limit_witness :
  exists (l rest : list TransactionRecord),
    TransactionQueries.getTransactionsByAddress Demo.alice 1
      (Demo.world ∅ [Demo.row "0xa" confirmed; Demo.row "0xb" pending]) =
      (Ok l, Demo.world ∅ [Demo.row "0xa" confirmed; Demo.row "0xb" pending]) /\
    Z.of_nat (length l) <= 1 /\
    (rest <> [] -> Z.of_nat (length l) = 1).
Proof.
  destruct (getTransactionsByAddress_lists_newest_up_to_limit Demo.alice 1
              (Demo.world ∅ [Demo.row "0xa" confirmed; Demo.row "0xb" pending])
              eq_refl ltac:(lia))
    as (l & rest & Hrun & Hlen & _ & _ & _ & _ & Hfull).
  exists l, rest. split; [exact Hrun|]. split; [exact Hlen | exact Hfull].
Defined.


(** ** Saving, finding and updating transactions *)

Lemma has_hash_find h rows :
  DatabaseService.has_hash h rows = false <->
  List.find (fun r => String.eqb (tx_hash r) h) rows = None.
Proof.
  unfold DatabaseService.has_hash.
  induction rows as [|r rows IH]; simpl; [tauto|].
  destruct (String.eqb (tx_hash r) h); simpl; [split; discriminate | exact IH].
Qed.

Lemma find_app_fresh {T} (f : T -> bool) l x :
  List.find f l = None -> List.find f (l ++ [x]) = if f x then Some x else None.
Proof.
  induction l as [|y l IH]; simpl; [reflexivity|].
  destruct (f y); [discriminate | exact IH].
Qed.

Lemma find_app_other {T} (f : T -> bool) l x :
  f x = false -> List.find f (l ++ [x]) = List.find f l.
Proof.
  intros Hx. induction l as [|y l IH]; simpl; [rewrite Hx; reflexivity|].
  destruct (f y); [reflexivity | exact IH].
Qed.

Lemma saveTransaction_fresh t w :
  db_up w = true ->
  DatabaseService.has_hash (tx_hash t) (transactions w) = false ->
  let row := mkTx (Some (next_id w)) (tx_hash t) (from_address t) (to_address t)
                  (network t) (status t) (gas_used t) (gas_price t) (block_number t)
                  (Some (clock w)) (Some (clock w)) (meta_tx_hash t)
                  (relayer_address t) (token_address t) (token_type t)
                  (amount t) (token_id t) in
  DatabaseService.saveTransaction t w =
  (Ok row, set_transactions (transactions w ++ [row]) (next_id w + 1)
             (add_event (EvSaveTransaction t) w)).
Proof.
  intros Hup Hh row. unfold DatabaseService.saveTransaction.
  mstep ltac:(reflexivity).
  mstep ltac:(unfold DatabaseService.connect_client; cbn [db_up add_event];
              rewrite Hup; reflexivity).
  mstep ltac:(reflexivity).
  cbn [transactions add_event]. rewrite Hh.
  mstep ltac:(reflexivity). reflexivity.
Qed.

Lemma saveTransaction_duplicate t w :
  db_up w = true ->
  DatabaseService.has_hash (tx_hash t) (transactions w) = true ->
  DatabaseService.saveTransaction t w =
  (Throw "duplicate key value violates unique constraint",
   set_transactions (transactions w) (next_id w + 1) (add_event (EvSaveTransaction t) w)).
Proof.
  intros Hup Hh. unfold DatabaseService.saveTransaction.
  mstep ltac:(reflexivity).
  mstep ltac:(unfold DatabaseService.connect_client; cbn [db_up add_event];
              rewrite Hup; reflexivity).
  mstep ltac:(reflexivity).
  cbn [transactions add_event]. rewrite Hh.
  mstep ltac:(reflexivity). reflexivity.
Qed.

Lemma saveTransaction_down t w :
  db_up w = false ->
  DatabaseService.saveTransaction t w =
  (Throw "Database connection error", add_event (EvSaveTransaction t) w).
Proof.
  intros Hup. unfold DatabaseService.saveTransaction.
  mstep ltac:(reflexivity).
  erewrite bind_throw; [reflexivity|].
  unfold DatabaseService.connect_client. cbn [db_up add_event]. rewrite Hup. reflexivity.
Qed.

Lemma getTransaction_up h w :
  db_up w = true ->
  DatabaseService.getTransaction h w =
  (Ok (List.find (fun r => String.eqb (tx_hash r) h) (transactions w)), w).
Proof.
  intros Hup. unfold DatabaseService.getTransaction, DatabaseService.connect_client,
    bind, get_world, ret. rewrite Hup. reflexivity.
Qed.

(** X3: a record that fits the columns and whose hash is not yet in the
    table is inserted with a fresh [id] and the current time, and
    [getTransaction] on its hash then returns that row, while the lookup of
    every other hash is unchanged; a record whose hash is already stored
    makes [saveTransaction] throw and leaves the table as it was. *)
Theorem saveTransaction_then_getTransaction t w :
  db_up w = true ->
  (record_fits t = true ->
   DatabaseService.has_hash (tx_hash t) (transactions w) = false ->
   exists row w',
     DatabaseService.saveTransaction t w = (Ok row, w') /\
     DatabaseService.getTransaction (tx_hash t) w' = (Ok (Some row), w') /\
     id row = Some (next_id w) /\ created_at row = Some (clock w) /\
     status row = status t /\ from_address row = from_address t /\
     (forall h, h <> tx_hash t ->
                fst (DatabaseService.getTransaction h w') =
                fst (DatabaseService.getTransaction h w))) /\
  (DatabaseService.has_hash (tx_hash t) (transactions w) = true ->
   exists e w',
     DatabaseService.saveTransaction t w = (Throw e, w') /\
     transactions w' = transactions w).
Proof.
  intros Hup. split; [intros _ Hh | intros Hh].
  - rewrite (saveTransaction_fresh t w Hup Hh). do 2 eexists. split; [reflexivity|].
    rewrite !getTransaction_up by exact Hup.
    cbn [transactions set_transactions add_event fst].
    apply has_hash_find in Hh. split.
    { rewrite (find_app_fresh _ _ _ Hh). cbn [tx_hash]. rewrite String.eqb_refl.
      reflexivity. }
    repeat split.
    intros h Hne. rewrite !getTransaction_up by exact Hup.
    cbn [fst transactions set_transactions add_event]. f_equal.
    apply find_app_other. cbn [tx_hash]. apply String.eqb_neq. congruence.
  - rewrite (saveTransaction_duplicate t w Hup Hh). do 2 eexists. split; reflexivity.
Qed.

Lemma saveTransaction_then_getTransaction_witness :
  exists row w',
    DatabaseService.saveTransaction (Demo.row "0xb" pending)
      (Demo.world ∅ [Demo.row "0xa" confirmed]) = (Ok row, w') /\
    DatabaseService.getTransaction "0xb" w' = (Ok (Some row), w').
Proof.
  destruct (proj1 (saveTransaction_then_getTransaction (Demo.row "0xb" pending)
                     (Demo.world ∅ [Demo.row "0xa" confirmed]) eq_refl) eq_refl eq_refl)
    as (row & w' & Hsave & Hget & _).
  exists row, w'. split; [exact Hsave | exact Hget].
Defined.

(** The hashes of the table after [update_rows]: the first row with the
    given hash takes the new one. *)
Lemma update_rows_hashes now txHash u rows :
  map tx_hash (fst (DatabaseService.update_rows now txHash u rows)) =
  match u_tx_hash u with
  | None => map tx_hash rows
  | Some h =>
      (fix replace (l : list string) : list string :=
         match l with
         | [] => []
         | x :: rest => if String.eqb x txHash then h :: rest else x :: replace rest
         end) (map tx_hash rows)
  end.
Proof.
  induction rows as [|r rows IH]; simpl.
  - destruct (u_tx_hash u); reflexivity.
  - destruct (String.eqb (tx_hash r) txHash) eqn:E; simpl.
    + destruct (u_tx_hash u); simpl; [reflexivity|].
      apply String.eqb_eq in E. congruence.
    + destruct (DatabaseService.update_rows now txHash u rows) as [rows' hit] eqn:Hu.
      simpl in *. rewrite IH. destruct (u_tx_hash u); reflexivity.
Qed.

Lemma replace_first_NoDup (txHash h : string) (l : list string) :
  NoDup l -> ~ In h l ->
  NoDup ((fix replace (l : list string) : list string :=
            match l with
            | [] => []
            | x :: rest => if String.eqb x txHash then h :: rest else x :: replace rest
            end) l) /\
  (forall y, In y ((fix replace (l : list string) : list string :=
            match l with
            | [] => []
            | x :: rest => if String.eqb x txHash then h :: rest else x :: replace rest
            end) l) -> y = h \/ In y l).
Proof.
  induction l as [|x l IH]; intros Hnd Hh.
  - split; [constructor | intros y []].
  - apply NoDup_cons in Hnd as [Hx Hnd].
    destruct (String.eqb x txHash) eqn:E.
    + split.
      * apply NoDup_cons. split; [|exact Hnd].
        intros Hin. apply Hh. right. apply list_elem_of_In. exact Hin.
      * intros y [<-|Hy]; [left; reflexivity | right; right; exact Hy].
    + destruct IH as [IH1 IH2]; [exact Hnd | intros Hin; apply Hh; right; exact Hin |].
      split.
      * apply NoDup_cons. split; [|exact IH1].
        intros Hin. apply list_elem_of_In in Hin. destruct (IH2 _ Hin) as [->|Hin'].
        -- apply Hh. left. reflexivity.
        -- apply Hx. apply list_elem_of_In. exact Hin'.
      * intros y [<-|Hy]; [right; left; reflexivity|].
        destruct (IH2 _ Hy); [left | right; right]; assumption.
Qed.

Lemma replace_first_absent (txHash h : string) (l : list string) :
  ~ In txHash l ->
  (fix replace (l : list string) : list string :=
     match l with
     | [] => []
     | x :: rest => if String.eqb x txHash then h :: rest else x :: replace rest
     end) l = l.
Proof.
  induction l as [|x l IH]; intros Hn; [reflexivity|].
  destruct (String.eqb x txHash) eqn:E.
  - exfalso. apply Hn. left. apply String.eqb_eq, E.
  - f_equal. apply IH. intros Hin. apply Hn. right. exact Hin.
Qed.

Lemma replace_first_same (txHash : string) (l : list string) :
  (fix replace (l : list string) : list string :=
     match l with
     | [] => []
     | x :: rest => if String.eqb x txHash then txHash :: rest else x :: replace rest
     end) l = l.
Proof.
  induction l as [|x l IH]; [reflexivity|].
  destruct (String.eqb x txHash) eqn:E.
  - apply String.eqb_eq in E. congruence.
  - f_equal. exact IH.
Qed.

Lemma has_hash_In h rows :
  DatabaseService.has_hash h rows = true <-> In h (map tx_hash rows).
Proof.
  unfold DatabaseService.has_hash. rewrite existsb_exists, in_map_iff. split.
  - intros (r & Hin & He). apply String.eqb_eq in He. eauto.
  - intros (r & He & Hin). exists r. split; [exact Hin | apply String.eqb_eq, He].
Qed.

(** X4: [saveTransaction] and [updateTransaction] keep the hashes of the
    table pairwise distinct, whatever their outcome. *)
Theorem store_keeps_hashes_unique w :
  NoDup (map tx_hash (transactions w)) ->
  (forall t, NoDup (map tx_hash (transactions (snd (DatabaseService.saveTransaction t w))))) /\
  (forall txHash updates,
      NoDup (map tx_hash
               (transactions (snd (DatabaseService.updateTransaction txHash updates w))))).
Proof.
  intros Hnd. split.
  - intros t. destruct (db_up w) eqn:Hup.
    + destruct (DatabaseService.has_hash (tx_hash t) (transactions w)) eqn:Hh.
      * rewrite (saveTransaction_duplicate t w Hup Hh). exact Hnd.
      * rewrite (saveTransaction_fresh t w Hup Hh).
        cbn [snd transactions set_transactions]. rewrite map_app. cbn [map tx_hash].
        apply NoDup_app. split; [exact Hnd|]. split; [|apply NoDup_singleton].
        intros h Hin Hin'. apply list_elem_of_singleton in Hin'. subst h.
        apply list_elem_of_In, has_hash_In in Hin. congruence.
    + rewrite (saveTransaction_down t w Hup). exact Hnd.
  - intros txHash u.
    unfold DatabaseService.updateTransaction, DatabaseService.connect_client, bind,
      get_world, modify, ret, throw.
    destruct (db_up w); [|exact Hnd].
    destruct (DatabaseService.no_keys u); [exact Hnd|].
    destruct (DatabaseService.hash_collides txHash u (transactions w)) eqn:Hc; [exact Hnd|].
    pose proof (update_rows_hashes (clock w) txHash u (transactions w)) as Hmap.
    destruct (DatabaseService.update_rows (clock w) txHash u (transactions w))
      as [rows' hit]. cbn [fst snd transactions set_transactions] in *.
    rewrite Hmap. unfold DatabaseService.hash_collides in Hc.
    destruct (u_tx_hash u) as [h|]; [|exact Hnd].
    destruct (String.eqb h txHash) eqn:E; simpl in Hc.
    + apply String.eqb_eq in E. subst h. rewrite replace_first_same. exact Hnd.
    + destruct (DatabaseService.has_hash txHash (transactions w)) eqn:H1; simpl in Hc.
      * apply replace_first_NoDup; [exact Hnd|].
        intros Hin. apply has_hash_In in Hin. congruence.
      * rewrite replace_first_absent; [exact Hnd|].
        intros Hin. apply has_hash_In in Hin. congruence.
Qed.

Lemma store_keeps_hashes_unique_witness :
  NoDup (map tx_hash
           (transactions
              (snd (DatabaseService.saveTransaction (Demo.row "0xa" pending)
                      (Demo.world ∅ [Demo.row "0xa" confirmed]))))).
Proof.
  refine (proj1 (store_keeps_hashes_unique (Demo.world ∅ [Demo.row "0xa" confirmed]) _) _).
  apply NoDup_singleton.
Defined.

Lemma update_rows_other now txHash u rows h :
  h <> txHash -> u_tx_hash u <> Some h ->
  List.find (fun r => String.eqb (tx_hash r) h)
            (fst (DatabaseService.update_rows now txHash u rows)) =
  List.find (fun r => String.eqb (tx_hash r) h) rows.
Proof.
  intros Hne Hu. induction rows as [|r rows IH]; simpl; [reflexivity|].
  destruct (String.eqb (tx_hash r) txHash) eqn:E; simpl.
  - apply String.eqb_eq in E.
    replace (String.eqb (tx_hash r) h) with false
      by (symmetry; apply String.eqb_neq; congruence).
    replace (String.eqb (DatabaseService.pick (u_tx_hash u) (tx_hash r)) h) with false;
      [reflexivity|].
    symmetry. apply String.eqb_neq. destruct (u_tx_hash u); simpl; congruence.
  - destruct (DatabaseService.update_rows now txHash u rows) as [rows' hit].
    simpl in *. rewrite IH. reflexivity.
Qed.

Lemma update_rows_missing now txHash u rows :
  List.find (fun r => String.eqb (tx_hash r) txHash) rows = None ->
  DatabaseService.update_rows now txHash u rows = (rows, None).
Proof.
  induction rows as [|r rows IH]; simpl; [reflexivity|].
  destruct (String.eqb (tx_hash r) txHash); [discriminate|].
  intros H. rewrite (IH H). reflexivity.
Qed.

Lemma update_rows_length now txHash u rows :
  length (fst (DatabaseService.update_rows now txHash u rows)) = length rows.
Proof.
  induction rows as [|r rows IH]; simpl; [reflexivity|].
  destruct (String.eqb (tx_hash r) txHash); simpl; [reflexivity|].
  destruct (DatabaseService.update_rows now txHash u rows). simpl in *. congruence.
Qed.

(** X5: an [updateTransaction] with at least one column keeps the number
    of rows and leaves the lookup of every other hash unchanged (the target
    hash and a new hash given in the update apart); for a hash that is not
    stored it changes nothing, and returns [null] when the values of the
    update fit their columns. *)
Theorem updateTransaction_touches_one_record txHash updates w :
  db_up w = true ->
  DatabaseService.no_keys updates = false ->
  exists r w',
    DatabaseService.updateTransaction txHash updates w = (r, w') /\
    length (transactions w') = length (transactions w) /\
    (forall h, h <> txHash -> u_tx_hash updates <> Some h ->
               List.find (fun r => String.eqb (tx_hash r) h) (transactions w') =
               List.find (fun r => String.eqb (tx_hash r) h) (transactions w)) /\
    (List.find (fun r => String.eqb (tx_hash r) txHash) (transactions w) = None ->
     transactions w' = transactions w /\
     (updates_fit updates = true -> r = Ok None)).
Proof.
  intros Hup Hkeys.
  unfold DatabaseService.updateTransaction, DatabaseService.connect_client, bind,
    get_world, modify, ret, throw. rewrite Hup, Hkeys.
  destruct (DatabaseService.hash_collides txHash updates (transactions w)) eqn:Hc.
  - do 2 eexists. split; [reflexivity|]. split; [reflexivity|]. split; [reflexivity|].
    intros Hnone. exfalso. unfold DatabaseService.hash_collides in Hc.
    destruct (u_tx_hash updates); [|discriminate].
    apply has_hash_find in Hnone. rewrite Hnone in Hc.
    rewrite andb_false_r in Hc. discriminate.
  - pose proof (update_rows_other (clock w) txHash updates (transactions w)) as Hother.
    pose proof (update_rows_missing (clock w) txHash updates (transactions w)) as Hmiss.
    pose proof (update_rows_length (clock w) txHash updates (transactions w)) as Hlen.
    destruct (DatabaseService.update_rows (clock w) txHash updates (transactions w))
      as [rows' hit]. cbn [fst snd transactions set_transactions] in *.
    do 2 eexists. split; [reflexivity|]. cbn [transactions set_transactions].
    split; [exact Hlen|].
    split; [exact Hother|].
    intros Hnone. specialize (Hmiss Hnone). injection Hmiss as -> ->.
    split; [reflexivity | intros _; reflexivity].
Qed.

Lemma updateTransaction_touches_one_record_witness :
  exists r w',
    DatabaseService.updateTransaction "0xmissing" (Demo.set_status failed)
      (Demo.world ∅ [Demo.row "0xa" confirmed]) = (r, w') /\
    r = Ok None /\ transactions w' = [Demo.row "0xa" confirmed].
Proof.
  destruct (updateTransaction_touches_one_record "0xmissing" (Demo.set_status failed)
              (Demo.world ∅ [Demo.row "0xa" confirmed]) eq_refl eq_refl)
    as (r & w' & Hrun & _ & _ & Hnone).
  exists r, w'. split; [exact Hrun|].
  destruct (Hnone eq_refl) as [Hrows Hnull].
  split; [apply Hnull; reflexivity | exact Hrows].
Defined.

(** ** Queries of the relayer service *)

(** X6: [getTransactionStatus] and [getTransactionsByAddress] of the
    relayer never throw and change nothing: with the database unreachable
    they answer [null] and the empty list, as for a transaction or an
    address that is not stored; the list has at most 100 rows. *)
Theorem relayer_queries_never_throw w :
  (forall txHash,
      exists r, RelayerQueries.getTransactionStatus txHash w = (Ok r, w) /\
                (db_up w = false -> r = None) /\
                (db_up w = true ->
                 r = List.find (fun t => String.eqb (tx_hash t) txHash) (transactions w))) /\
  (forall address,
      exists l, RelayerQueries.getTransactionsByAddress address w = (Ok l, w) /\
                (db_up w = false -> l = []) /\
                (length l <= 100)%nat).
Proof.
  split.
  - intros txHash.
    unfold RelayerQueries.getTransactionStatus, DatabaseService.getTransaction,
      DatabaseService.connect_client, try_catch, bind, get_world, ret.
    destruct (db_up w); eexists; (split; [reflexivity|]); split; congruence.
  - intros address.
    unfold RelayerQueries.getTransactionsByAddress,
      TransactionQueries.getTransactionsByAddress,
      DatabaseService.connect_client, try_catch, bind, get_world, ret.
    destruct (db_up w); eexists; (split; [reflexivity|]); split; try congruence.
    + rewrite length_firstn. change (Z.to_nat 100) with 100%nat. lia.
    + simpl. lia.
Qed.


(** ** The nonce cursor *)

Section NonceCursor.
Variables (ext : Externals) (config : Config) (signer : Signer) (provider : Provider).
Variables (network address : string).
Hypothesis Haddr : s_getAddress signer = Ok address.

Lemma getNextNonce_cached w z ttl :
  redis_up w = true ->
  redis w !! RedisService.nonceKey config address network =
    Some (mkEntry (RString (JS.toString z)) ttl) ->
  Client.int64_min <= z < Client.int64_max ->
  exists w',
    RelayerService.getNextNonce ext config signer provider network w = (Ok z, w') /\
    redis_up w' = true /\
    redis w' !! RedisService.nonceKey config address network =
      Some (mkEntry (RString (JS.toString (z + 1))) (Some 3600)) /\
    exists evs, trace w' = (trace w ++ evs)%list /\
                Forall (fun e => is_redis e = true) evs.
Proof.
  intros Hup Hkey Hz.
  set (key := RedisService.nonceKey config address network) in *.
  eexists. split.
  - unfold RelayerService.getNextNonce, lift. rewrite Haddr.
    mstep ltac:(reflexivity).
    mstep ltac:(unfold RedisService.getCurrentNonce; fold key;
                mstep ltac:(eapply get_string; [exact Hup | exact Hkey]);
                rewrite toString_truthy; reflexivity).
    unfold RedisService.getNextNonce. fold key.
    mstep ltac:(eapply incr_string;
                [exact Hup | exact Hkey
                | apply int_of_value_toString; lia | lia]).
    mstep ltac:(eapply expire_present; [exact Hup | simpl; apply lookup_insert_eq]).
    unfold ret. replace (z + 1 - 1) with z by lia. reflexivity.
  - split; [exact Hup|]. split.
    + cbn [redis set_redis add_event rvalue]. rewrite lookup_insert_eq. reflexivity.
    + eexists [_; _; _]. cbn [trace set_redis add_event]. rewrite <- !app_assoc.
      split; [reflexivity|]. repeat constructor.
Qed.
End NonceCursor.

(** X7: once the cursor of the relayer's address is cached in Redis with
    the value [z], [k] calls of [getNextNonce] in a row return
    [z, z+1, ..., z+k-1], leave the cursor at [z+k], and issue Redis
    commands only: the chain is not asked. The numbers stay within the
    safe integers of JavaScript. *)
Theorem getNextNonce_consecutive_once_cached
    ext config signer provider network address k w z ttl :
  s_getAddress signer = Ok address ->
  redis_up w = true ->
  redis w !! RedisService.nonceKey config address network =
    Some (mkEntry (RString (JS.toString z)) ttl) ->
  - MAX_SAFE_INTEGER <= z ->
  z + Z.of_nat k <= MAX_SAFE_INTEGER ->
  exists w' ttl' evs,
    repeat_m k (RelayerService.getNextNonce ext config signer provider network) w =
      (Ok (seqZ z (Z.of_nat k)), w') /\
    redis w' !! RedisService.nonceKey config address network =
      Some (mkEntry (RString (JS.toString (z + Z.of_nat k))) ttl') /\
    trace w' = (trace w ++ evs)%list /\
    Forall (fun e => is_redis e = true) evs.
Proof.
  intros Haddr. revert w z ttl.
  induction k as [|k IH]; intros w z ttl Hup Hkey Hlo Hhi.
  - exists w, ttl, []. simpl. split; [reflexivity|]. split.
    + rewrite Z.add_0_r. exact Hkey.
    + rewrite app_nil_r. split; [reflexivity | constructor].
  - destruct (getNextNonce_cached ext config signer provider network address Haddr
                w z ttl Hup Hkey) as (w1 & Hrun & Hup1 & Hkey1 & evs & Htr & Hev).
    { unfold MAX_SAFE_INTEGER, Client.int64_min, Client.int64_max in *. lia. }
    destruct (IH w1 (z + 1) (Some 3600) Hup1 Hkey1 ltac:(lia) ltac:(lia))
      as (w2 & ttl' & evs' & Hrest & Hcur & Htr' & Hev').
    exists w2, ttl', (evs ++ evs')%list. split.
    + cbn [repeat_m]. mstep ltac:(exact Hrun). mstep ltac:(exact Hrest).
      unfold ret. rewrite (seqZ_cons z) by lia.
      replace (Z.succ z) with (z + 1) by lia.
      replace (Z.pred (Z.of_nat (S k))) with (Z.of_nat k) by lia. reflexivity.
    + split.
      * rewrite Hcur.
        replace (z + 1 + Z.of_nat k) with (z + Z.of_nat (S k)) by lia. reflexivity.
      * rewrite Htr', Htr, app_assoc.
        split; [reflexivity | apply Forall_app; split; assumption].
Qed.

Lemma getNextNonce_consecutive_once_cached_witness :
  exists w' ttl' evs,
    repeat_m 3 (RelayerService.getNextNonce Demo.ext Demo.config Demo.signer
                  (Demo.provider 1 1 0) "localhost") (Demo.world (Demo.cursor 7) []) =
      (Ok [7; 8; 9], w') /\
    redis w' !! RedisService.nonceKey Demo.config Demo.relayer "localhost" =
      Some (mkEntry (RString (JS.toString 10)) ttl') /\
    trace w' = (trace (Demo.world (Demo.cursor 7) []) ++ evs)%list /\
    Forall (fun e => is_redis e = true) evs.
Proof.
  refine (getNextNonce_consecutive_once_cached Demo.ext Demo.config Demo.signer
            (Demo.provider 1 1 0) "localhost" Demo.relayer 3
            (Demo.world (Demo.cursor 7) []) 7 (Some 3600) _ _ _ _ _).
  - reflexivity.
  - reflexivity.
  - vm_compute. reflexivity.
  - unfold MAX_SAFE_INTEGER. lia.
  - unfold MAX_SAFE_INTEGER. lia.
Defined.

(** ** Addresses and letter case *)

Lemma toLowerCase_key config a b network :
  JS.toLowerCase a = JS.toLowerCase b ->
  RedisService.nonceKey config a network = RedisService.nonceKey config b network.
Proof. intros H. unfold RedisService.nonceKey. rewrite H. reflexivity. Qed.

(** X8: the cursor is keyed by the lower-cased address: after [setNonce]
    of a safe integer with one spelling of an address, [getNextNonce] with
    any spelling that differs only in case returns the number that was set
    and leaves the cursor one higher, with a time to live of 3600
    seconds. *)
Theorem setNonce_then_getNextNonce_ignores_case config a b network n w :
  JS.toLowerCase a = JS.toLowerCase b ->
  redis_up w = true ->
  - MAX_SAFE_INTEGER <= n < MAX_SAFE_INTEGER ->
  exists w1 w2,
    RedisService.setNonce config a network n w = (Ok tt, w1) /\
    RedisService.getNextNonce config b network w1 = (Ok n, w2) /\
    redis w2 !! RedisService.nonceKey config a network =
      Some (mkEntry (RString (JS.toString (n + 1))) (Some 3600)).
Proof.
  intros Hcase Hup Hn.
  assert (Hrange : Client.int64_min <= n < Client.int64_max)
    by (unfold MAX_SAFE_INTEGER, Client.int64_min, Client.int64_max in *; lia).
  clear Hn. rename Hrange into Hn.
  unfold RedisService.getNextNonce. rewrite <- (toLowerCase_key config a b network Hcase).
  set (key := RedisService.nonceKey config a network).
  eexists. eexists. split; [|split].
  - unfold RedisService.setNonce. fold key.
    mstep ltac:(apply set_up; exact Hup).
    mstep ltac:(eapply expire_present; [exact Hup | simpl; apply lookup_insert_eq]).
    reflexivity.
  - mstep ltac:(eapply incr_string;
                [exact Hup | simpl; apply lookup_insert_eq
                | apply int_of_value_toString; lia | lia]).
    mstep ltac:(eapply expire_present; [exact Hup | simpl; apply lookup_insert_eq]).
    unfold ret. replace (n + 1 - 1) with n by lia. reflexivity.
  - cbn [redis set_redis add_event rvalue]. rewrite lookup_insert_eq. reflexivity.
Qed.

Lemma setNonce_then_getNextNonce_ignores_case_witness :
  exists w1 w2,
    RedisService.setNonce Demo.config Demo.relayer "localhost" 5 (Demo.world ∅ []) =
      (Ok tt, w1) /\
    RedisService.getNextNonce Demo.config (JS.toLowerCase Demo.relayer) "localhost" w1 =
      (Ok 5, w2).
Proof.
  destruct (setNonce_then_getNextNonce_ignores_case Demo.config Demo.relayer
              (JS.toLowerCase Demo.relayer) "localhost" 5 (Demo.world ∅ []))
    as (w1 & w2 & H1 & H2 & _).
  - vm_compute. reflexivity.
  - reflexivity.
  - unfold MAX_SAFE_INTEGER. lia.
  - exists w1, w2. split; assumption.
Defined.


(** ** Rate limiting *)


Lemma ceil_div_positive a : 0 < a -> 0 < RateLimiting.ceil_div a 1000.
Proof.
  intros Ha. unfold RateLimiting.ceil_div.
  assert ((- a) / 1000 < 0) by (apply Z.div_lt_upper_bound; lia). lia.
Qed.

Lemma live_members_no_zero now windowMs ms :
  0 <= now - windowMs ->
  List.filter (fun m => ((0 <=? fst m) && (fst m <=? 0))%bool)
              (live_members now windowMs ms) = [].
Proof.
  intros Hstart. unfold live_members.
  induction ms as [|m l IH]; [reflexivity|]. simpl.
  destruct ((0 <=? fst m) && (fst m <=? now - windowMs))%bool eqn:E; simpl.
  - apply IH.
  - replace ((0 <=? fst m) && (fst m <=? 0))%bool with false; [apply IH|].
    symmetry. apply andb_false_iff. apply andb_false_iff in E.
    destruct E as [E|E]; [left; exact E|]. right.
    apply Z.leb_gt in E. apply Z.leb_gt. lia.
Qed.

Section OneCall.
Variables (parseInt1 : string -> JS.number) (config : Config).
Variables (identifier : string) (windowMs maxRequests : Z).
Hypothesis Hwindow : 0 < windowMs.

Let key := RedisService.getKey config ("rate_limit:" ++ identifier).

(** One call on a window that can be read. *)
Lemma checkRateLimit_call random w ms :
  redis_up w = true ->
  window_of w key = Some ms ->
  let live := live_members (clock w) windowMs ms in
  let member := JS.concat [JS.toString (clock w); "-"; random] in
  exists r w',
    RateLimiting.checkRateLimit parseInt1 config random identifier windowMs maxRequests w
      = (Ok r, w') /\
    redis_up w' = true /\ clock w' = clock w /\
    (if Z.of_nat (length live) <? maxRequests
     then r = RateLimiting.mkLimit true (maxRequests - Z.of_nat (length live) - 1)
                (JS.Num (clock w + windowMs)) /\
          window_of w' key =
            Some (ClientExt.without_member member live ++ [(clock w, member)])%list
     else RateLimiting.allowed r = false /\ RateLimiting.remaining r = 0 /\
          window_of w' key = Some live /\
          (0 <= clock w - windowMs ->
           RateLimiting.resetTime r = JS.Num (clock w + windowMs))).
Proof.
  intros Hup Hwin live member.
  unfold RateLimiting.checkRateLimit. fold key.
  unfold bind at 1. unfold Date_now. cbv beta iota.
  destruct (zRemRangeByScore_window key w ms Hup Hwin 0 (clock w - windowMs))
    as (n & w1 & Hrem & Hup1 & Hclk1 & Hwin1).
  fold (live_members (clock w) windowMs ms) in Hwin1. fold live in Hwin1.
  destruct (Z.of_nat (length live) <? maxRequests) eqn:Hcount.
  - destruct (zAdd_window key (add_event (EvRedis "ZCARD" key) w1) live Hup1 Hwin1
                (clock w) member) as (n2 & w2 & Hadd & Hup2 & Hclk2 & Hsome2 & Hwin2).
    destruct (expire_window key w2 _ Hup2 Hwin2 (RateLimiting.ceil_div windowMs 1000)
                (ceil_div_positive _ Hwindow) Hsome2)
      as (w3 & Hexp & Hup3 & Hclk3 & Hwin3 & _).
    do 2 eexists. split.
    { erewrite try_ok; [reflexivity|].
      mstep ltac:(exact Hrem).
      mstep ltac:(apply (zCard_window key w1 live Hup1 Hwin1)).
      replace (Z.of_nat (length live) >=? maxRequests) with false
        by (symmetry; rewrite Z.geb_leb; apply Z.leb_gt; apply Z.ltb_lt in Hcount; lia).
      mstep ltac:(exact Hadd). mstep ltac:(exact Hexp). reflexivity. }
    split; [exact Hup3|]. split; [cbn [clock add_event] in *; congruence|].
    split; [reflexivity | exact Hwin3].
  - do 2 eexists. split.
    { erewrite try_ok; [reflexivity|].
      mstep ltac:(exact Hrem).
      mstep ltac:(apply (zCard_window key w1 live Hup1 Hwin1)).
      replace (Z.of_nat (length live) >=? maxRequests) with true
        by (symmetry; rewrite Z.geb_leb; apply Z.leb_le; apply Z.ltb_ge in Hcount; lia).
      mstep ltac:(apply (zRangeByScore_window key (add_event (EvRedis "ZCARD" key) w1)
                           live Hup1 Hwin1)).
      reflexivity. }
    split; [exact Hup1|]. split; [cbn [clock add_event]; exact Hclk1|].
    cbn [RateLimiting.allowed RateLimiting.remaining RateLimiting.resetTime].
    split; [reflexivity|]. split; [reflexivity|]. split; [exact Hwin1|].
    intros Hstart.
    pose proof (live_members_no_zero (clock w) windowMs ms Hstart) as Hnone.
    fold live in Hnone.
    rewrite Hnone. reflexivity.
Qed.
End OneCall.


Lemma append_inj_l (a x y : string) : (a ++ x = a ++ y)%string -> x = y.
Proof.
  induction a as [|c a IH]; intros H; [exact H|].
  change (String c (a ++ x)%string = String c (a ++ y)%string) in H.
  injection H as H. apply IH, H.
Qed.

Lemma append_empty_r (s : string) : (s ++ EmptyString)%string = s.
Proof.
  induction s as [|c s IH]; [reflexivity|].
  change (String c (s ++ EmptyString)%string = String c s). f_equal. exact IH.
Qed.

(** X10: when the Redis client rejects the commands of the check (a closed
    client, or a server that answers with an error), or the key of the
    window holds a string, [checkRateLimit] allows the request, reports
    [maxRequests - 1] remaining and stores nothing. *)
Theorem checkRateLimit_allows_when_window_unreadable
    parseInt1 config random identifier windowMs maxRequests w :
  redis_up w = false \/
  window_of w (RedisService.getKey config ("rate_limit:" ++ identifier)) = None ->
  exists w',
    RateLimiting.checkRateLimit parseInt1 config random identifier windowMs maxRequests w =
    (Ok (RateLimiting.mkLimit true (maxRequests - 1) (JS.Num (clock w + windowMs))), w') /\
    redis w' = redis w.
Proof.
  intros H. unfold RateLimiting.checkRateLimit.
  set (key := RedisService.getKey config ("rate_limit:" ++ identifier)) in *.
  unfold bind at 1. unfold Date_now. cbv beta iota.
  destruct (redis_up w) eqn:Hup.
  - destruct H as [H|H]; [discriminate|].
    eexists. split.
    + erewrite try_throw; [reflexivity|].
      erewrite bind_throw; [reflexivity|].
      unfold Client.zRemRangeByScore.
      mstep ltac:(apply command_up; exact Hup). mstep ltac:(reflexivity).
      cbn [redis add_event]. unfold window_of in H.
      destruct (redis w !! key) as [[[s|l] ttl]|]; try discriminate. reflexivity.
    + reflexivity.
  - eexists. split.
    + erewrite try_throw; [reflexivity|].
      erewrite bind_throw; [reflexivity|].
      unfold Client.zRemRangeByScore. erewrite bind_throw; [reflexivity|].
      unfold Client.command. mstep ltac:(reflexivity).
      cbn [redis_up add_event]. rewrite Hup. reflexivity.
    + reflexivity.
Qed.

Lemma checkRateLimit_allows_when_window_unreadable_witness :
  exists w',
    RateLimiting.checkRateLimit (parseInt Demo.ext) Demo.config "0.5" "203.0.113.7"
      900000 0 (Demo.redis_down (Demo.world ∅ [])) =
    (Ok (RateLimiting.mkLimit true (0 - 1) (JS.Num (1700000000000 + 900000))), w') /\
    redis w' = redis (Demo.redis_down (Demo.world ∅ [])).
Proof.
  refine (checkRateLimit_allows_when_window_unreadable (parseInt Demo.ext) Demo.config
            "0.5" "203.0.113.7" 900000 0 (Demo.redis_down (Demo.world ∅ [])) _).
  left. reflexivity.
Defined.

(** X11: on a window that is full, [checkRateLimit] denies the request
    with 0 remaining and adds nothing to the window; whenever the clock is
    at least [windowMs], the reported reset time is now plus [windowMs]:
    the lookup of the oldest request asks for the members of score 0 and
    finds none. *)
Theorem checkRateLimit_denial_records_nothing
    parseInt1 config random identifier windowMs maxRequests w ms :
  0 < windowMs ->
  redis_up w = true ->
  window_of w (RedisService.getKey config ("rate_limit:" ++ identifier)) = Some ms ->
  maxRequests <= Z.of_nat (length (live_members (clock w) windowMs ms)) ->
  exists r w',
    RateLimiting.checkRateLimit parseInt1 config random identifier windowMs maxRequests w
      = (Ok r, w') /\
    RateLimiting.allowed r = false /\
    RateLimiting.remaining r = 0 /\
    window_of w' (RedisService.getKey config ("rate_limit:" ++ identifier)) =
      Some (live_members (clock w) windowMs ms) /\
    (windowMs <= clock w -> RateLimiting.resetTime r = JS.Num (clock w + windowMs)).
Proof.
  intros Hwindow Hup Hwin Hfull.
  destruct (checkRateLimit_call parseInt1 config identifier windowMs maxRequests
              Hwindow random w ms Hup Hwin) as (r & w' & Hcall & _ & _ & Hcase).
  replace (Z.of_nat (length (live_members (clock w) windowMs ms)) <? maxRequests)
    with false in Hcase by (symmetry; apply Z.ltb_ge; lia).
  destruct Hcase as (Ha & Hr & Hw & Hreset).
  exists r, w'. repeat split; try assumption. intros Hnow. apply Hreset. lia.
Qed.

Lemma checkRateLimit_denial_records_nothing_witness :
  let key := RedisService.getKey Demo.config ("rate_limit:" ++ "203.0.113.7") in
  let ms := [(1699999900000, "1699999900000-0.3")] in
  let w := Demo.world {[ key := mkEntry (RZSet ms) (Some 900) ]} [] in
  exists r w',
    RateLimiting.checkRateLimit (parseInt Demo.ext) Demo.config "0.5" "203.0.113.7"
      900000 1 w = (Ok r, w') /\
    RateLimiting.allowed r = false /\
    RateLimiting.resetTime r = JS.Num (clock w + 900000).
Proof.
  intros key ms w.
  destruct (checkRateLimit_denial_records_nothing (parseInt Demo.ext) Demo.config "0.5"
              "203.0.113.7" 900000 1 w ms) as (r & w' & Hrun & Ha & _ & _ & Hreset).
  - lia.
  - reflexivity.
  - vm_compute. reflexivity.
  - vm_compute. discriminate.
  - exists r, w'. split; [exact Hrun|]. split; [exact Ha|]. apply Hreset.
    vm_compute. discriminate.
Defined.


(** ** The sliding window of the rate limit *)

Lemma live_members_later now windowMs ms :
  Forall (fun m => 0 <= fst m) ms ->
  live_members now windowMs ms = List.filter (fun m => now - windowMs <? fst m) ms.
Proof.
  intros Hpos. unfold live_members. induction Hpos as [|m ms Hm Hall IH]; [reflexivity|].
  cbn [List.filter]. rewrite IH.
  replace (negb ((0 <=? fst m) && (fst m <=? now - windowMs)))
    with (now - windowMs <? fst m); [reflexivity|].
  replace (0 <=? fst m) with true by (symmetry; apply Z.leb_le; exact Hm).
  cbn [andb]. rewrite Z.ltb_antisym. reflexivity.
Qed.

Lemma filter_scores (p : Z -> bool) (ms : list (Z * string)) :
  map fst (List.filter (fun m => p (fst m)) ms) = List.filter p (map fst ms).
Proof.
  induction ms as [|m ms IH]; [reflexivity|]. cbn [map List.filter].
  destruct (p (fst m)); cbn [map]; rewrite IH; reflexivity.
Qed.

Lemma allowed_times_later t0 t1 log :
  t0 <= t1 ->
  List.filter (fun s => t1 <? s) (allowed_times t0 log) = allowed_times t1 log.
Proof.
  intros Hle. unfold allowed_times. induction log as [|[t a] log IH]; [reflexivity|].
  cbn [List.filter map fst snd].
  destruct a; cbn [andb].
  - destruct (t0 <? t) eqn:E0; cbn [map List.filter fst].
    + destruct (t1 <? t); cbn [map fst]; rewrite IH; reflexivity.
    + replace (t1 <? t) with false; [exact IH|].
      symmetry. apply Z.ltb_ge. apply Z.ltb_ge in E0. lia.
  - exact IH.
Qed.

Lemma allowed_times_app t0 log t a :
  allowed_times t0 (log ++ [(t, a)]) =
  (allowed_times t0 log ++ if (a && (t0 <? t))%bool then [t] else [])%list.
Proof.
  unfold allowed_times. rewrite List.filter_app, map_app. cbn [List.filter fst snd].
  destruct (a && (t0 <? t))%bool; reflexivity.
Qed.

Lemma without_absent member ms :
  ~ In member (map snd ms) -> ClientExt.without_member member ms = ms.
Proof.
  intros Hfresh. unfold ClientExt.without_member.
  induction ms as [|m ms IH]; [reflexivity|]. cbn [List.filter].
  destruct (String.eqb (snd m) member) eqn:E; cbn [negb].
  - exfalso. apply String.eqb_eq in E. apply Hfresh. left. exact E.
  - rewrite IH; [reflexivity|]. intros Hin. apply Hfresh. right. exact Hin.
Qed.

Lemma filter_members_incl (p : Z * string -> bool) ms member :
  In member (map snd (List.filter p ms)) -> In member (map snd ms).
Proof.
  intros H. apply in_map_iff in H as (m & <- & Hm). apply List.filter_In in Hm as [Hm _].
  apply in_map. exact Hm.
Qed.

Lemma filter_members_sublist (p : Z * string -> bool) ms :
  map snd (List.filter p ms) `sublist_of` map snd ms.
Proof.
  induction ms as [|m ms IH]; [reflexivity|]. cbn [List.filter map].
  destruct (p m); [apply sublist_skip | apply sublist_cons]; exact IH.
Qed.

Section Sliding.
Variables (parseInt1 : string -> JS.number) (config : Config).
Variables (identifier : string) (windowMs maxRequests : Z).
Hypothesis Hwindow : 0 < windowMs.

Let key := RedisService.getKey config ("rate_limit:" ++ identifier).
Let call (step : Z * string) : M RateLimiting.RateLimitResult :=
  (run tick (fst step) ;
   RateLimiting.checkRateLimit parseInt1 config (snd step) identifier windowMs
     maxRequests)%M.

Lemma sliding_from steps : forall w ms log0,
  redis_up w = true ->
  window_of w key = Some ms ->
  0 <= clock w ->
  Forall (fun step => 0 <= fst step) steps ->
  Forall (fun m => 0 <= fst m) ms ->
  map fst ms = allowed_times (clock w - windowMs) log0 ->
  Z.of_nat (length ms) <= Z.max 0 maxRequests ->
  NoDup (map snd ms ++ map snd (stamps (clock w) steps)) ->
  exists results w',
    for_each call steps w = (Ok results, w') /\
    length results = length steps /\
    forall i t,
      map fst (stamps (clock w) steps) !! i = Some t ->
      let log := (log0 ++ take i (zip (map fst (stamps (clock w) steps))
                                      (map RateLimiting.allowed results)))%list in
      map RateLimiting.allowed results !! i =
        Some (Z.of_nat (allowed_since (t - windowMs) log) <? maxRequests) /\
      Z.of_nat (allowed_since (t - windowMs)
                  (log0 ++ take (S i) (zip (map fst (stamps (clock w) steps))
                                           (map RateLimiting.allowed results))))
        <= Z.max 0 maxRequests.
Proof.
  induction steps as [|[d random] steps IH];
    intros w ms log0 Hup Hwin Hclock Hdelays Hscores Hinv Hbound Hnd.
  - exists [], w. split; [reflexivity|]. split; [reflexivity|].
    intros i t Hi. destruct i; discriminate.
  - apply Forall_cons in Hdelays as [Hd Hdelays]. cbn [fst] in Hd.
    set (w0 := mkWorld (clock w + d) (redis_up w) (redis w) (db_up w)
                       (transactions w) (next_id w) (trace w)).
    set (t := clock w + d).
    set (member := JS.concat [JS.toString t; "-"; random]).
    assert (Hwin0 : window_of w0 key = Some ms) by exact Hwin.
    destruct (checkRateLimit_call parseInt1 config identifier windowMs maxRequests
                Hwindow random w0 ms Hup Hwin0) as (r & w1 & Hcall & Hup1 & Hclk1 & Hcase).
    fold key in Hcase. cbn [clock w0] in Hcase, Hclk1. fold t in Hcase, Hclk1.
    fold member in Hcase.
    set (live := live_members t windowMs ms) in *.
    assert (Hlive : live = List.filter (fun m => t - windowMs <? fst m) ms)
      by (apply live_members_later; exact Hscores).
    assert (Hlive_scores : Forall (fun m => 0 <= fst m) live).
    { rewrite Hlive. apply List.Forall_forall. intros m Hm.
      apply List.filter_In in Hm as [Hm _].
      rewrite List.Forall_forall in Hscores. apply Hscores, Hm. }
    assert (Hlive_times : map fst live = allowed_times (t - windowMs) log0).
    { rewrite Hlive, (filter_scores (fun s => t - windowMs <? s)), Hinv.
      apply allowed_times_later. subst t. lia. }
    assert (Hlive_len : (length live <= length ms)%nat).
    { rewrite Hlive. apply List.filter_length_le. }
    assert (Hcount : length live = allowed_since (t - windowMs) log0).
    { unfold allowed_since. rewrite <- Hlive_times, length_map. reflexivity. }
    cbn [stamps] in Hnd. fold t in Hnd. fold member in Hnd. cbn [map snd] in Hnd.
    assert (Hfresh : ~ In member (map snd live)).
    { intros Hin. rewrite Hlive in Hin. apply filter_members_incl in Hin.
      apply NoDup_app in Hnd as (_ & Hdisj & _).
      apply (Hdisj member); [apply list_elem_of_In; exact Hin | left]. }
    set (ok := Z.of_nat (length live) <? maxRequests) in *.
    set (ms1 := if ok then (live ++ [(t, member)])%list else live).
    assert (Hwin1 : window_of w1 key = Some ms1 /\ RateLimiting.allowed r = ok).
    { subst ms1. destruct ok.
      - destruct Hcase as [-> Hw1]. rewrite without_absent in Hw1 by exact Hfresh.
        split; [exact Hw1 | reflexivity].
      - destruct Hcase as (Ha & _ & Hw1 & _). split; assumption. }
    destruct Hwin1 as [Hwin1 Hallowed].
    assert (Hinv1 : map fst ms1 = allowed_times (clock w1 - windowMs) (log0 ++ [(t, ok)])).
    { rewrite Hclk1, allowed_times_app. subst ms1.
      replace (t - windowMs <? t) with true by (symmetry; apply Z.ltb_lt; lia).
      rewrite andb_true_r. destruct ok.
      - rewrite map_app, Hlive_times. reflexivity.
      - rewrite app_nil_r. exact Hlive_times. }
    assert (Hbound1 : Z.of_nat (length ms1) <= Z.max 0 maxRequests).
    { subst ms1. destruct ok eqn:Hok.
      - rewrite length_app. cbn [length]. apply Z.ltb_lt in Hok. lia.
      - lia. }
    destruct (IH w1 ms1 (log0 ++ [(t, ok)])%list Hup1 Hwin1) as
      (results & w' & Hrest & Hlen & Hspec).
    { rewrite Hclk1. subst t. lia. }
    { exact Hdelays. }
    { subst ms1. destruct ok; [|exact Hlive_scores].
      apply Forall_app. split; [exact Hlive_scores|].
      constructor; [cbn [fst]; subst t; lia | constructor]. }
    { exact Hinv1. }
    { exact Hbound1. }
    { rewrite Hclk1. eapply sublist_NoDup; [exact Hnd|].
      subst ms1. destruct ok.
      - rewrite map_app, <- app_assoc. apply sublist_app.
        + rewrite Hlive. apply filter_members_sublist.
        + reflexivity.
      - apply sublist_app.
        + rewrite Hlive. apply filter_members_sublist.
        + apply sublist_cons. reflexivity. }
    rewrite Hclk1 in Hspec.
    exists (r :: results), w'. split.
    { cbn [for_each].
      mstep ltac:(unfold call; cbn [fst snd];
                  erewrite bind_ok; [exact Hcall | reflexivity]).
      mstep ltac:(exact Hrest). reflexivity. }
    split; [cbn [length]; rewrite Hlen; reflexivity|].
    cbn [stamps map fst RateLimiting.allowed]. fold t. rewrite Hallowed.
    intros [|i] t' Hi.
    + cbn in Hi. injection Hi as <-. cbn [take zip zip_with]. rewrite app_nil_r.
      split.
      * cbn. unfold ok. rewrite Hcount. reflexivity.
      * rewrite take_0. unfold allowed_since. rewrite Hclk1 in Hinv1.
        rewrite <- Hinv1, length_map. exact Hbound1.
    + cbn in Hi. specialize (Hspec i t' Hi). cbv zeta in Hspec.
      rewrite <- !app_assoc in Hspec. exact Hspec.
Qed.

(** X9: for requests of one identifier arriving over time on a window
    that starts empty (no two of them adding the same member), a request is
    allowed exactly when fewer than [maxRequests] requests were allowed in
    the [windowMs] milliseconds before it; so at no request's time do the
    allowed requests of the last [windowMs] milliseconds exceed
    [maxRequests]. *)
Theorem checkRateLimit_slides_its_window steps w :
  redis_up w = true ->
  redis w !! key = None ->
  0 <= clock w ->
  Forall (fun step => 0 <= fst step) steps ->
  NoDup (map snd (stamps (clock w) steps)) ->
  exists results w',
    for_each call steps w = (Ok results, w') /\
    length results = length steps /\
    let times := map fst (stamps (clock w) steps) in
    let log := zip times (map RateLimiting.allowed results) in
    forall i t,
      times !! i = Some t ->
      map RateLimiting.allowed results !! i =
        Some (Z.of_nat (allowed_since (t - windowMs) (take i log)) <? maxRequests) /\
      Z.of_nat (allowed_since (t - windowMs) (take (S i) log)) <= Z.max 0 maxRequests.
Proof.
  intros Hup Hkey Hclock Hdelays Hnd.
  destruct (sliding_from steps w [] [] Hup) as (results & w' & Hrun & Hlen & Hspec).
  - unfold window_of. rewrite Hkey. reflexivity.
  - exact Hclock.
  - exact Hdelays.
  - constructor.
  - reflexivity.
  - cbn [length]. lia.
  - exact Hnd.
  - exists results, w'. split; [exact Hrun|]. split; [exact Hlen|]. exact Hspec.
Qed.
End Sliding.

Lemma checkRateLimit_slides_its_window_witness :
  let steps := [(0, "0.1"); (0, "0.2"); (500, "0.3"); (600, "0.4")] in
  exists results w',
    for_each (fun step : Z * string =>
                run tick (fst step) ;
                RateLimiting.checkRateLimit (parseInt Demo.ext) Demo.config (snd step)
                  "203.0.113.7" 1000 2)%M steps (Demo.world ∅ []) = (Ok results, w') /\
    map RateLimiting.allowed results = [true; true; false; true].
Proof.
  intros steps.
  destruct (checkRateLimit_slides_its_window (parseInt Demo.ext) Demo.config
              "203.0.113.7" 1000 2 ltac:(lia) steps (Demo.world ∅ []))
    as (results & w' & Hrun & _).
  - reflexivity.
  - vm_compute. reflexivity.
  - cbn. lia.
  - repeat constructor; cbn; lia.
  - apply (bool_decide_unpack _). vm_compute. reflexivity.
  - exists results, w'. split; [exact Hrun|].
    vm_compute in Hrun. injection Hrun as <- _. reflexivity.
Defined.


(** ** Pending transactions and the cache *)

Section Tracking.
Context {J : Type} (JSON_parse : string -> option J).
Variables (ext : Externals) (config : Config).

Lemma pendingKey_inj h h' :
  TransactionTracking.pendingKey config h = TransactionTracking.pendingKey config h' ->
  h = h'.
Proof.
  unfold TransactionTracking.pendingKey, RedisService.getKey. intros H.
  apply append_inj_l in H. apply (append_inj_l "pending_tx:") in H. exact H.
Qed.

Lemma del_up key w :
  redis_up w = true ->
  exists n, ClientExt.del key w =
            (Ok n, set_redis (delete key) (add_event (EvRedis "DEL" key) w)).
Proof.
  intros Hup. unfold ClientExt.del.
  destruct (redis w !! key) as [e|] eqn:E.
  - exists 1. mstep ltac:(apply command_up; exact Hup). mstep ltac:(reflexivity).
    cbn [redis add_event]. rewrite E. mstep ltac:(reflexivity). reflexivity.
  - exists 0. mstep ltac:(apply command_up; exact Hup). mstep ltac:(reflexivity).
    cbn [redis add_event]. rewrite E. unfold ret, set_redis. cbn [redis add_event].
    rewrite delete_id by exact E. reflexivity.
Qed.

(** X12: with Redis reachable, a pending transaction that was tracked is
    returned, parsed, by [getPendingTransaction] on its hash; tracking
    touches the entry of no other hash; and after
    [removePendingTransaction] the lookup returns [null]. *)
Theorem pending_transaction_round_trip txHash request timestamp w j :
  redis_up w = true ->
  JSON_parse (stringify_pending ext request timestamp) = Some j ->
  JS.truthy (stringify_pending ext request timestamp) = true ->
  exists w1 w2 w3 w4,
    RedisService.trackPendingTransaction ext config txHash request timestamp w =
      (Ok tt, w1) /\
    TransactionTracking.getPendingTransaction JSON_parse config txHash w1 =
      (Ok (Some j), w2) /\
    (forall h, h <> txHash ->
               redis w1 !! TransactionTracking.pendingKey config h =
               redis w !! TransactionTracking.pendingKey config h) /\
    TransactionTracking.removePendingTransaction config txHash w2 = (Ok tt, w3) /\
    TransactionTracking.getPendingTransaction JSON_parse config txHash w3 =
      (Ok None, w4).
Proof.
  intros Hup Hparse Htruthy.
  set (key := TransactionTracking.pendingKey config txHash).
  destruct (del_up key
              (add_event (EvRedis "GET" key)
                 (set_redis (insert key (mkEntry
                    (RString (stringify_pending ext request timestamp)) (Some 3600)))
                    (add_event (EvRedis "SETEX" key) (add_event (EvTrackPending txHash) w))))
              Hup) as (n & Hdel).
  do 4 eexists. split; [|split; [|split; [|split]]].
  - unfold RedisService.trackPendingTransaction.
    fold (TransactionTracking.pendingKey config txHash). fold key.
    mstep ltac:(reflexivity). unfold Client.setEx.
    mstep ltac:(apply command_up; exact Hup). reflexivity.
  - unfold TransactionTracking.getPendingTransaction. fold key.
    erewrite try_ok; [reflexivity|].
    mstep ltac:(eapply get_string; [exact Hup | simpl; apply lookup_insert_eq]).
    rewrite Htruthy, Hparse. reflexivity.
  - intros h Hne. cbn [redis set_redis add_event]. apply lookup_insert_ne.
    intros Heq. apply Hne. symmetry. apply pendingKey_inj. exact Heq.
  - unfold TransactionTracking.removePendingTransaction. fold key.
    erewrite try_ok; [reflexivity|]. mstep ltac:(exact Hdel). reflexivity.
  - unfold TransactionTracking.getPendingTransaction. fold key.
    erewrite try_ok; [reflexivity|].
    mstep ltac:(eapply get_absent; [exact Hup | simpl; apply lookup_delete_eq]).
    reflexivity.
Qed.
End Tracking.

Lemma pending_transaction_round_trip_witness :
  let request := Demo.request "10" "100000" "0" in
  exists w1 w2,
    RedisService.trackPendingTransaction Demo.ext Demo.config "0xabc" request 5
      (Demo.world ∅ []) = (Ok tt, w1) /\
    TransactionTracking.getPendingTransaction (fun s => Some s) Demo.config "0xabc" w1 =
      (Ok (Some (stringify_pending Demo.ext request 5)), w2).
Proof.
  intros request.
  destruct (pending_transaction_round_trip (fun s => Some s) Demo.ext Demo.config "0xabc"
              request 5 (Demo.world ∅ []) (stringify_pending Demo.ext request 5)
              eq_refl eq_refl eq_refl) as (w1 & w2 & _ & _ & H1 & H2 & _).
  exists w1, w2. split; assumption.
Defined.

Lemma exists_present key e w :
  redis_up w = true ->
  redis w !! key = Some e ->
  ClientExt.exists_ key w = (Ok 1, add_event (EvRedis "EXISTS" key) w).
Proof.
  intros Hup Hkey. unfold ClientExt.exists_.
  mstep ltac:(apply command_up; exact Hup). mstep ltac:(reflexivity).
  cbn [redis add_event]. rewrite Hkey. reflexivity.
Qed.

Section CacheLaws.
Context {J : Type} (JSON_parse : string -> option J).
Variable config : Config.

(** X13: with Redis reachable and a time to live that is not negative,
    [set] stores the serialized value (without expiry when the time to live
    is missing or 0), [exists] then answers [true], and [get] returns the
    value parsed as JSON when it parses, the stored text when it does not,
    and [null] when the text is empty. *)
Theorem cache_get_after_set key v ttlSeconds w :
  redis_up w = true ->
  (forall t, ttlSeconds = Some t -> 0 <= t) ->
  exists w1 w2 w3,
    Cache.set config key v ttlSeconds w = (Ok tt, w1) /\
    redis w1 !! RedisService.getKey config key =
      Some (mkEntry (RString (Cache.serialize v))
              (match ttlSeconds with
               | Some t => if t =? 0 then None else Some t
               | None => None
               end)) /\
    Cache.get JSON_parse config key w1 =
      (Ok (if JS.truthy (Cache.serialize v)
           then match JSON_parse (Cache.serialize v) with
                | Some j => Some (Cache.Parsed j)
                | None => Some (Cache.Raw (Cache.serialize v))
                end
           else None), w2) /\
    Cache.exists_ config key w2 = (Ok true, w3).
Proof.
  intros Hup Httl.
  set (k := RedisService.getKey config key).
  assert (Hset : exists w1,
             Cache.set config key v ttlSeconds w = (Ok tt, w1) /\
             redis_up w1 = true /\
             redis w1 !! k =
               Some (mkEntry (RString (Cache.serialize v))
                       (match ttlSeconds with
                        | Some t => if t =? 0 then None else Some t
                        | None => None
                        end))).
  { unfold Cache.set. fold k. destruct ttlSeconds as [t|].
    - destruct (t =? 0) eqn:E.
      + eexists. split; [apply set_up; exact Hup|]. split; [exact Hup|].
        cbn [redis set_redis add_event]. apply lookup_insert_eq.
      + eexists. split.
        { unfold ClientExt.setEx. mstep ltac:(apply command_up; exact Hup).
          replace (t <=? 0) with false; [reflexivity|].
          symmetry. apply Z.leb_gt. apply Z.eqb_neq in E. specialize (Httl t eq_refl). lia. }
        split; [exact Hup|]. cbn [redis set_redis add_event]. apply lookup_insert_eq.
    - eexists. split; [apply set_up; exact Hup|]. split; [exact Hup|].
      cbn [redis set_redis add_event]. apply lookup_insert_eq. }
  destruct Hset as (w1 & Hrun & Hup1 & Hkey1).
  exists w1. do 2 eexists. split; [exact Hrun|]. split; [exact Hkey1|]. split.
  - unfold Cache.get. fold k. erewrite try_ok; [reflexivity|].
    mstep ltac:(eapply get_string; [exact Hup1 | exact Hkey1]).
    destruct (JS.truthy (Cache.serialize v)); [|reflexivity].
    destruct (JSON_parse (Cache.serialize v)); reflexivity.
  - unfold Cache.exists_. fold k. erewrite try_ok; [reflexivity|].
    mstep ltac:(eapply exists_present; [exact Hup1 | exact Hkey1]). reflexivity.
Qed.

(** X14: when the Redis client rejects every command (a closed client, or
    a server that answers with an error), the reads [get], [exists] and
    [getPendingTransaction] answer as for a missing key and [del] and
    [removePendingTransaction] return normally, while the writes [set] and
    [trackPendingTransaction] throw. *)
Theorem rejected_commands_read_as_miss ext key txHash request timestamp v ttlSeconds w :
  redis_up w = false ->
  (exists w', Cache.get JSON_parse config key w = (Ok None, w')) /\
  (exists w', Cache.exists_ config key w = (Ok false, w')) /\
  (exists w', Cache.del config key w = (Ok tt, w')) /\
  (exists w', TransactionTracking.getPendingTransaction JSON_parse config txHash w =
              (Ok None, w')) /\
  (exists w', TransactionTracking.removePendingTransaction config txHash w = (Ok tt, w')) /\
  (exists e w', Cache.set config key v ttlSeconds w = (Throw e, w')) /\
  (exists e w', RedisService.trackPendingTransaction ext config txHash request timestamp w =
                (Throw e, w')).
Proof.
  intros Hdown.
  assert (Hcmd : forall name k w0, redis_up w0 = false ->
            Client.command name k w0 =
            (Throw "Redis connection error", add_event (EvRedis name k) w0)).
  { intros name k w0 H0. unfold Client.command. mstep ltac:(reflexivity).
    cbn [redis_up add_event]. rewrite H0. reflexivity. }
  repeat split.
  - eexists. unfold Cache.get. erewrite try_throw; [reflexivity|].
    erewrite bind_throw; [reflexivity|]. unfold Client.get.
    erewrite bind_throw; [reflexivity|]. apply Hcmd, Hdown.
  - eexists. unfold Cache.exists_. erewrite try_throw; [reflexivity|].
    erewrite bind_throw; [reflexivity|]. unfold ClientExt.exists_.
    erewrite bind_throw; [reflexivity|]. apply Hcmd, Hdown.
  - eexists. unfold Cache.del. erewrite try_throw; [reflexivity|].
    erewrite bind_throw; [reflexivity|]. unfold ClientExt.del.
    erewrite bind_throw; [reflexivity|]. apply Hcmd, Hdown.
  - eexists. unfold TransactionTracking.getPendingTransaction.
    erewrite try_throw; [reflexivity|].
    erewrite bind_throw; [reflexivity|]. unfold Client.get.
    erewrite bind_throw; [reflexivity|]. apply Hcmd, Hdown.
  - eexists. unfold TransactionTracking.removePendingTransaction.
    erewrite try_throw; [reflexivity|].
    erewrite bind_throw; [reflexivity|]. unfold ClientExt.del.
    erewrite bind_throw; [reflexivity|]. apply Hcmd, Hdown.
  - unfold Cache.set.
    assert (Hs : forall s, exists e w', Client.set (RedisService.getKey config key) s w =
                                        (Throw e, w')).
    { intros s. do 2 eexists. unfold Client.set.
      erewrite bind_throw; [reflexivity|]. apply Hcmd, Hdown. }
    destruct ttlSeconds as [t|]; [|apply Hs].
    destruct (t =? 0); [apply Hs|].
    do 2 eexists. unfold ClientExt.setEx.
    erewrite bind_throw; [reflexivity|]. apply Hcmd, Hdown.
  - do 2 eexists. unfold RedisService.trackPendingTransaction.
    mstep ltac:(reflexivity). unfold Client.setEx.
    erewrite bind_throw; [reflexivity|]. apply Hcmd. exact Hdown.
Qed.
End CacheLaws.

Lemma cache_get_after_set_witness :
  exists w1 w2,
    Cache.set Demo.config "greeting" (Cache.Text "hello") (Some 60) (Demo.world ∅ []) =
      (Ok tt, w1) /\
    Cache.get Demo.decimal Demo.config "greeting" w1 = (Ok (Some (Cache.Raw "hello")), w2).
Proof.
  destruct (cache_get_after_set Demo.decimal Demo.config "greeting" (Cache.Text "hello")
              (Some 60) (Demo.world ∅ []) eq_refl) as (w1 & w2 & _ & H1 & _ & H2 & _).
  - intros t Ht. injection Ht as <-. lia.
  - exists w1, w2. split; [exact H1 | exact H2].
Defined.

Lemma rejected_commands_read_as_miss_witness :
  exists w',
    Cache.get Demo.decimal Demo.config "greeting" (Demo.redis_down (Demo.world ∅ [])) =
    (Ok None, w').
Proof.
  exact (proj1 (rejected_commands_read_as_miss Demo.decimal Demo.config Demo.ext "greeting"
                  "0xabc" (Demo.request "10" "100000" "0") 5 (Cache.Text "hello") None
                  (Demo.redis_down (Demo.world ∅ [])) eq_refl)).
Defined.


(** ** A successful relay and the store *)

Lemma bind_inv {A B} (m : M A) (k : A -> M B) w b w' :
  bind m k w = (Ok b, w') ->
  exists a w1, m w = (Ok a, w1) /\ k a w1 = (Ok b, w').
Proof.
  unfold bind. destruct (m w) as [[a|e] w1]; [|discriminate]. intros H. eauto.
Qed.

Lemma bind_inv_frame {A B} (R : relation World) `{!PreOrder R}
    (m : M A) (k : A -> M B) w0 w b w' :
  R w0 w -> preserves R m ->
  bind m k w = (Ok b, w') ->
  exists a w1, R w0 w1 /\ k a w1 = (Ok b, w').
Proof.
  intros H0 Hm H. apply bind_inv in H as (a & w1 & Hrun & H).
  exists a, w1. split; [|exact H]. specialize (Hm w). rewrite Hrun in Hm.
  etransitivity; [exact H0 | exact Hm].
Qed.

Lemma saveTransaction_inv t w row w' :
  DatabaseService.saveTransaction t w = (Ok row, w') ->
  db_up w = true /\
  DatabaseService.has_hash (tx_hash t) (transactions w) = false /\
  row = mkTx (Some (next_id w)) (tx_hash t) (from_address t) (to_address t)
             (network t) (status t) (gas_used t) (gas_price t) (block_number t)
             (Some (clock w)) (Some (clock w)) (meta_tx_hash t)
             (relayer_address t) (token_address t) (token_type t)
             (amount t) (token_id t) /\
  w' = set_transactions (transactions w ++ [row]) (next_id w + 1)
         (add_event (EvSaveTransaction t) w).
Proof.
  intros H. destruct (db_up w) eqn:Hup.
  - destruct (DatabaseService.has_hash (tx_hash t) (transactions w)) eqn:Hh.
    + rewrite (saveTransaction_duplicate t w Hup Hh) in H. discriminate.
    + rewrite (saveTransaction_fresh t w Hup Hh) in H. injection H as <- <-. auto.
  - rewrite (saveTransaction_down t w Hup) in H. discriminate.
Qed.

Lemma trackPendingTransaction_inv ext config h request now w w' :
  RedisService.trackPendingTransaction ext config h request now w = (Ok tt, w') ->
  w' = set_redis (insert (TransactionTracking.pendingKey config h)
                    (mkEntry (RString (stringify_pending ext request now)) (Some 3600)))
         (add_event (EvRedis "SETEX" (TransactionTracking.pendingKey config h))
            (add_event (EvTrackPending h) w)).
Proof.
  unfold RedisService.trackPendingTransaction, Client.setEx, Client.command, bind,
    log_event, modify. cbn [redis_up add_event].
  destruct (redis_up w); [|discriminate]. intros H. injection H as <-. reflexivity.
Qed.

Lemma quiet_submit ext config request provider signer transaction :
  preserves before_store
    (RelayerService.submit ext config request provider signer transaction).
Proof.
  intros w. pose proof (submit_spec ext config request provider signer transaction w) as H.
  destruct (RelayerService.submit ext config request provider signer transaction w)
    as [[sent|e] w1]; [apply submitted_before|]; exact H.
Qed.

Section Recorded.
Variables (ext : Externals) (config : Config) (svc : RelayerService.t).
Variable request : MetaTransactionRequest.

(** X15: when [relayTransaction] reports success, the hash it returns was
    not in the table before, the table has grown by exactly one row with
    that hash, status [pending] and the request's sender, recipient and
    network, [getTransactionStatus] on the hash returns that row, and the
    request is tracked in Redis under the hash for 3600 seconds. *)
Theorem successful_relay_is_recorded w res w' :
  RelayerService.relayTransaction ext config svc request w = (Ok res, w') ->
  RelayerService.success res = true ->
  exists h row now,
    RelayerService.txHash res = Some h /\
    DatabaseService.has_hash h (transactions w) = false /\
    transactions w' = (transactions w ++ [row])%list /\
    tx_hash row = h /\ status row = pending /\
    from_address row = req_from request /\ to_address row = req_to request /\
    network row = req_network request /\
    RelayerQueries.getTransactionStatus h w' = (Ok (Some row), w') /\
    redis w' !! TransactionTracking.pendingKey config h =
      Some (mkEntry (RString (stringify_pending ext request now)) (Some 3600)).
Proof.
  intros Hrun Hsucc. unfold RelayerService.relayTransaction in Hrun.
  destruct (negb (RelayerService.isInitialized svc)); [discriminate|].
  unfold try_catch in Hrun.
  match type of Hrun with
  | match ?body w with _ => _ end = _ => destruct (body w) as [[r|e] w1] eqn:Hbody
  end.
  2:{ unfold bind, log_event, modify, ret in Hrun. injection Hrun as <- _.
      discriminate. }
  injection Hrun as -> ->.
  assert (H0 : before_store w w) by reflexivity.
  revert H0 Hbody. generalize w at 2 3 as wc. intros wc H0 Hbody.
  apply (bind_inv_frame before_store _ _ w) in Hbody as (_ & wa & Ha & Hbody);
    [|exact H0|apply quiet_validateRequest]. clear wc H0.
  apply (bind_inv_frame before_store _ _ w) in Hbody as (policyResult & wb & Hb & Hbody);
    [|exact Ha|apply quiet_checkPolicies]. clear wa Ha.
  destruct (negb (PolicyEngine.allowed policyResult)); [discriminate|].
  destruct (RelayerService.providers svc !! req_network request) as [provider|];
    [|discriminate].
  destruct (RelayerService.signers svc !! req_network request) as [signer|];
    [|discriminate].
  apply (bind_inv_frame before_store _ _ w) in Hbody as (_ & wa & Ha & Hbody);
    [|exact Hb|apply quiet_verify]. clear wb Hb.
  apply (bind_inv_frame before_store _ _ w) in Hbody as (_ & wb & Hb & Hbody);
    [|exact Ha|apply quiet_simulate]. clear wa Ha.
  apply (bind_inv_frame before_store _ _ w) in Hbody as (gasPrice & wa & Ha & Hbody);
    [|exact Hb|apply quiet_gasPrice]. clear wb Hb.
  apply (bind_inv_frame before_store _ _ w) in Hbody as (gasLimit & wb & Hb & Hbody);
    [|exact Ha|apply quiet_estimateGas]. clear wa Ha.
  apply (bind_inv_frame before_store _ _ w) in Hbody as (nonce & wa & Ha & Hbody);
    [|exact Hb|apply quiet_getNextNonce]. clear wb Hb.
  cbv zeta in Hbody.
  apply (bind_inv_frame before_store _ _ w) in Hbody as (sent & wb & Hb & Hbody);
    [|exact Ha|apply quiet_submit]. clear wa Ha.
  apply (bind_inv_frame before_store _ _ w) in Hbody as (relayerAddress & wa & Ha & Hbody);
    [|exact Hb|apply quiet_getAddress]. clear wb Hb.
  apply bind_inv in Hbody as (row & wb & Hsave & Hbody).
  apply saveTransaction_inv in Hsave as (Hup & Hfresh & Hrow & ->).
  cbn [tx_hash from_address to_address network status] in Hfresh, Hrow.
  destruct Ha as [Hrows _]. rewrite Hrows in *.
  apply bind_inv in Hbody as (now & wc & Hnow & Hbody).
  unfold Date_now in Hnow. injection Hnow as <- <-.
  apply bind_inv in Hbody as ([] & wc & Htrack & Hbody).
  apply trackPendingTransaction_inv in Htrack. subst wc.
  unfold bind, log_event, modify, ret in Hbody. injection Hbody as <- <-.
  eexists (fst sent), row, _. cbn [RelayerService.txHash].
  split; [reflexivity|]. split; [exact Hfresh|].
  cbn [transactions set_transactions set_redis add_event redis].
  split; [reflexivity|].
  rewrite Hrow. cbn [tx_hash from_address to_address network status].
  do 5 (split; [reflexivity|]). split.
  - unfold RelayerQueries.getTransactionStatus.
    erewrite try_ok; [reflexivity|].
    rewrite getTransaction_up by exact Hup.
    cbn [transactions set_transactions set_redis add_event].
    apply has_hash_find in Hfresh. rewrite (find_app_fresh _ _ _ Hfresh).
    cbn [tx_hash]. rewrite String.eqb_refl. reflexivity.
  - apply lookup_insert_eq.
Qed.
End Recorded.

Lemma successful_relay_is_recorded_witness :
  let out := RelayerService.relayTransaction Demo.ext Demo.config
               (Demo.service (Demo.provider 1000000000 50000 5) ∅ ∅)
               (Demo.request "10" "100000" "0") (Demo.world ∅ []) in
  exists res row,
    fst out = Ok res /\
    transactions (snd out) = [row] /\ status row = pending.
Proof.
  intros out.
  assert (Hfst : exists res, fst out = Ok res /\ RelayerService.success res = true).
  { vm_compute. eexists. split; reflexivity. }
  destruct Hfst as (res & Hfst & Hs).
  assert (Hrun : out = (Ok res, snd out)).
  { rewrite <- Hfst. apply surjective_pairing. }
  destruct (successful_relay_is_recorded Demo.ext Demo.config _ _ _ _ _ Hrun Hs)
    as (h & row & now & _ & _ & Hrows & _ & Hst & _).
  exists res, row. split; [exact Hfst|]. split; [exact Hrows | exact Hst].
Defined.


(** ** Admission comes before any chain call *)

#[local] Instance off_chain_preorder : PreOrder off_chain.
Proof.
  split.
  - intros w. exists []. rewrite app_nil_r. auto.
  - intros w1 w2 w3 (e1 & He1 & Hf1) (e2 & He2 & Hf2).
    exists (e1 ++ e2)%list. rewrite He2, He1, app_assoc. split; [reflexivity|].
    apply Forall_app; auto.
Qed.

Lemma off_chain_event e w : is_chain_call e = false -> off_chain w (add_event e w).
Proof. intros H. exists [e]. split; [reflexivity|]. constructor; [exact H | constructor]. Qed.

Lemma off_chain_redis f w : off_chain w (set_redis f w).
Proof. exists []. simpl. rewrite app_nil_r. auto. Qed.

Lemma off_chain_absurd w w' evs :
  off_chain w w' ->
  trace w' = (trace w ++ evs)%list ->
  Exists (fun e => is_chain_call e = true) evs ->
  False.
Proof.
  intros (evs' & He & Hf) Ht Hx. rewrite He in Ht. apply app_inv_head in Ht. subst evs'.
  apply List.Exists_exists in Hx as (e & Hin & He1).
  rewrite List.Forall_forall in Hf. specialize (Hf e Hin). congruence.
Qed.

Ltac offchain :=
  repeat first
    [ preserves_step
    | lazymatch goal with
      | |- preserves ?R (modify (set_redis _)) =>
          refine (preserves_modify R _ _); intros ?; apply off_chain_redis
      | |- preserves ?R (log_event _) => unfold log_event
      | |- preserves ?R (modify (add_event _)) =>
          refine (preserves_modify R _ _); intros ?; apply off_chain_event; reflexivity
      | |- preserves ?R (ask _ _) =>
          refine (preserves_ask R _ _ _); intros ?; apply off_chain_event; reflexivity
      | |- preserves ?R (fun _ => _) =>
          refine (preserves_fun R _ _); intros ?;
          solve [ reflexivity | repeat case_match; reflexivity ]
      end ].

Section Admission.
Variables (ext : Externals) (config : Config) (svc : RelayerService.t).
Variable request : MetaTransactionRequest.

Lemma off_chain_validateRequest :
  preserves off_chain (RelayerService.validateRequest ext config svc request).
Proof. autounfold with relayer. offchain. Qed.

Lemma off_chain_checkPolicies pe :
  preserves off_chain (PolicyEngine.checkPolicies ext pe request).
Proof. autounfold with relayer. offchain. Qed.

Lemma off_chain_verify :
  preserves off_chain (RelayerService.verifyMetaTransactionSignature ext config request).
Proof. autounfold with relayer. offchain. Qed.

Lemma off_chain_failed w w1 e :
  off_chain w w1 ->
  off_chain w
    (snd ((run log_event (EvMetricTransaction (req_network request) "failed") ;
           ret (RelayerService.failure e))%M w1)).
Proof.
  intros H. etransitivity; [exact H|]. apply off_chain_event. reflexivity.
Qed.

(** X16: in a run of [relayTransaction] that calls the chain client, the
    signer or the bundle relay at all, the service was initialized, the
    request passed [validateRequest], [checkPolicies] allowed it and the
    signature was verified, in this order, and no such call was made before
    the verification had passed. *)
Theorem chain_calls_need_admission w r w' evs :
  RelayerService.relayTransaction ext config svc request w = (r, w') ->
  trace w' = (trace w ++ evs)%list ->
  Exists (fun e => is_chain_call e = true) evs ->
  RelayerService.isInitialized svc = true /\
  exists w1 policyResult w2 w3,
    RelayerService.validateRequest ext config svc request w = (Ok tt, w1) /\
    PolicyEngine.checkPolicies ext (RelayerService.policyEngine svc) request w1 =
      (Ok policyResult, w2) /\
    PolicyEngine.allowed policyResult = true /\
    RelayerService.verifyMetaTransactionSignature ext config request w2 = (Ok tt, w3) /\
    off_chain w w3.
Proof.
  intros Hrun Htrace Hx. unfold RelayerService.relayTransaction in Hrun.
  destruct (RelayerService.isInitialized svc); cbn [negb] in Hrun; cbv iota in Hrun.
  2:{ exfalso. injection Hrun as _ <-. apply (off_chain_absurd w w evs); auto. reflexivity. }
  split; [reflexivity|].
  assert (Hfail : forall e w1, off_chain w w1 ->
            (run log_event (EvMetricTransaction (req_network request) "failed") ;
             ret (RelayerService.failure e))%M w1 = (r, w') -> False).
  { intros e w1 H1 Heq. pose proof (off_chain_failed w w1 e H1) as H2.
    rewrite Heq in H2. apply (off_chain_absurd w w' evs); assumption. }
  unfold try_catch in Hrun.
  pose proof (off_chain_validateRequest w) as Hv.
  destruct (RelayerService.validateRequest ext config svc request w) as [[[]|e] w1] eqn:Ev;
    cbn [snd] in Hv.
  2:{ exfalso. erewrite bind_throw in Hrun by exact Ev. eapply Hfail; eassumption. }
  erewrite bind_ok in Hrun by exact Ev. cbv beta in Hrun.
  pose proof (off_chain_checkPolicies (RelayerService.policyEngine svc) w1) as Hp.
  destruct (PolicyEngine.checkPolicies ext (RelayerService.policyEngine svc) request w1)
    as [[p|e] w2] eqn:Ep; cbn [snd] in Hp.
  2:{ exfalso. erewrite bind_throw in Hrun by exact Ep. eapply Hfail; [|eassumption].
      etransitivity; eassumption. }
  erewrite bind_ok in Hrun by exact Ep. cbv beta in Hrun.
  assert (H2 : off_chain w w2) by (etransitivity; eassumption).
  destruct (PolicyEngine.allowed p) eqn:Ea; cbn [negb] in Hrun; cbv iota in Hrun.
  2:{ exfalso. unfold throw in Hrun at 1. eapply Hfail; eassumption. }
  destruct (RelayerService.providers svc !! req_network request) as [provider|].
  2:{ exfalso. unfold throw in Hrun at 1. eapply Hfail; eassumption. }
  destruct (RelayerService.signers svc !! req_network request) as [signer|].
  2:{ exfalso. unfold throw in Hrun at 1. eapply Hfail; eassumption. }
  pose proof (off_chain_verify w2) as Hs.
  destruct (RelayerService.verifyMetaTransactionSignature ext config request w2)
    as [[[]|e] w3] eqn:Es; cbn [snd] in Hs.
  2:{ exfalso. erewrite bind_throw in Hrun by exact Es. eapply Hfail; [|eassumption].
      etransitivity; eassumption. }
  exists w1, p, w2, w3. repeat (split; [assumption || reflexivity|]).
  etransitivity; eassumption.
Qed.
End Admission.

Lemma chain_calls_need_admission_witness :
  let svc := Demo.service (Demo.provider 1000000000 50000 5) ∅ ∅ in
  let request := Demo.request "10" "100000" "0" in
  exists w1 policyResult w2,
    RelayerService.validateRequest Demo.ext Demo.config svc request (Demo.world ∅ []) =
      (Ok tt, w1) /\
    PolicyEngine.checkPolicies Demo.ext (RelayerService.policyEngine svc) request w1 =
      (Ok policyResult, w2) /\
    PolicyEngine.allowed policyResult = true.
Proof.
  intros svc request.
  set (out := RelayerService.relayTransaction Demo.ext Demo.config svc request
                (Demo.world ∅ [])).
  assert (Htrace : exists evs,
            trace (snd out) = (trace (Demo.world ∅ []) ++ evs)%list /\
            Exists (fun e => is_chain_call e = true) evs).
  { eexists. split; [vm_compute; reflexivity|].
    apply Exists_cons_hd. reflexivity. }
  destruct Htrace as (evs & Htrace & Hx).
  destruct (chain_calls_need_admission Demo.ext Demo.config svc request (Demo.world ∅ [])
              (fst out) (snd out) evs (surjective_pairing out) Htrace Hx)
    as (_ & w1 & p & w2 & w3 & Hv & Hp & Ha & _).
  exists w1, p, w2. auto.
Defined.


(** ** Rejected Redis commands stop the relay before anything is signed *)

Lemma gives_up_throw {A} w wc msg : nothing_sent w wc -> gives_up (A := A) w (throw msg wc).
Proof. intros H. exists msg, wc. split; [reflexivity | exact H]. Qed.

Lemma gives_up_bind {A B} (m : M A) (k : A -> M B) w wc :
  nothing_sent w wc ->
  preserves nothing_sent m ->
  (forall a w1, nothing_sent w w1 -> gives_up w (k a w1)) ->
  gives_up w (bind m k wc).
Proof.
  intros Hw Hm Hk. unfold bind. specialize (Hm wc).
  destruct (m wc) as [[a|e] w1]; simpl in Hm.
  - apply Hk. etransitivity; eassumption.
  - exists e, w1. split; [reflexivity|]. etransitivity; eassumption.
Qed.

Section Rejected.
Variables (ext : Externals) (config : Config) (svc : RelayerService.t).
Variable request : MetaTransactionRequest.

Lemma getNextNonce_rejected signer provider network {B} (k : Z -> M B) w wc :
  nothing_sent w wc ->
  redis_up wc = false ->
  gives_up w (bind (RelayerService.getNextNonce ext config signer provider network) k wc).
Proof.
  intros Hw Hdown. unfold RelayerService.getNextNonce, lift, bind at 1 2.
  destruct (s_getAddress signer) as [address|e].
  - unfold RedisService.getCurrentNonce, Client.get, Client.command, bind, log_event,
      modify. cbn [redis_up add_event]. rewrite Hdown.
    do 2 eexists. split; [reflexivity|].
    etransitivity; [exact Hw|]. apply nothing_sent_event. reflexivity.
  - exists e, wc. split; [reflexivity | exact Hw].
Qed.

(** X17: when the Redis client rejects every command (a closed client, or
    a server that answers with an error), a run of [relayTransaction] on an
    initialized service ends with a failure result, and nothing was signed,
    broadcast, sent as a bundle or saved on the way; the table is
    unchanged. *)
Theorem rejected_commands_stop_relay w r w' :
  RelayerService.isInitialized svc = true ->
  redis_up w = false ->
  RelayerService.relayTransaction ext config svc request w = (r, w') ->
  (exists e, r = Ok (RelayerService.failure e)) /\
  transactions w' = transactions w /\
  exists evs, trace w' = (trace w ++ evs)%list /\
              Forall (fun e => is_sending e = false) evs.
Proof.
  intros Hinit Hdown Hrun. unfold RelayerService.relayTransaction in Hrun.
  rewrite Hinit in Hrun. cbn [negb] in Hrun. cbv iota in Hrun.
  unfold try_catch in Hrun.
  match type of Hrun with
  | match ?body w with _ => _ end = _ => assert (Hbody : gives_up w (body w))
  end.
  { assert (H0 : nothing_sent w w) by reflexivity. revert H0.
    generalize w at 2 4 as wc. intros wc H0.
    apply gives_up_bind; [exact H0 | apply unsent_validateRequest |].
    clear wc H0. intros _ wc H0.
    apply gives_up_bind; [exact H0 | apply unsent_checkPolicies |].
    clear wc H0. intros policyResult wc H0.
    destruct (negb (PolicyEngine.allowed policyResult));
      [apply gives_up_throw; exact H0|].
    destruct (RelayerService.providers svc !! req_network request) as [provider|];
      [|apply gives_up_throw; exact H0].
    destruct (RelayerService.signers svc !! req_network request) as [signer|];
      [|apply gives_up_throw; exact H0].
    apply gives_up_bind; [exact H0 | apply unsent_verify |]. clear wc H0. intros _ wc H0.
    apply gives_up_bind; [exact H0 | apply unsent_simulate |]. clear wc H0. intros _ wc H0.
    apply gives_up_bind; [exact H0 | apply unsent_gasPrice |].
    clear wc H0. intros gasPrice wc H0.
    apply gives_up_bind; [exact H0 | apply unsent_estimateGas |].
    clear wc H0. intros gasLimit wc H0.
    apply getNextNonce_rejected; [exact H0|].
    destruct H0 as (Hu & _). rewrite Hu. exact Hdown. }
  destruct Hbody as (e & w1 & Hbody & Hsent). rewrite Hbody in Hrun.
  unfold bind, log_event, modify, ret in Hrun. injection Hrun as <- <-.
  split; [eauto|].
  assert (H : nothing_sent w
                (add_event (EvMetricTransaction (req_network request) "failed") w1)).
  { etransitivity; [exact Hsent|]. apply nothing_sent_event. reflexivity. }
  destruct H as (_ & Ht & Hevs). split; assumption.
Qed.
End Rejected.

Lemma rejected_commands_stop_relay_witness :
  let svc := Demo.service (Demo.provider 1000000000 50000 5) ∅ ∅ in
  let out := RelayerService.relayTransaction Demo.ext Demo.config svc
               (Demo.request "10" "100000" "0") (Demo.redis_down (Demo.world ∅ [])) in
  (exists e, fst out = Ok (RelayerService.failure e)) /\
  transactions (snd out) = [].
Proof.
  intros svc out.
  destruct (rejected_commands_stop_relay Demo.ext Demo.config svc
              (Demo.request "10" "100000" "0") (Demo.redis_down (Demo.world ∅ []))
              (fst out) (snd out) eq_refl eq_refl (surjective_pairing out))
    as (Hr & Ht & _).
  split; [exact Hr | exact Ht].
Defined.


(** ** Loading the policy rules *)

Lemma checkPolicies_without_rules ext pe request w :
  PolicyEngine.isInitialized pe = true ->
  PolicyEngine.checkPolicies ext (PolicyRules.cleared pe) request w =
  (Ok PolicyEngine.allow, w).
Proof.
  intros Hinit.
  unfold PolicyEngine.checkPolicies, PolicyEngine.checkAllowlist, PolicyEngine.checkQuotas,
    PolicyEngine.checkGasLimits, PolicyEngine.checkTokenLimits, PolicyEngine.with_rule,
    PolicyRules.cleared.
  cbn [PolicyEngine.isInitialized PolicyEngine.allowlistRules PolicyEngine.quotaRules
       PolicyEngine.gasLimitRules PolicyEngine.tokenLimitRules].
  rewrite Hinit, !lookup_empty. cbn [negb].
  destruct (req_tokenAddress request) as [tokenAddress|]; [|reflexivity].
  destruct (req_amount request) as [amount|]; [|reflexivity].
  unfold try_catch, bind, ret. cbn [PolicyEngine.allowed PolicyEngine.allow negb].
  destruct (negb (JS.truthy tokenAddress && JS.truthy amount)); reflexivity.
Qed.

Section RuleLoading.
Context {J : Type} (JSON_parse : string -> option J).
Context (as_allowlist : J -> PolicyEngine.AllowlistRule)
        (as_quota : J -> PolicyEngine.QuotaRule)
        (as_gas_limit : J -> PolicyEngine.GasLimitRule)
        (as_token_limit : J -> PolicyEngine.TokenLimitRule).

#[local] Abbreviation as_params := (as_params as_allowlist as_quota as_gas_limit as_token_limit).
#[local] Abbreviation store_rule :=
  (PolicyRules.store_rule as_allowlist as_quota as_gas_limit as_token_limit).
#[local] Abbreviation load_rules :=
  (PolicyRules.load_rules JSON_parse as_allowlist as_quota as_gas_limit as_token_limit).
#[local] Abbreviation loadPolicyRules :=
  (PolicyRules.loadPolicyRules JSON_parse as_allowlist as_quota as_gas_limit
     as_token_limit).
#[local] Abbreviation addPolicyRule :=
  (PolicyRules.addPolicyRule JSON_parse as_allowlist as_quota as_gas_limit
     as_token_limit).

Lemma held_store_rule k tgt j r pe :
  held k (store_rule j r pe) tgt =
  if applies k tgt r then Some (as_params k j) else held k pe tgt.
Proof.
  unfold applies, PolicyRules.store_rule.
  destruct (String.eqb (PolicyRules.target r) tgt) eqn:E.
  - apply String.eqb_eq in E. subst tgt.
    destruct k, (PolicyRules.rule_type r); cbn; rewrite ?lookup_insert_eq; reflexivity.
  - apply String.eqb_neq in E. rewrite andb_false_r.
    destruct k, (PolicyRules.rule_type r); cbn;
      rewrite ?lookup_insert_ne by exact E; reflexivity.
Qed.

Lemma held_cleared k pe tgt : held k (PolicyRules.cleared pe) tgt = None.
Proof. destruct k; cbn; rewrite lookup_empty; reflexivity. Qed.

Lemma load_rules_chosen rules : forall pe pe',
  load_rules rules pe = (Ok tt, pe') ->
  forall k tgt,
    held k pe' tgt =
    match chosen k tgt rules with
    | Some r => as_params k <$> JSON_parse (PolicyRules.value r)
    | None => held k pe tgt
    end.
Proof.
  induction rules as [|r rest IH]; intros pe pe' Hload k tgt; simpl in *.
  - injection Hload as <-. reflexivity.
  - destruct (JSON_parse (PolicyRules.value r)) as [j|] eqn:Ej; [|discriminate].
    rewrite (IH _ _ Hload k tgt).
    destruct (chosen k tgt rest); [reflexivity|].
    rewrite held_store_rule. destruct (applies k tgt r); [|reflexivity].
    rewrite Ej. reflexivity.
Qed.

Lemma load_rules_total rules : forall pe,
  Forall (fun r => is_Some (JSON_parse (PolicyRules.value r))) rules ->
  exists pe', load_rules rules pe = (Ok tt, pe') /\
              PolicyEngine.isInitialized pe' = PolicyEngine.isInitialized pe.
Proof.
  induction rules as [|r rest IH]; intros pe Hall; simpl.
  - eauto.
  - inversion Hall as [|? ? [j Hj] Hrest]; subst. rewrite Hj.
    destruct (IH (store_rule j r pe) Hrest) as (pe' & Hload & Hinit).
    exists pe'. split; [exact Hload|]. rewrite Hinit.
    unfold PolicyRules.store_rule. destruct (PolicyRules.rule_type r); reflexivity.
Qed.

Lemma chosen_split k tgt rules r :
  chosen k tgt rules = Some r ->
  exists l1 l2, rules = (l1 ++ r :: l2)%list /\ applies k tgt r = true /\
                Forall (fun r' => applies k tgt r' = false) l2.
Proof.
  induction rules as [|x rest IH]; simpl; [discriminate|].
  destruct (chosen k tgt rest) as [r'|] eqn:E.
  - intros H. injection H as ->. destruct (IH eq_refl) as (l1 & l2 & -> & Ha & Hf).
    exists (x :: l1), l2. auto.
  - destruct (applies k tgt x) eqn:Ea; [|discriminate].
    intros H. injection H as <-. exists [], rest. split; [reflexivity|].
    split; [exact Ea|]. clear IH.
    induction rest as [|y rest IH]; [constructor|]. simpl in E.
    destruct (chosen k tgt rest); [discriminate|].
    destruct (applies k tgt y) eqn:Ey; [discriminate|].
    constructor; [exact Ey | apply IH; reflexivity].
Qed.

Lemma chosen_none k tgt rules :
  chosen k tgt rules = None -> Forall (fun r' => applies k tgt r' = false) rules.
Proof.
  induction rules as [|x rest IH]; simpl; [constructor|].
  destruct (chosen k tgt rest); [discriminate|].
  destruct (applies k tgt x) eqn:Ea; [discriminate|]. intros _.
  constructor; [exact Ea | apply IH; reflexivity].
Qed.

Lemma applies_spec k tgt r :
  applies k tgt r = true <-> PolicyRules.rule_type r = k /\ PolicyRules.target r = tgt.
Proof.
  unfold applies. rewrite andb_true_iff, String.eqb_eq.
  destruct (PolicyRules.rule_type r), k; simpl; split; intros [H1 H2]; split;
    congruence.
Qed.

Lemma rule_order_total a b :
  PolicyRules.newest_first a b = false -> PolicyRules.newest_first b a = true.
Proof. apply time_le_total. Qed.

Lemma rule_order_trans a b c :
  PolicyRules.newest_first a b = true -> PolicyRules.newest_first b c = true ->
  PolicyRules.newest_first a c = true.
Proof. unfold PolicyRules.newest_first. intros H1 H2. eapply time_le_trans; eassumption. Qed.

Lemma time_le_refl a : TransactionQueries.time_le a a = true.
Proof. destruct a; simpl; [apply Z.leb_refl | reflexivity]. Qed.

(** X18: with the table reachable and every enabled rule's value
    parsing, [loadPolicyRules] succeeds and replaces what the engine held:
    afterwards the engine holds a rule for a kind and target exactly when
    the table has an enabled rule of that kind and target, and the one it
    holds is an oldest such rule; disabled rules are not loaded. *)
Theorem loadPolicyRules_oldest_rule_wins tbl pe :
  PolicyRules.up tbl = true ->
  (forall r, In r (PolicyRules.rows tbl) -> PolicyRules.enabled r = true ->
             is_Some (JSON_parse (PolicyRules.value r))) ->
  exists pe',
    loadPolicyRules tbl pe = (Ok tt, pe') /\
    PolicyEngine.isInitialized pe' = PolicyEngine.isInitialized pe /\
    forall k tgt,
      match held k pe' tgt with
      | Some p =>
          exists r j,
            In r (PolicyRules.rows tbl) /\ PolicyRules.enabled r = true /\
            PolicyRules.rule_type r = k /\ PolicyRules.target r = tgt /\
            JSON_parse (PolicyRules.value r) = Some j /\ p = as_params k j /\
            forall r', In r' (PolicyRules.rows tbl) -> PolicyRules.enabled r' = true ->
                       PolicyRules.rule_type r' = k -> PolicyRules.target r' = tgt ->
                       TransactionQueries.time_le (PolicyRules.created_at r)
                         (PolicyRules.created_at r') = true
      | None =>
          forall r, In r (PolicyRules.rows tbl) -> PolicyRules.enabled r = true ->
                    PolicyRules.rule_type r = k -> PolicyRules.target r <> tgt
      end.
Proof.
  intros Hup Hparse.
  unfold PolicyRules.loadPolicyRules, PolicyRules.getPolicyRules. rewrite Hup.
  set (enabled_rows := List.filter _ (PolicyRules.rows tbl)).
  set (rules := TransactionQueries.sort_by PolicyRules.newest_first enabled_rows).
  assert (Hperm : Permutation rules enabled_rows) by apply sort_by_perm.
  assert (Hin : forall r, In r rules <->
                          In r (PolicyRules.rows tbl) /\ PolicyRules.enabled r = true).
  { intros r. split.
    - intros H. eapply Permutation_in in H; [|exact Hperm].
      apply List.filter_In in H as [H1 H2]. simpl in H2. rewrite andb_true_r in H2. auto.
    - intros [H1 H2]. eapply Permutation_in; [symmetry; exact Hperm|].
      apply List.filter_In. split; [exact H1|]. simpl. rewrite H2. reflexivity. }
  assert (Hsorted : StronglySorted (fun a b => PolicyRules.newest_first a b = true) rules).
  { apply sort_by_sorted; [apply rule_order_total | apply rule_order_trans]. }
  destruct (load_rules_total rules (PolicyRules.cleared pe)) as (pe' & Hload & Hinit).
  { apply List.Forall_forall. intros r Hr. apply Hin in Hr as [H1 H2]. auto. }
  exists pe'. split; [exact Hload|]. split; [exact Hinit|].
  intros k tgt. rewrite (load_rules_chosen rules _ _ Hload k tgt).
  destruct (chosen k tgt rules) as [r|] eqn:Ec.
  - destruct (chosen_split _ _ _ _ Ec) as (l1 & l2 & Heq & Ha & Hl2).
    assert (Hr : In r rules) by (rewrite Heq; apply in_or_app; right; left; reflexivity).
    apply Hin in Hr as [Hr1 Hr2]. destruct (Hparse r Hr1 Hr2) as [j Hj].
    rewrite Hj. cbn. exists r, j. apply applies_spec in Ha as [Hk Ht].
    repeat (split; [assumption || reflexivity|]).
    intros r' Hr'1 Hr'2 Hk' Ht'.
    assert (Hr' : In r' rules) by (apply Hin; auto).
    rewrite Heq in Hr', Hsorted. apply in_app_or in Hr' as [Hr'|[<-|Hr']].
    + apply (sorted_split _ _ _ Hsorted r' r Hr'). left. reflexivity.
    + apply time_le_refl.
    + exfalso. rewrite List.Forall_forall in Hl2. specialize (Hl2 r' Hr').
      assert (applies k tgt r' = true) by (apply applies_spec; auto). congruence.
  - rewrite held_cleared. intros r Hr1 Hr2 Hk Ht.
    apply chosen_none in Ec. rewrite List.Forall_forall in Ec.
    assert (Hr : In r rules) by (apply Hin; auto). specialize (Ec r Hr).
    assert (applies k tgt r = true) by (apply applies_spec; auto). congruence.
Qed.

Lemma sort_newest_last row rows :
  Forall (fun r => PolicyRules.newest_first r row = false) rows ->
  TransactionQueries.sort_by PolicyRules.newest_first (rows ++ [row]) =
  row :: TransactionQueries.sort_by PolicyRules.newest_first rows.
Proof.
  induction 1 as [|r rows Hr Hall IH]; [reflexivity|].
  change (TransactionQueries.insert_by PolicyRules.newest_first r
            (TransactionQueries.sort_by PolicyRules.newest_first (rows ++ [row])) =
          row :: TransactionQueries.insert_by PolicyRules.newest_first r
                   (TransactionQueries.sort_by PolicyRules.newest_first rows)).
  rewrite IH. cbn [TransactionQueries.insert_by]. rewrite Hr. reflexivity.
Qed.

(** X19: adding an enabled rule whose value is not JSON, to a table whose
    enabled rules are all older, stores the rule and throws; the engine is
    left with no rule at all, so that an initialized engine's
    [checkPolicies] allows every request; and every later reload throws in
    the same way and leaves its engine empty. *)
Theorem malformed_rule_empties_the_engine rule tbl pe :
  PolicyRules.up tbl = true ->
  rule_fits rule = true ->
  PolicyRules.enabled rule = true ->
  JSON_parse (PolicyRules.value rule) = None ->
  (forall r, In r (PolicyRules.rows tbl) -> PolicyRules.enabled r = true ->
             exists t, PolicyRules.created_at r = Some t /\ t < PolicyRules.now tbl) ->
  exists e tbl' row,
    addPolicyRule rule tbl pe = (Throw e, (tbl', PolicyRules.cleared pe)) /\
    PolicyRules.rows tbl' = (PolicyRules.rows tbl ++ [row])%list /\
    PolicyRules.value row = PolicyRules.value rule /\
    PolicyRules.enabled row = true /\
    (forall pe2, loadPolicyRules tbl' pe2 = (Throw e, PolicyRules.cleared pe2)) /\
    (PolicyEngine.isInitialized pe = true ->
     forall ext request w,
       PolicyEngine.checkPolicies ext (PolicyRules.cleared pe) request w =
       (Ok PolicyEngine.allow, w)).
Proof.
  intros Hup _ Hen Hbad Hold.
  unfold PolicyRules.addPolicyRule, PolicyRules.savePolicyRule. rewrite Hup.
  set (row := PolicyRules.mkRule _ _ _ _ _ _ _).
  set (tbl' := PolicyRules.mkTable _ _ _ _).
  assert (Hload : forall pe2,
            loadPolicyRules tbl' pe2 =
            (Throw "SyntaxError: Unexpected token in JSON", PolicyRules.cleared pe2)).
  { intros pe2. unfold PolicyRules.loadPolicyRules, PolicyRules.getPolicyRules.
    subst tbl'. cbn [PolicyRules.up PolicyRules.rows]. rewrite ?Hup. cbv iota.
    rewrite List.filter_app. cbn [List.filter]. subst row.
    cbn [PolicyRules.enabled PolicyRules.of_type]. rewrite Hen. cbn [andb].
    rewrite sort_newest_last.
    - cbn [PolicyRules.load_rules PolicyRules.value]. rewrite Hbad. reflexivity.
    - apply List.Forall_forall. intros r Hr. apply List.filter_In in Hr as [Hr1 Hr2].
      simpl in Hr2. rewrite andb_true_r in Hr2.
      destruct (Hold r Hr1 Hr2) as (t & Ht & Hlt).
      unfold PolicyRules.newest_first. cbn [PolicyRules.created_at]. rewrite Ht.
      simpl. apply Z.leb_gt. exact Hlt. }
  exists "SyntaxError: Unexpected token in JSON", tbl', row.
  split; [rewrite Hload; reflexivity|].
  split; [reflexivity|]. split; [reflexivity|]. split; [exact Hen|].
  split; [exact Hload|].
  intros Hinit ext request w. apply checkPolicies_without_rules. exact Hinit.
Qed.
End RuleLoading.

Lemma loadPolicyRules_oldest_rule_wins_witness :
  let older := PolicyRules.mkRule (Some 1) PolicyRules.gas_limit "*" "100" true
                 (Some 10) (Some 10) in
  let newer := PolicyRules.mkRule (Some 2) PolicyRules.gas_limit "*" "200" true
                 (Some 20) (Some 20) in
  let as_gas := fun z : Z => PolicyEngine.mkGas (JS.toString z) "0" in
  exists pe',
    PolicyRules.loadPolicyRules Demo.decimal (fun _ => PolicyEngine.mkAllow [])
      (fun _ => PolicyEngine.mkQuota 0 0 "0" "0" "0") as_gas
      (fun _ => PolicyEngine.mkToken [] ∅ ∅ ∅)
      (PolicyRules.mkTable true 30 [older; newer] 3) (Demo.engine ∅ ∅) = (Ok tt, pe') /\
    PolicyEngine.gasLimitRules pe' !! "*" = Some (as_gas 100).
Proof.
  intros older newer as_gas.
  destruct (loadPolicyRules_oldest_rule_wins Demo.decimal
              (fun _ => PolicyEngine.mkAllow [])
              (fun _ => PolicyEngine.mkQuota 0 0 "0" "0" "0") as_gas
              (fun _ => PolicyEngine.mkToken [] ∅ ∅ ∅)
              (PolicyRules.mkTable true 30 [older; newer] 3) (Demo.engine ∅ ∅) eq_refl)
    as (pe' & Hload & _ & _).
  - intros r [<-|[<-|[]]] _; eexists; vm_compute; reflexivity.
  - exists pe'. split; [exact Hload|].
    injection Hload as <-. vm_compute. reflexivity.
Defined.

Lemma malformed_rule_empties_the_engine_witness :
  let rule := PolicyRules.mkRule None PolicyRules.quota "*" "{oops" true None None in
  let tbl := PolicyRules.mkTable true 30
               [PolicyRules.mkRule (Some 1) PolicyRules.allowlist "*" "1" true
                  (Some 10) (Some 10)] 2 in
  exists e tbl',
    PolicyRules.addPolicyRule Demo.decimal (fun _ => PolicyEngine.mkAllow [])
      (fun _ => PolicyEngine.mkQuota 0 0 "0" "0" "0")
      (fun _ => PolicyEngine.mkGas "0" "0") (fun _ => PolicyEngine.mkToken [] ∅ ∅ ∅)
      rule tbl (Demo.engine ∅ ∅) =
    (Throw e, (tbl', PolicyRules.cleared (Demo.engine ∅ ∅))).
Proof.
  intros rule tbl.
  destruct (malformed_rule_empties_the_engine Demo.decimal
              (fun _ => PolicyEngine.mkAllow [])
              (fun _ => PolicyEngine.mkQuota 0 0 "0" "0" "0")
              (fun _ => PolicyEngine.mkGas "0" "0") (fun _ => PolicyEngine.mkToken [] ∅ ∅ ∅)
              rule tbl (Demo.engine ∅ ∅) eq_refl eq_refl eq_refl eq_refl)
    as (e & tbl' & row & Hadd & _).
  - intros r [<-|[]] _. exists 10. split; reflexivity.
  - exists e, tbl'. exact Hadd.
Defined.
